(** * Douyin live streamer: discovery orchestrator and transcode session manager

    Shallow embedding of the server module of [douyin-live-streamer]
    ([src/unnamed/part_000]): the function [extractLiveStreamUrl] that drives
    a headless browser to find a media URL, the function [processLiveStream]
    that supervises one ffmpeg process per session, [cleanupStream], and the
    REST handlers built on them.

    Everything the code asks of the outside world (the browser, the file
    system, fluent-ffmpeg, the clock) is an explicit input: a [page] record
    for one discovery attempt and a [host] record for the server process.
    What the code does to the outside world is an [effect] appended to a
    trace; the session table [activeLiveStreams] is a finite map in the
    [world] the handlers thread through. *)

From Stdlib Require Import String Ascii List Bool Arith NArith Lia.
From stdpp Require Import base option list gmap strings pretty fin_maps.

Local Open Scope string_scope.
Local Open Scope list_scope.
Local Open Scope nat_scope.

(** ** JavaScript strings *)

Module Js.

(** [hay.includes(needle)]: [needle] occurs somewhere in [hay]. *)
Fixpoint includes (hay needle : string) : bool :=
  String.prefix needle hay ||
  match hay with
  | EmptyString => false
  | String _ rest => includes rest needle
  end.

(** Truthiness of a value that is [null] or a string: [null] and the empty
    string are falsy. *)
Definition truthy (v : option string) : bool :=
  match v with
  | Some s => negb (String.eqb s "")
  | None => false
  end.

(** [v && v.includes(needle)] for a value that is [null] or a string. *)
Definition truthy_includes (v : option string) (needle : string) : bool :=
  match v with
  | Some s => negb (String.eqb s "") && includes s needle
  | None => false
  end.

End Js.

(** ** Values that need not be strings *)

(** An exception is the message of the JavaScript [Error] that is thrown. *)
Definition exn : Type := string.

(** What the variable [streamUrl] can hold. It is assigned from the page
    (lines 428 and 683) and from the reply of the backend (lines 781 and
    784) without a test of the type, so it need not be a string. The code
    outside the page reads a value in two ways only, its truthiness and its
    method [includes], and that is what the four cases keep apart: [null]
    (and the other falsy values that are not strings, which the discovery
    never asks for a method); a string; an array, of which only the
    elements that are strings can equal what [includes] looks for (any
    other element is [None]); and a truthy value without the method (a
    plain object, a number, [true]). *)
Inductive value : Type :=
| Null
| Str (s : string)
| Arr (items : list (option string))
| Other.

Global Instance value_eq_dec : EqDecision value.
Proof. solve_decision. Defined.

Module Value.

Definition truthy (v : value) : bool :=
  match v with
  | Null => false
  | Str s => negb (String.eqb s "")
  | Arr _ => true
  | Other => true
  end.

(** Calling [name.includes] throws a TypeError when [name] holds a value
    without the method. *)
Definition no_includes (name : string) (v : value) : option exn :=
  match v with
  | Null => Some ("TypeError: Cannot read properties of null (reading 'includes')")
  | Other => Some ("TypeError: " +:+ name +:+ ".includes is not a function")
  | _ => None
  end.

(** What [v.includes(needle)] answers when [v] has the method: the substring
    test of [String.prototype.includes], the membership test of
    [Array.prototype.includes]. *)
Definition includes (v : value) (needle : string) : bool :=
  match v with
  | Str s => Js.includes s needle
  | Arr items =>
      existsb (λ item, match item with
                       | Some s => String.eqb s needle
                       | None => false
                       end) items
  | _ => false
  end.

(** [array[array.length - 1]] of an array of strings; [undefined] when the
    array is empty. *)
Definition last_of (l : list string) : value :=
  match last l with
  | Some s => Str s
  | None => Null
  end.

End Value.

(** ** Effects, exceptions and the two monads *)

(** Object identity of one fluent-ffmpeg command (one transcoding process). *)
Definition handle : Type := nat.

(** What the code does to the outside world, in the order it does it. *)
Inductive effect : Type :=
| Launch                                   (* puppeteer.launch resolved: a browser exists *)
| Goto (url : string)                      (* page.goto resolved *)
| Fetch (url : string)                     (* fetch issued from the page context *)
| WriteFile (path content : string)        (* fs.writeFileSync returned *)
| Screenshot (path : string)               (* page.screenshot resolved *)
| Close                                    (* browser.close() was called *)
| MkdirSync (path : string)                (* fs.mkdirSync returned *)
| Spawn (p : handle) (input : value) (output : string)   (* ffmpegProcess.run() returned *)
| Kill (p : handle) (signal : string)      (* process.kill(signal) *)
| TableSet (sessionId : string) (p : handle)   (* activeLiveStreams.set *)
| TableDelete (sessionId : string).        (* activeLiveStreams.delete *)

Global Instance effect_eq_dec : EqDecision effect.
Proof. solve_decision. Defined.

(** How a call ends: it returns a value or throws. *)
Inductive outcome (A : Type) : Type :=
| Return (a : A)
| Throw (e : exn).
Arguments Return {A} a.
Arguments Throw {A} e.

(** [E]: code that only talks to the browser; it ends and leaves a trace. *)
Definition E (A : Type) : Type := outcome A * list effect.

Global Instance E_ret : MRet E := λ A a, (Return a, []).
Global Instance E_bind : MBind E := λ A B f m,
  match m with
  | (Return a, t) => let '(r, t') := f a in (r, t ++ t')
  | (Throw e, t) => (Throw e, t)
  end.

Module Browser.

Definition throw {A} (e : exn) : E A := (Throw e, []).

Definition emit (ef : effect) : E unit := (Return (), [ef]).

(** [await p] for a promise that resolves to nothing useful or rejects. *)
Definition await (rejects : option exn) : E unit :=
  match rejects with
  | Some e => throw e
  | None => mret ()
  end.

(** [await p] for a promise that resolves to a value or rejects. *)
Definition await_val {A} (p : exn + A) : E A :=
  match p with
  | inl e => throw e
  | inr a => mret a
  end.

(** [try { body } catch (e) { handler e }] *)
Definition try_catch {A} (body : E A) (handler : exn → E A) : E A :=
  match body with
  | (Throw e, t) => let '(r, t') := handler e in (r, t ++ t')
  | done => done
  end.

(** [try { body } finally { fin }]: [fin] runs on every exit of [body]; if
    [fin] throws, its exception replaces the outcome of [body]. *)
Definition try_finally {A} (body : E A) (fin : E unit) : E A :=
  let '(r, t) := body in
  match fin with
  | (Return _, t') => (r, t ++ t')
  | (Throw e, t') => (Throw e, t ++ t')
  end.

(** [name.includes(needle)] *)
Definition includes (name : string) (v : value) (needle : string) : E bool :=
  match Value.no_includes name v with
  | Some e => throw e
  | None => mret (Value.includes v needle)
  end.

End Browser.

(** ** The discovery attempt: what the browser shows *)

(** The part of the backend reply the code reads:
    [response.data.room.stream_url.{flv_url, hls_url}]; a [stream_url] that
    is missing or falsy reads as two [null]s. *)
Record room : Type := {
  flv_url : value;
  hls_url : value
}.

(** The awaits of the main flow that follow the installation of the listener
    of line 592 and its 15 s wait: the in-page script (line 683), the cookie
    jar (line 758), the backend query (line 765), the page content (line
    803) and the screenshot (line 807). *)
Inductive await_point : Type :=
| AtScript
| AtCookies
| AtQuery
| AtContent
| AtScreenshot.

(** One discovery attempt as the code sees it. A field of type [option exn]
    is a call that resolves or rejects; [exn + A] is a call that resolves to
    an [A] or rejects. *)
Record page : Type := {
  launch_fails : option exn;          (* puppeteer.launch *)
  setup_fails : option exn;           (* context, page, user agent, headers, cookie: lines 135-324 *)
  goto_fails : option exn;            (* page.goto, e.g. the navigation timeout *)
  interact_fails : option exn;        (* simulateHumanBehavior, scroll, mouse, waits: lines 336-385 *)
  observed : list string;             (* request URLs handed to the listener of line 250, oldest first,
                                         up to the moment the buckets are read *)
  has_video : exn + bool;             (* the page.evaluate of line 415 *)
  dom_src : exn + value;              (* the page.evaluate of line 428 *)
  cdp_fails : option exn;             (* createCDPSession, Network.enable, the 15 s wait *)
  cdp_responses : list (list string); (* per JSON response whose callback completes in that wait,
                                         in order: the urls of mediaUrls *)
  late_responses : await_point → list (list string);
                                      (* the same for the callbacks that complete while the main
                                         flow is suspended at a later await: the listener is
                                         never removed *)
  script_src : exn + value;           (* the page.evaluate of line 683 *)
  cookies_fail : option exn;          (* page.cookies *)
  api_response : exn + option room;   (* the page.evaluate of line 765, then response.data.room *)
  content : exn + string;             (* page.content *)
  write_fails : option exn;           (* fs.writeFileSync *)
  screenshot_fails : option exn;      (* page.screenshot *)
  close_fails : option exn            (* browser.close *)
}.

(** The decoy marker: the path of the placeholder video the site serves. *)
Definition decoy_marker : string := "douyin-pc-web/uuu_".

Definition is_decoy (url : string) : bool := Js.includes url decoy_marker.

Definition invalid_address : exn :=
  "链接格式不正确，请提供有效的抖音直播间链接".

Definition discovery_exhausted : exn :=
  "无法获取直播流地址，请查看截图和页面HTML内容了解详情".

(** Lines 93-101: the address check, on the address as normalised. *)
Definition validate (douyinUrl : string) : E string :=
  if negb (Js.includes douyinUrl "douyin.com") && negb (Js.includes douyinUrl "tiktok.com") then
    let douyinUrl :=
      if negb (Js.includes douyinUrl "http") then "https://" +:+ douyinUrl else douyinUrl in
    if negb (Js.includes douyinUrl "/live/") then Browser.throw invalid_address
    else mret douyinUrl
  else mret douyinUrl.

(** The two arrays of lines 246-247. *)
Record buckets : Type := {
  mediaRequests : list string;
  liveStreamRequests : list string
}.

Definition no_requests : buckets := {| mediaRequests := []; liveStreamRequests := [] |}.

Definition media_like (url : string) : bool :=
  Js.includes url ".m3u8" || Js.includes url ".flv" || Js.includes url ".mp4" ||
  Js.includes url "/stream/" || Js.includes url "/live/" || Js.includes url "/play/".

Definition stream_ext (url : string) : bool :=
  Js.includes url ".m3u8" || Js.includes url ".flv".

(** Lines 250-268: the request listener; [push] appends. *)
Definition on_request (b : buckets) (url : string) : buckets :=
  if media_like url then
    if negb (Js.includes url decoy_marker) then
      if stream_ext url then
        {| mediaRequests := mediaRequests b;
           liveStreamRequests := liveStreamRequests b ++ [url] |}
      else
        {| mediaRequests := mediaRequests b ++ [url];
           liveStreamRequests := liveStreamRequests b |}
    else b
  else b.

Definition observe (urls : list string) : buckets := fold_left on_request urls no_requests.

(** ** The extraction strategies *)

Import Browser.

(** The test of line 571 (and of line 736, on [extractedUrl]):
    [v && !v.includes(marker)]. *)
Definition accepted (name : string) (v : value) : E bool :=
  if Value.truthy v then
    marked ← includes name v decoy_marker;
    mret (negb marked)
  else mret false.

(** The guard of lines 678, 747 and 801: [!streamUrl || streamUrl.includes(marker)]. *)
Definition still_missing (streamUrl : value) : E bool :=
  if negb (Value.truthy streamUrl) then mret true
  else includes "streamUrl" streamUrl decoy_marker.

(** The test of line 811: [streamUrl && streamUrl.includes(marker)]. *)
Definition holds_decoy (streamUrl : value) : E bool :=
  if Value.truthy streamUrl then includes "streamUrl" streamUrl decoy_marker
  else mret false.

(** Lines 408-568: DOM extraction. [streamUrl] starts as [null] and is only
    assigned when both evaluations resolve; the [catch] logs and goes on. *)
Definition dom_stage (pg : page) : E value :=
  try_catch
    (hasVideo ← await_val (has_video pg);
     if hasVideo : bool then await_val (dom_src pg) else mret Null)
    (λ _, mret Null).

(** Lines 651-652: the rank the comparator of [sort] gives a URL. *)
Definition score (url : string) : nat := if stream_ext url then 2 else 1.

(** [Array.prototype.sort] with the comparator [bScore - aScore]: descending
    by rank, and stable. *)
Fixpoint insert_by_score (x : string) (l : list string) : list string :=
  match l with
  | [] => [x]
  | y :: l' => if score x <? score y then y :: insert_by_score x l' else x :: l
  end.

Definition sort_by_score (l : list string) : list string := foldr insert_by_score [] l.

(** Lines 645-660: what one [Network.responseReceived] callback does to
    [streamUrl], given the urls of its [mediaUrls]. *)
Definition on_response (streamUrl : value) (mediaUrls : list string) : value :=
  if 0 <? length mediaUrls then
    let streamUrls := sort_by_score (filter (λ url, is_decoy url = false) mediaUrls) in
    match streamUrls with
    | first :: _ => Str first
    | [] => streamUrl
    end
  else streamUrl.

(** The callbacks that complete while the main flow is suspended at an
    await assign [streamUrl] before the flow goes on, if the listener has
    been installed. *)
Definition arrive (listening : bool) (responses : list (list string)) (streamUrl : value)
  : value :=
  if listening then fold_left on_response responses streamUrl else streamUrl.

(** Lines 573-675: the [else] branch taken when the DOM gave no real URL.
    Beside the new [streamUrl] it tells whether the listener of line 592 has
    been installed. *)
Definition network_stage (pg : page) (b : buckets) (streamUrl : value)
  : E (value * bool) :=
  if 0 <? length (liveStreamRequests b) then
    mret (Value.last_of (liveStreamRequests b), false)
  else if 0 <? length (mediaRequests b) then
    mret (Value.last_of (mediaRequests b), false)
  else
    await (cdp_fails pg);;
    mret (fold_left on_response (cdp_responses pg) streamUrl, true).

(** Lines 678-744: the in-page script; a decoy-marked result is dropped. *)
Definition script_stage (pg : page) (listening : bool) (streamUrl : value) : E value :=
  missing ← still_missing streamUrl;
  if missing : bool then
    let streamUrl := arrive listening (late_responses pg AtScript) streamUrl in
    try_catch
      (extractedUrl ← await_val (script_src pg);
       found ← accepted "extractedUrl" extractedUrl;
       if found : bool then mret extractedUrl else mret streamUrl)
      (λ _, mret streamUrl)
  else mret streamUrl.

(** The longest prefix made of characters other than [/] and [?]. *)
Fixpoint take_segment (s : string) : string :=
  match s with
  | EmptyString => EmptyString
  | String c rest =>
      if Ascii.eqb c "/" || Ascii.eqb c "?" then EmptyString
      else String c (take_segment rest)
  end.

(** The regular expression of line 752 tried at the first character. *)
Definition room_id_here (url : string) : option string :=
  if String.prefix "/live/" url then
    let seg := take_segment (String.substring 6 (String.length url - 6) url) in
    if String.eqb seg "" then None else Some seg
  else None.

(** [douyinUrl.match(/\/live\/([^/?]+)/)], group 1: leftmost match. *)
Fixpoint room_id (url : string) : option string :=
  match room_id_here url with
  | Some id => Some id
  | None =>
      match url with
      | EmptyString => None
      | String _ rest => room_id rest
      end
  end.

Definition api_url (roomId : string) : string :=
  "https://webcast.amemv.com/webcast/room/reflow/info/?live_id=" +:+ roomId +:+
  "&room_id=" +:+ roomId.

(** Lines 747-798: the backend query; without a room id it is skipped. The
    one [try] of lines 750-797 is written as two, one inside the other, so
    that each [catch] leaves in [streamUrl] what the listener had put there
    by the time the exception was thrown. *)
Definition api_stage (pg : page) (listening : bool) (douyinUrl : string) (streamUrl : value)
  : E value :=
  missing ← still_missing streamUrl;
  if missing : bool then
    match room_id douyinUrl with
    | Some roomId =>
        let streamUrl := arrive listening (late_responses pg AtCookies) streamUrl in
        try_catch
          (await (cookies_fail pg);;
           emit (Fetch (api_url roomId));;
           let streamUrl := arrive listening (late_responses pg AtQuery) streamUrl in
           try_catch
             (response ← await_val (api_response pg);
              match response with
              | Some r =>
                  if Value.truthy (flv_url r) then mret (flv_url r)
                  else if Value.truthy (hls_url r) then mret (hls_url r)
                  else mret streamUrl
              | None => mret streamUrl
              end)
             (λ _, mret streamUrl))
          (λ _, mret streamUrl)
    | None => mret streamUrl
    end
  else mret streamUrl.

(** Lines 801-820: diagnostics, the decoy fallback, the final return. *)
Definition finish (pg : page) (listening : bool) (streamUrl : value) : E value :=
  missing ← still_missing streamUrl;
  if missing : bool then
    let streamUrl := arrive listening (late_responses pg AtContent) streamUrl in
    pageContent ← await_val (content pg);
    await (write_fails pg);;
    emit (WriteFile "debug-page-content.html" pageContent);;
    let streamUrl := arrive listening (late_responses pg AtScreenshot) streamUrl in
    await (screenshot_fails pg);;
    emit (Screenshot "debug-screenshot.png");;
    decoy ← holds_decoy streamUrl;
    if decoy : bool then mret streamUrl
    else throw discovery_exhausted
  else mret streamUrl.

(** What follows the network stage, lines 677-820. *)
Definition later_stages (pg : page) (douyinUrl : string) (listening : bool)
    (streamUrl : value) : E value :=
  streamUrl ← script_stage pg listening streamUrl;
  streamUrl ← api_stage pg listening douyinUrl streamUrl;
  finish pg listening streamUrl.

(** Lines 570-820: what follows DOM extraction, given what it left in
    [streamUrl]. *)
Definition strategies (pg : page) (douyinUrl : string) (streamUrl : value) : E value :=
  found ← accepted "streamUrl" streamUrl;
  after ← (if found : bool then mret (streamUrl, false)
           else network_stage pg (observe (observed pg)) streamUrl);
  later_stages pg douyinUrl after.2 after.1.

(** Lines 133-820: the body of the outer [try]. *)
Definition discover (pg : page) (douyinUrl : string) : E value :=
  await (setup_fails pg);;
  await (goto_fails pg);;
  emit (Goto douyinUrl);;
  await (interact_fails pg);;
  streamUrl ← dom_stage pg;
  strategies pg douyinUrl streamUrl.

(** [extractLiveStreamUrl], lines 89-827. The value returned is what the
    variable [streamUrl] holds at line 813 or 820. *)
Definition extractLiveStreamUrl (pg : page) (douyinUrl : string) : E value :=
  douyinUrl ← validate douyinUrl;
  await (launch_fails pg);;
  emit Launch;;
  try_finally
    (try_catch (discover pg douyinUrl) (λ error, throw error))
    (emit Close;; await (close_fails pg)).

(** ** The transcode session manager *)

(** The object [processLiveStream] returns. *)
Module Result.
Record t : Type := {
  originalUrl : value;
  transcodedUrl : option string;
  ffmpegAvailable : bool;
  error : option exn
}.
End Result.

(** The server process: module-level constants and how the file system and
    fluent-ffmpeg answer. *)
Record host : Type := {
  ffmpegAvailable : bool;     (* the flag of line 52, set once at start-up *)
  PORT : string;              (* process.env.PORT || 3001, as interpolated *)
  dirname : string;           (* __dirname *)
  path_join : list string → string;   (* path.join of the platform *)
  mkdir_fails : option exn;   (* fs.mkdirSync *)
  ffmpeg_fails : option exn;  (* building the command: ffmpeg(streamUrl) ... .on('end', ...) *)
  run_fails : option exn      (* ffmpegProcess.run() *)
}.

(** The mutable state of the server. *)
Record world : Type := {
  activeLiveStreams : gmap string handle;   (* the Map of line 82 *)
  listeners : gmap handle string;           (* per command: the sessionId its 'error' and 'end'
                                               callbacks closed over *)
  next_handle : handle;                     (* identity of the next command object *)
  streams_dir : bool;                       (* does public/streams exist *)
  trace : list effect
}.

(** [M]: code that reads and writes the server state. *)
Definition M (A : Type) : Type := world → outcome A * world.

Global Instance M_ret : MRet M := λ A a w, (Return a, w).
Global Instance M_bind : MBind M := λ A B f m w,
  match m w with
  | (Return a, w') => f a w'
  | (Throw e, w') => (Throw e, w')
  end.

Module Server.

Definition throw {A} (e : exn) : M A := λ w, (Throw e, w).

Definition log (t : list effect) (w : world) : world :=
  {| activeLiveStreams := activeLiveStreams w; listeners := listeners w;
     next_handle := next_handle w; streams_dir := streams_dir w;
     trace := trace w ++ t |}.

Definition emit (ef : effect) : M unit := λ w, (Return (), log [ef] w).

Definition raise_if (rejects : option exn) : M unit :=
  match rejects with
  | Some e => throw e
  | None => mret ()
  end.

(** Run browser code inside the server: its trace is appended. *)
Definition lift {A} (m : E A) : M A := λ w, (m.1, log m.2 w).

Definition try_catch {A} (body : M A) (handler : exn → M A) : M A := λ w,
  match body w with
  | (Throw e, w') => handler e w'
  | done => done
  end.

(** [activeLiveStreams.has(sessionId)] *)
Definition table_has (sessionId : string) : M bool := λ w,
  (Return (bool_decide (is_Some (activeLiveStreams w !! sessionId))), w).

(** [activeLiveStreams.get(sessionId)]; [undefined] is [None]. *)
Definition table_get (sessionId : string) : M (option handle) := λ w,
  (Return (activeLiveStreams w !! sessionId), w).

(** [activeLiveStreams.set(sessionId, p)] *)
Definition table_set (sessionId : string) (p : handle) : M unit := λ w,
  (Return (),
   log [TableSet sessionId p]
     {| activeLiveStreams := <[sessionId := p]> (activeLiveStreams w);
        listeners := listeners w; next_handle := next_handle w;
        streams_dir := streams_dir w; trace := trace w |}).

(** [activeLiveStreams.delete(sessionId)] *)
Definition table_delete (sessionId : string) : M unit := λ w,
  (Return (),
   log [TableDelete sessionId]
     {| activeLiveStreams := delete sessionId (activeLiveStreams w);
        listeners := listeners w; next_handle := next_handle w;
        streams_dir := streams_dir w; trace := trace w |}).

(** [fs.existsSync(outputDir)] *)
Definition existsSync : M bool := λ w, (Return (streams_dir w), w).

(** [fs.mkdirSync(outputDir, {recursive: true})] *)
Definition mkdirSync (h : host) (outputDir : string) : M unit := λ w,
  match mkdir_fails h with
  | Some e => (Throw e, w)
  | None =>
      (Return (),
       log [MkdirSync outputDir]
         {| activeLiveStreams := activeLiveStreams w; listeners := listeners w;
            next_handle := next_handle w; streams_dir := true; trace := trace w |})
  end.

(** [ffmpeg(streamUrl) ... .on('error', ...) ... .on('end', ...)]: a new
    command object whose two callbacks close over [sessionId]. *)
Definition ffmpeg (h : host) (sessionId : string) : M handle := λ w,
  match ffmpeg_fails h with
  | Some e => (Throw e, w)
  | None =>
      (Return (next_handle w),
       {| activeLiveStreams := activeLiveStreams w;
          listeners := <[next_handle w := sessionId]> (listeners w);
          next_handle := S (next_handle w);
          streams_dir := streams_dir w; trace := trace w |})
  end.

(** [ffmpegProcess.run()] *)
Definition run (h : host) (p : handle) (input : value) (output : string) : M unit :=
  raise_if (run_fails h);;
  emit (Spawn p input output).

End Server.

Import Server.

(** Line 853: [path.join(__dirname, 'public', 'streams')]. *)
Definition outputDir (h : host) : string := path_join h [dirname h; "public"; "streams"].

(** Lines 851-935: the body of the [try] of [processLiveStream]. *)
Definition transcode (h : host) (streamUrl : value) (sessionId : string) : M Result.t :=
  present ← existsSync;
  (if negb present then mkdirSync h (outputDir h) else mret ());;
  let outputPath := path_join h [outputDir h; sessionId +:+ ".mp4"] in
  let outputUrl := "/streams/" +:+ sessionId +:+ ".mp4" in
  ffmpegProcess ← ffmpeg h sessionId;
  run h ffmpegProcess streamUrl outputPath;;
  table_set sessionId ffmpegProcess;;
  mret {| Result.originalUrl := streamUrl;
          Result.transcodedUrl := Some ("http://localhost:" +:+ PORT h +:+ outputUrl);
          Result.ffmpegAvailable := true;
          Result.error := None |}.

(** [processLiveStream], lines 835-945. The test of line 837,
    [streamUrl.includes('/douyin-pc-web/') || streamUrl.includes('uuu_')],
    only logs, but it calls the method, outside the [try]. *)
Definition processLiveStream (h : host) (streamUrl : value) (sessionId : string)
  : M Result.t :=
  raise_if (Value.no_includes "streamUrl" streamUrl);;
  if negb (ffmpegAvailable h) then
    mret {| Result.originalUrl := streamUrl;
            Result.transcodedUrl := None;
            Result.ffmpegAvailable := false;
            Result.error := None |}
  else
    try_catch
      (transcode h streamUrl sessionId)
      (λ error,
         mret {| Result.originalUrl := streamUrl;
                 Result.transcodedUrl := None;
                 Result.ffmpegAvailable := false;
                 Result.error := Some error |}).

(** [cleanupStream], lines 951-958. *)
Definition cleanupStream (sessionId : string) : M unit :=
  present ← table_has sessionId;
  if present : bool then
    process ← table_get sessionId;
    match process with
    | Some p => emit (Kill p "SIGTERM")
    | None => throw "TypeError: Cannot read properties of undefined (reading 'kill')"
    end;;
    table_delete sessionId
  else mret ().

(** ** [path.join] on a POSIX platform

    Node's [path.posix.join] and the [normalize] it ends with, for the hosts
    the examples run on. *)

Module Path.

(** [s.split('/')] *)
Fixpoint split (s : string) : list string :=
  match s with
  | EmptyString => [EmptyString]
  | String c rest =>
      if Ascii.eqb c "/" then EmptyString :: split rest
      else match split rest with
           | part :: parts => String c part :: parts
           | [] => [String c EmptyString]
           end
  end.

Fixpoint ends_with_slash (s : string) : bool :=
  match s with
  | EmptyString => false
  | String c EmptyString => Ascii.eqb c "/"
  | String _ rest => ends_with_slash rest
  end.

(** One segment in [normalizeString]: empty segments and [.] are skipped,
    [..] removes the segment before it, or is kept when there is none to
    remove and the path is relative. *)
Definition normalize_step (allowAboveRoot : bool) (res : list string) (segment : string)
  : list string :=
  if String.eqb segment "" || String.eqb segment "." then res
  else if String.eqb segment ".." then
    match last res with
    | Some previous =>
        if String.eqb previous ".." then (if allowAboveRoot then res ++ [".."] else res)
        else removelast res
    | None => if allowAboveRoot then [".."] else []
    end
  else res ++ [segment].

(** [path.posix.normalize] *)
Definition normalize (path : string) : string :=
  if String.eqb path "" then "."
  else
    let isAbsolute := String.prefix "/" path in
    let trailingSeparator := ends_with_slash path in
    let body :=
      String.concat "/" (fold_left (normalize_step (negb isAbsolute)) (split path) []) in
    if String.eqb body "" then
      if isAbsolute then "/" else if trailingSeparator then "./" else "."
    else
      (if isAbsolute then "/" else "") +:+ body +:+ (if trailingSeparator then "/" else "").

(** [path.posix.join]: the non-empty arguments joined by [/], normalised. *)
Definition join (parts : list string) : string :=
  match List.filter (λ part, negb (String.eqb part "")) parts with
  | [] => "."
  | parts => normalize (String.concat "/" parts)
  end.

End Path.

(** ** The REST handlers *)

Inductive response : Type :=
| Started (sessionId : string) (r : Result.t)   (* {success: true, sessionId, streamUrl, ...} *)
| Stopped (message : string)                    (* {success: true, message} *)
| Refused (status : nat) (error : string).      (* res.status(status).json({error}) *)

(** [POST /api/start-stream], lines 961-990; [now] is what [Date.now()]
    reads, in milliseconds, and [pretty] its decimal [toString()]. *)
Definition start_stream (h : host) (pg : page) (now : N) (url : option string)
  : M response :=
  try_catch
    (if negb (Js.truthy url) then mret (Refused 400 "缺少抖音直播间URL")
     else
       let sessionId := pretty now in
       streamUrl ← lift (extractLiveStreamUrl pg (default "" url));
       r ← processLiveStream h streamUrl sessionId;
       mret (Started sessionId r))
    (λ _, mret (Refused 500 "无法连接到抖音直播间")).

(** [POST /api/stop-stream/:sessionId], lines 1005-1014. *)
Definition stop_stream (sessionId : string) : M response :=
  present ← table_has sessionId;
  if present : bool then
    cleanupStream sessionId;;
    mret (Stopped "已停止直播转播")
  else mret (Refused 404 "直播会话不存在").

(** What can ask for a session to be cleaned up once it runs. *)
Inductive event : Type :=
| StopRequest (sessionId : string)   (* POST /api/stop-stream/:sessionId *)
| ProcessError (p : handle)          (* the 'error' event of a command, line 878 *)
| ProcessEnd (p : handle).           (* the 'end' event of a command, line 920 *)

(** A callback of a command calls [cleanupStream] with the id it closed over. *)
Definition on_process_event (p : handle) : M unit := λ w,
  match listeners w !! p with
  | Some sessionId => cleanupStream sessionId w
  | None => (Return (), w)
  end.

Definition handle_event (ev : event) : M unit :=
  match ev with
  | StopRequest sessionId => stop_stream sessionId;; mret ()
  | ProcessError p => on_process_event p
  | ProcessEnd p => on_process_event p
  end.

(** The event loop runs the handlers one after the other, each to its end. *)
Fixpoint run_events (evs : list event) (w : world) : world :=
  match evs with
  | [] => w
  | ev :: evs => run_events evs (handle_event ev w).2
  end.

(** ** A page on which nothing fails and nothing is found *)

Definition quiet : page :=
  {| launch_fails := None; setup_fails := None; goto_fails := None;
     interact_fails := None; observed := [];
     has_video := inr false; dom_src := inr Null;
     cdp_fails := None; cdp_responses := []; late_responses := λ _, [];
     script_src := inr Null; cookies_fail := None; api_response := inr None;
     content := inr "<html></html>"; write_fails := None;
     screenshot_fails := None; close_fails := None |}.

(** The same attempt with other answers from the DOM evaluations. *)
Definition with_dom (hasVideo : exn + bool) (src : exn + value) (pg : page) : page :=
  {| launch_fails := launch_fails pg; setup_fails := setup_fails pg;
     goto_fails := goto_fails pg; interact_fails := interact_fails pg;
     observed := observed pg;
     has_video := hasVideo; dom_src := src;
     cdp_fails := cdp_fails pg; cdp_responses := cdp_responses pg;
     late_responses := late_responses pg;
     script_src := script_src pg; cookies_fail := cookies_fail pg;
     api_response := api_response pg;
     content := content pg; write_fails := write_fails pg;
     screenshot_fails := screenshot_fails pg; close_fails := close_fails pg |}.

(** The same attempt with another answer from the in-page script. *)
Definition with_script (src : exn + value) (pg : page) : page :=
  {| launch_fails := launch_fails pg; setup_fails := setup_fails pg;
     goto_fails := goto_fails pg; interact_fails := interact_fails pg;
     observed := observed pg;
     has_video := has_video pg; dom_src := dom_src pg;
     cdp_fails := cdp_fails pg; cdp_responses := cdp_responses pg;
     late_responses := late_responses pg;
     script_src := src; cookies_fail := cookies_fail pg;
     api_response := api_response pg;
     content := content pg; write_fails := write_fails pg;
     screenshot_fails := screenshot_fails pg; close_fails := close_fails pg |}.

(** The same attempt with other requests seen by the listener. *)
Definition with_observed (urls : list string) (pg : page) : page :=
  {| launch_fails := launch_fails pg; setup_fails := setup_fails pg;
     goto_fails := goto_fails pg; interact_fails := interact_fails pg;
     observed := urls;
     has_video := has_video pg; dom_src := dom_src pg;
     cdp_fails := cdp_fails pg; cdp_responses := cdp_responses pg;
     late_responses := late_responses pg;
     script_src := script_src pg; cookies_fail := cookies_fail pg;
     api_response := api_response pg;
     content := content pg; write_fails := write_fails pg;
     screenshot_fails := screenshot_fails pg; close_fails := close_fails pg |}.

(** ** The other handlers of the server *)

(** What [GET /api/stream/:sessionId] answers. *)
Inductive status_response : Type :=
| Streaming (status : string)                 (* {success: true, status} *)
| NoStream (status : nat) (error : string).   (* res.status(status).json({error}) *)

(** [GET /api/stream/:sessionId], lines 992-1003. *)
Definition stream_status (sessionId : string) : M status_response :=
  present ← table_has sessionId;
  if negb present then mret (NoStream 404 "直播会话不存在")
  else mret (Streaming "直播转播中").

(** The loop of the SIGTERM handler, lines 1067-1069:
    [for (const [sessionId] of activeLiveStreams.entries()) cleanupStream(sessionId)].
    A [Map] is iterated in insertion order, which the finite map does not
    record: [order] is that order, the keys of the table when the signal
    arrives. Deleting the entry being visited does not disturb the
    iteration. *)
Fixpoint cleanup_all (order : list string) : M unit :=
  match order with
  | [] => mret ()
  | sessionId :: rest => cleanupStream sessionId;; cleanup_all rest
  end.

(** What the [join-stream] handler emits on the socket. *)
Inductive socket_message : Type :=
| StreamReady (sessionId : string) (r : Result.t)   (* 'stream-ready', with the fields of [r] *)
| SocketError (message : string).                   (* 'error', {message} *)

(** The session id of line 1035: [`${Date.now()}-${socket.id}`]. *)
Definition socket_session_id (now : N) (socket_id : string) : string :=
  pretty now +:+ "-" +:+ socket_id.

(** [socket.on('join-stream', ...)], lines 1023-1049; [now] is what
    [Date.now()] reads once the discovery attempt is over. *)
Definition join_stream (h : host) (pg : page) (now : N) (socket_id : string)
    (url : option string) : M socket_message :=
  try_catch
    (if negb (Js.truthy url) then mret (SocketError "缺少抖音直播间URL")
     else
       streamUrl ← lift (extractLiveStreamUrl pg (default "" url));
       let sessionId := socket_session_id now socket_id in
       r ← processLiveStream h streamUrl sessionId;
       mret (StreamReady sessionId r))
    (λ error, mret (SocketError error)).

(** ** Inside the page: the values the evaluations read *)

(** A value of the page as the code reads it: [null] or [undefined]; a
    boolean or a number, of which only the truthiness is ever read; a
    string; a plain object with its own keys in enumeration order (an array
    is the object keyed by its indices). *)
#[warnings="-register-all"]
Inductive jsval : Type :=
| JNull
| JPrim (truthy : bool)
| JStr (s : string)
| JObj (fields : list (string * jsval)).

Module Dom.

(** Truthiness. *)
Definition truthy (v : jsval) : bool :=
  match v with
  | JNull => false
  | JPrim b => b
  | JStr s => negb (String.eqb s "")
  | JObj _ => true
  end.

(** [fields[key]] among own keys. *)
Fixpoint own (key : string) (fields : list (string * jsval)) : option jsval :=
  match fields with
  | [] => None
  | (k, v) :: rest => if String.eqb k key then Some v else own key rest
  end.

(** [v[key]]: [undefined] on a missing key and on a string, a number or a
    boolean. On [null] the code throws into a [catch] that goes on as it
    does for [undefined]. *)
Definition get (v : jsval) (key : string) : jsval :=
  match v with
  | JObj fields => default JNull (own key fields)
  | _ => JNull
  end.

(** [s.split('.')] *)
Fixpoint split_dots (s : string) : list string :=
  match s with
  | EmptyString => [EmptyString]
  | String c rest =>
      if Ascii.eqb c "." then EmptyString :: split_dots rest
      else match split_dots rest with
           | part :: parts => String c part :: parts
           | [] => [String c EmptyString]
           end
  end.

(** [s.replace(pattern, by)] for a string pattern: the first occurrence. *)
Fixpoint replace_first (s pattern by_ : string) : string :=
  if String.prefix pattern s then
    by_ +:+ String.substring (String.length pattern)
              (String.length s - String.length pattern) s
  else
    match s with
    | EmptyString => EmptyString
    | String c rest => String c (replace_first rest pattern by_)
    end.

(** The loop of [getDeepProperty], lines 433-440. *)
Fixpoint walk (current : jsval) (parts : list string) : jsval :=
  match parts with
  | [] => current
  | part :: rest =>
      match current with
      | JObj fields =>
          match own part fields with
          | Some v => walk v rest
          | None => JNull
          end
      | _ => JNull
      end
  end.

(** [getDeepProperty], lines 430-441. *)
Definition getDeepProperty (obj : jsval) (path : string) : jsval :=
  walk obj (split_dots path).

(** The first result of [f] along [l]: a loop that returns from inside. *)
Fixpoint first_of {A B} (f : A → option B) (l : list A) : option B :=
  match l with
  | [] => None
  | a :: rest =>
      match f a with
      | Some b => Some b
      | None => first_of f rest
      end
  end.

(** What the code reads of an element. *)
Record element : Type := {
  src : option string;
  dataset_src : option string;   (* element.dataset.src *)
  currentSrc : option string
}.

(** The page at the moment of the evaluation. *)
Record document : Type := {
  querySelectorAll : string → list element;
  window : jsval;            (* the global object *)
  scripts : list string      (* the textContent of every script element *)
}.

(** The double quote, as a one-character string. *)
Definition dquote : string := String (Ascii.ascii_of_nat 34) EmptyString.

(** Lines 391-406. *)
Definition videoSelectors : list string :=
  ["video"; ".video-player video"; ".webcast-video video";
   "[data-e2e=" +:+ dquote +:+ "webcast-video" +:+ dquote +:+ "] video";
   ".xg-video video"; ".xgplayer-video";
   ".video-player-v2 video"; ".player-container video"; ".live-player video";
   ".player-video video"; "video[preload]"; "video[autoplay]"; "video[src]";
   ".xgplayer"].

(** Lines 415-423: is there any element for any selector. *)
Definition hasVideo (doc : document) : bool :=
  existsb (λ selector, 0 <? length (querySelectorAll doc selector)) videoSelectors.

(** [v && !v.includes(marker)] *)
Definition usable (v : option string) : bool :=
  Js.truthy v && negb (Js.truthy_includes v decoy_marker).

(** Lines 447-457: the three reads of one element. *)
Definition element_url (el : element) : option string :=
  if usable (src el) then src el
  else if usable (dataset_src el) then dataset_src el
  else if usable (currentSrc el) then currentSrc el
  else None.

(** Lines 444-459: every selector in order, every element in order. *)
Definition scan_elements (doc : document) : option string :=
  first_of (λ selector, first_of element_url (querySelectorAll doc selector)) videoSelectors.

(** Lines 465-475. *)
Definition possiblePaths : list string :=
  ["videoInfo.url"; "videoData.url"; "playInfo.url"; "videoData.sourceUrl";
   "sourceInfo.source"; "stream.pull_url"; "stream.default_quality.main.play_url";
   "streamData.stream_url"; "video.play_url"].

(** Lines 477-482, for one path. *)
Definition config_path_url (config : jsval) (path : string) : option string :=
  match getDeepProperty config path with
  | JStr url =>
      if negb (String.eqb url "") && (Js.includes url "http" || Js.includes url "//") &&
         negb (Js.includes url decoy_marker)
      then Some url else None
  | _ => None
  end.

(** Lines 462-483: the player configuration. *)
Definition config_url (doc : document) : option string :=
  let xgplayerConfig :=
    if truthy (get (window doc) "__PLAYER_CONFIG__")
    then get (window doc) "__PLAYER_CONFIG__"
    else get (window doc) "__PLAYER_INITIAL_STATE__" in
  if truthy xgplayerConfig then first_of (config_path_url xgplayerConfig) possiblePaths
  else None.

(** Lines 486-492. *)
Definition globalVars : list string :=
  ["__INIT_PROPS__"; "__INITIAL_STATE__"; "window.LIVE_DATA"; "window.STREAM_CONFIG";
   "window.PAGE_DATA"].

(** Line 513. *)
Definition liveKeys : list string :=
  ["liveUrl"; "streamUrl"; "play_url"; "stream_url"; "flv_url"; "hls_url"].

(** Lines 496-500: the object a global name stands for. *)
Definition resolve (win : jsval) (varName : string) : jsval :=
  fold_left get (split_dots (replace_first varName "window." "")) win.

(** Lines 504-510: the room data, returned as it is found. *)
Definition room_info_url (obj : jsval) : option jsval :=
  let roomInfo := get obj "roomInfo" in
  if truthy roomInfo then
    if truthy (get roomInfo "room") && truthy (get (get roomInfo "room") "stream_url")
    then Some (get (get roomInfo "room") "stream_url")
    else if truthy (get roomInfo "liveUrl") then Some (get roomInfo "liveUrl")
    else if truthy (get roomInfo "streamUrl") then Some (get roomInfo "streamUrl")
    else None
  else None.

(** Lines 514-518, for one key. *)
Definition live_key_url (obj : jsval) (key : string) : option string :=
  match get obj key with
  | JStr v =>
      if negb (String.eqb v "") && negb (Js.includes v decoy_marker) then Some v else None
  | _ => None
  end.

(** [liveKeys.includes(p)] *)
Definition is_live_key (p : string) : bool := existsb (String.eqb p) liveKeys.

(** [findMediaUrl], lines 521-541. The result of a nested call is only
    returned when it is truthy. *)
Fixpoint findMediaUrl (object : jsval) (path : list string) : option string :=
  match object with
  | JObj fields =>
      (fix each (fs : list (string * jsval)) : option string :=
         match fs with
         | [] => None
         | (key, value) :: rest =>
             let currentPath := path ++ [key] in
             match value with
             | JStr v =>
                 if (Js.includes v ".m3u8" || Js.includes v ".flv" ||
                     existsb is_live_key currentPath) &&
                    negb (Js.includes v decoy_marker)
                 then Some v
                 else each rest
             | JObj _ =>
                 match findMediaUrl value currentPath with
                 | Some result =>
                     if negb (String.eqb result "") then Some result else each rest
                 | None => each rest
                 end
             | _ => each rest
             end
         end) fields
  | _ => None
  end.

(** Lines 494-549, for one global name. *)
Definition global_url (win : jsval) (varName : string) : option jsval :=
  match resolve win varName with
  | JObj fields =>
      let obj := JObj fields in
      match room_info_url obj with
      | Some v => Some v
      | None =>
          match first_of (live_key_url obj) liveKeys with
          | Some v => Some (JStr v)
          | None =>
              match findMediaUrl obj [] with
              | Some urlFromObject =>
                  if negb (String.eqb urlFromObject "") then Some (JStr urlFromObject)
                  else None
              | None => None
              end
          end
      end
  | _ => None
  end.

(** Lines 554-560, for one script; [literal content] is group 1 of the
    match of [content] against the regular expression of line 556, [None]
    without a match. *)
Definition script_url (literal : string → option string) (content : string)
  : option string :=
  if negb (String.eqb content "") &&
     (Js.includes content ".m3u8" || Js.includes content ".flv")
  then
    match literal content with
    | Some m => if usable (Some m) then Some m else None
    | None => None
    end
  else None.

(** The evaluation of lines 428-564. *)
Definition evaluate (literal : string → option string) (doc : document) : jsval :=
  match scan_elements doc with
  | Some url => JStr url
  | None =>
      match config_url doc with
      | Some url => JStr url
      | None =>
          match first_of (global_url (window doc)) globalVars with
          | Some v => v
          | None =>
              match first_of (script_url literal) (scripts doc) with
              | Some url => JStr url
              | None => JNull
              end
          end
      end
  end.

(** Lines 620-623: the vocabulary of media keys. *)
Definition mediaKeys : list string :=
  ["url"; "streamUrl"; "playUrl"; "videoUrl"; "m3u8"; "flv"; "hls"; "src"; "source";
   "media"; "stream_url"; "play_url"].

(** Lines 626-629: is [value] shaped like a media URL. *)
Definition url_shaped (value : string) : bool :=
  (Js.includes value "http" || String.prefix "//" value ||
   Js.includes value ".m3u8" || Js.includes value ".flv") &&
  negb (Js.includes value decoy_marker).

(** [findMediaUrls], lines 610-643: the [url] of every result, in order.
    [toLowerCase] is [String.prototype.toLowerCase]. *)
Fixpoint findMediaUrls (toLowerCase : string → string) (obj : jsval) : list string :=
  match obj with
  | JObj fields =>
      (fix each (fs : list (string * jsval)) : list string :=
         match fs with
         | [] => []
         | (key, value) :: rest =>
             let isMediaKey := existsb (Js.includes (toLowerCase key)) mediaKeys in
             match value with
             | JStr v =>
                 (if isMediaKey && url_shaped v
                  then [if String.prefix "//" v then "https:" +:+ v else v]
                  else []) ++ each rest
             | JObj _ => findMediaUrls toLowerCase value ++ each rest
             | _ => each rest
             end
         end) fields
  | _ => []
  end.

End Dom.

(** ** The client: [src/client/src/App.js] *)

Module Client.

(** Lines 116-132 of [startStream]: the address the client sends, or [None]
    when it shows a message and sends nothing. *)
Definition request_url (url : string) : option string :=
  if String.eqb url "" then None
  else if negb (Js.includes url "douyin.com") && negb (Js.includes url "tiktok.com") then
    let url := if negb (Js.includes url "http") then "https://" +:+ url else url in
    if negb (Js.includes url "/live/") then None else Some url
  else Some url.

(** Lines 53-54 and 144-145: is the stream the placeholder. *)
Definition isTestUrl (streamUrl : option string) : bool :=
  Js.truthy_includes streamUrl decoy_marker.

(** The two values of the source selector. *)
Inductive source : Type := Original | Transcoded.

(** The state of the component that the handlers below read and write. *)
Record state : Type := {
  loading : bool;
  originalStreamUrl : string;
  transcodedStreamUrl : string;
  activeStreamUrl : string;
  sessionId : string;
  streamSource : source;
  playbackError : bool;
  ffmpegAvailable : bool;
  ffmpegHelpVisible : bool;
  serverError : string;
  isTestVideo : bool
}.

(** Lines 19-31: the initial state. *)
Definition initial : state :=
  {| loading := false; originalStreamUrl := ""; transcodedStreamUrl := "";
     activeStreamUrl := ""; sessionId := ""; streamSource := Original;
     playbackError := false; ffmpegAvailable := true; ffmpegHelpVisible := false;
     serverError := ""; isTestVideo := false |}.

(** What the server sends on success, over the socket or as the REST reply. *)
Record stream_data : Type := {
  data_streamUrl : string;
  data_transcodedUrl : option string;
  data_sessionId : string;
  data_ffmpegAvailable : bool;
  data_error : option string
}.

(** [startStream] up to the request, lines 110-133: the reset of lines
    111-114, and [loading] stays set only when a request goes out. *)
Definition start_request (url : string) (s : state) : state :=
  {| loading := bool_decide (is_Some (request_url url));
     originalStreamUrl := originalStreamUrl s;
     transcodedStreamUrl := transcodedStreamUrl s; activeStreamUrl := activeStreamUrl s;
     sessionId := sessionId s; streamSource := streamSource s;
     playbackError := false; ffmpegAvailable := ffmpegAvailable s;
     ffmpegHelpVisible := ffmpegHelpVisible s;
     serverError := ""; isTestVideo := false |}.

(** The ['stream-ready'] handler of the socket, lines 48-90. Both branches
    of the test on [ffmpegAvailable] play the original stream. *)
Definition stream_ready (data : stream_data) (s : state) : state :=
  {| loading := false;
     originalStreamUrl := data_streamUrl data;
     transcodedStreamUrl := default "" (data_transcodedUrl data);
     activeStreamUrl := data_streamUrl data;
     sessionId := data_sessionId data;
     streamSource := Original;
     playbackError := false;
     ffmpegAvailable := data_ffmpegAvailable data;
     ffmpegHelpVisible :=
       if negb (data_ffmpegAvailable data) then true else ffmpegHelpVisible s;
     serverError := default "" (data_error data);
     isTestVideo := isTestUrl (Some (data_streamUrl data)) |}.

(** The successful REST reply, lines 142-186: as the socket handler, but
    [playbackError] is left as it is. *)
Definition rest_success (data : stream_data) (s : state) : state :=
  {| loading := false;
     originalStreamUrl := data_streamUrl data;
     transcodedStreamUrl := default "" (data_transcodedUrl data);
     activeStreamUrl := data_streamUrl data;
     sessionId := data_sessionId data;
     streamSource := Original;
     playbackError := playbackError s;
     ffmpegAvailable := data_ffmpegAvailable data;
     ffmpegHelpVisible :=
       if negb (data_ffmpegAvailable data) then true else ffmpegHelpVisible s;
     serverError := default "" (data_error data);
     isTestVideo := isTestUrl (Some (data_streamUrl data)) |}.

(** A start that fails: the ['error'] message of the socket (lines 92-95),
    a REST reply without [success] (lines 182-186), a rejected request
    (lines 187-190). *)
Definition start_failed (s : state) : state :=
  {| loading := false; originalStreamUrl := originalStreamUrl s;
     transcodedStreamUrl := transcodedStreamUrl s; activeStreamUrl := activeStreamUrl s;
     sessionId := sessionId s; streamSource := streamSource s;
     playbackError := playbackError s; ffmpegAvailable := ffmpegAvailable s;
     ffmpegHelpVisible := ffmpegHelpVisible s;
     serverError := serverError s; isTestVideo := isTestVideo s |}.

(** [handleSourceChange], lines 201-218. *)
Definition handleSourceChange (value : source) (s : state) : state :=
  match value with
  | Transcoded =>
      if negb (ffmpegAvailable s) then s
      else
        {| loading := loading s; originalStreamUrl := originalStreamUrl s;
           transcodedStreamUrl := transcodedStreamUrl s;
           activeStreamUrl :=
             if negb (String.eqb (transcodedStreamUrl s) "") then transcodedStreamUrl s
             else activeStreamUrl s;
           sessionId := sessionId s; streamSource := Transcoded;
           playbackError := playbackError s; ffmpegAvailable := ffmpegAvailable s;
           ffmpegHelpVisible := ffmpegHelpVisible s;
           serverError := serverError s; isTestVideo := isTestVideo s |}
  | Original =>
      {| loading := loading s; originalStreamUrl := originalStreamUrl s;
         transcodedStreamUrl := transcodedStreamUrl s;
         activeStreamUrl :=
           if negb (String.eqb (originalStreamUrl s) "") then originalStreamUrl s
           else activeStreamUrl s;
         sessionId := sessionId s; streamSource := Original;
         playbackError := playbackError s; ffmpegAvailable := ffmpegAvailable s;
         ffmpegHelpVisible := ffmpegHelpVisible s;
         serverError := serverError s; isTestVideo := isTestVideo s |}
  end.

(** [handlePlayerError], lines 225-239. *)
Definition handlePlayerError (s : state) : state :=
  match streamSource s with
  | Original =>
      if negb (String.eqb (transcodedStreamUrl s) "") && ffmpegAvailable s then
        {| loading := loading s; originalStreamUrl := originalStreamUrl s;
           transcodedStreamUrl := transcodedStreamUrl s;
           activeStreamUrl := transcodedStreamUrl s;
           sessionId := sessionId s; streamSource := Transcoded;
           playbackError := false; ffmpegAvailable := ffmpegAvailable s;
           ffmpegHelpVisible := ffmpegHelpVisible s;
           serverError := serverError s; isTestVideo := isTestVideo s |}
      else
        {| loading := loading s; originalStreamUrl := originalStreamUrl s;
           transcodedStreamUrl := transcodedStreamUrl s;
           activeStreamUrl := activeStreamUrl s;
           sessionId := sessionId s; streamSource := streamSource s;
           playbackError := true; ffmpegAvailable := ffmpegAvailable s;
           ffmpegHelpVisible := ffmpegHelpVisible s;
           serverError := serverError s; isTestVideo := isTestVideo s |}
  | Transcoded =>
      {| loading := loading s; originalStreamUrl := originalStreamUrl s;
         transcodedStreamUrl := transcodedStreamUrl s;
         activeStreamUrl := activeStreamUrl s;
         sessionId := sessionId s; streamSource := streamSource s;
         playbackError := true; ffmpegAvailable := ffmpegAvailable s;
         ffmpegHelpVisible := ffmpegHelpVisible s;
         serverError := serverError s; isTestVideo := isTestVideo s |}
  end.

(** [stopStream], lines 244-268; [stopped] tells whether the server answered
    the stop request with success. Without a session id nothing is sent. *)
Definition stopStream (stopped : bool) (s : state) : state :=
  if String.eqb (sessionId s) "" then
    {| loading := loading s; originalStreamUrl := ""; transcodedStreamUrl := "";
       activeStreamUrl := ""; sessionId := sessionId s; streamSource := streamSource s;
       playbackError := playbackError s; ffmpegAvailable := ffmpegAvailable s;
       ffmpegHelpVisible := ffmpegHelpVisible s;
       serverError := serverError s; isTestVideo := isTestVideo s |}
  else if stopped then
    {| loading := loading s; originalStreamUrl := ""; transcodedStreamUrl := "";
       activeStreamUrl := ""; sessionId := ""; streamSource := streamSource s;
       playbackError := false; ffmpegAvailable := ffmpegAvailable s;
       ffmpegHelpVisible := ffmpegHelpVisible s;
       serverError := ""; isTestVideo := false |}
  else s.

(** What happens to the component. *)
Inductive event : Type :=
| StartRequest (url : string)
| StreamReady (data : stream_data)
| RestSuccess (data : stream_data)
| StartFailed
| SourceChange (value : source)
| PlayerError
| Stop (stopped : bool)
| CloseFFmpegHelp.

(** [handleCloseFFmpegHelp], lines 273-275. *)
Definition handleCloseFFmpegHelp (s : state) : state :=
  {| loading := loading s; originalStreamUrl := originalStreamUrl s;
     transcodedStreamUrl := transcodedStreamUrl s; activeStreamUrl := activeStreamUrl s;
     sessionId := sessionId s; streamSource := streamSource s;
     playbackError := playbackError s; ffmpegAvailable := ffmpegAvailable s;
     ffmpegHelpVisible := false;
     serverError := serverError s; isTestVideo := isTestVideo s |}.

Definition step (s : state) (ev : event) : state :=
  match ev with
  | StartRequest url => start_request url s
  | StreamReady data => stream_ready data s
  | RestSuccess data => rest_success data s
  | StartFailed => start_failed s
  | SourceChange value => handleSourceChange value s
  | PlayerError => handlePlayerError s
  | Stop stopped => stopStream stopped s
  | CloseFFmpegHelp => handleCloseFFmpegHelp s
  end.

(** The component after a sequence of events, from its initial state. *)
Definition run (evs : list event) : state := fold_left step evs initial.

End Client.

(** ** The component against the server *)

(** The fields of a successful answer (lines 977-984 and 1041-1047 of the
    server) as the component reads them. The component is modelled for
    answers whose [streamUrl] is a string; there is no data for another
    answer. *)
Definition reply_data (sessionId : string) (r : Result.t) : option Client.stream_data :=
  match Result.originalUrl r with
  | Str streamUrl =>
      Some {| Client.data_streamUrl := streamUrl;
              Client.data_transcodedUrl := Result.transcodedUrl r;
              Client.data_sessionId := sessionId;
              Client.data_ffmpegAvailable := Result.ffmpegAvailable r;
              Client.data_error := Result.error r |}
  | _ => None
  end.

(** [stopStream] of the component run against the server: the request of
    line 254 is rejected by axios on a status outside 2xx. *)
Definition client_stop (s : Client.state) : M Client.state :=
  if String.eqb (Client.sessionId s) "" then mret (Client.stopStream false s)
  else
    answer ← stop_stream (Client.sessionId s);
    mret (Client.stopStream (match answer with Stopped _ => true | _ => false end) s).

(** * Vocabulary of the statements

    Sample pages, hosts and server states, and the predicates the theorems
    below are stated with. *)

(** Every effect of [m] satisfies [P]. *)
Definition leaves (P : effect → Prop) {A} (m : E A) : Prop := Forall P m.2.

(** An effect other than launching and closing the browser. *)
Definition inside (ef : effect) : Prop := ef ≠ Launch ∧ ef ≠ Close.

(** The requests that end in the high-confidence bucket. *)
Definition live_request (url : string) : bool :=
  media_like url && negb (is_decoy url) && stream_ext url.

(** The requests that end in the low-confidence bucket. *)
Definition media_request (url : string) : bool :=
  media_like url && negb (is_decoy url) && negb (stream_ext url).

(** Nothing fails up to DOM extraction, and [browser.close()] resolves. *)
Record cooperative (pg : page) : Prop := {
  launch_ok : launch_fails pg = None;
  setup_ok : setup_fails pg = None;
  goto_ok : goto_fails pg = None;
  interact_ok : interact_fails pg = None;
  close_ok : close_fails pg = None
}.

Definition passthrough (streamUrl : value) : Result.t :=
  {| Result.originalUrl := streamUrl; Result.transcodedUrl := None;
     Result.ffmpegAvailable := false; Result.error := None |}.

Definition failed (streamUrl : value) (e : exn) : Result.t :=
  {| Result.originalUrl := streamUrl; Result.transcodedUrl := None;
     Result.ffmpegAvailable := false; Result.error := Some e |}.

(** A server that has just started: no session, no output directory. *)
Definition fresh_world : world :=
  {| activeLiveStreams := ∅; listeners := ∅; next_handle := 0;
     streams_dir := false; trace := [] |}.

(** A POSIX host on which ffmpeg is installed and nothing fails. *)
Definition sound_host : host :=
  {| ffmpegAvailable := true; PORT := "3001"; dirname := "/srv/app";
     path_join := Path.join;
     mkdir_fails := None; ffmpeg_fails := None; run_fails := None |}.

(** A host without ffmpeg. *)
Definition bare_host : host :=
  {| ffmpegAvailable := false; PORT := "3001"; dirname := "/srv/app";
     path_join := Path.join;
     mkdir_fails := None; ffmpeg_fails := None; run_fails := None |}.

(** A host on which ffmpeg is installed but the output directory cannot be
    created. *)
Definition readonly_host : host :=
  {| ffmpegAvailable := true; PORT := "3001"; dirname := "/srv/app";
     path_join := Path.join;
     mkdir_fails := Some "EACCES: permission denied, mkdir '/srv/app/public/streams'";
     ffmpeg_fails := None; run_fails := None |}.

Definition stopped : response := Stopped "已停止直播转播".
Definition no_session : response := Refused 404 "直播会话不存在".

(** The state [cleanupStream] leaves when the session is registered. *)
Definition cleaned (sessionId : string) (p : handle) (w : world) : world :=
  {| activeLiveStreams := delete sessionId (activeLiveStreams w);
     listeners := listeners w; next_handle := next_handle w;
     streams_dir := streams_dir w;
     trace := trace w ++ [Kill p "SIGTERM"; TableDelete sessionId] |}.

(** A server with one session, [1700000000000], run by process [0]. *)
Definition one_session : world :=
  (processLiveStream sound_host (Str "https://pull.example.com/a.flv") "1700000000000"
     fresh_world).2.

(** Right after a start: two stop requests, then both callbacks of the
    process. *)
Definition two_stops_then_callbacks : list event :=
  [StopRequest "1700000000000"; StopRequest "1700000000000";
   ProcessError 0; ProcessEnd 0].

(** The invariant of the server state: a process stored under an id is one
    whose callbacks closed over that id, and it was created before the next
    command object will be. *)
Definition well_formed (w : world) : Prop :=
  ∀ sessionId p, activeLiveStreams w !! sessionId = Some p →
    listeners w !! p = Some sessionId ∧ p < next_handle w.

(** The events of one session: a stop request for its id, and the two
    callbacks of its process. *)
Definition own_event (sessionId : string) (p : handle) (ev : event) : Prop :=
  ev = StopRequest sessionId ∨ ev = ProcessError p ∨ ev = ProcessEnd p.

(** The session an event asks to clean up: the id in the request, or the id
    the callbacks of the process closed over. *)
Definition cleanup_target (ls : gmap handle string) (ev : event) : option string :=
  match ev with
  | StopRequest sessionId => Some sessionId
  | ProcessError p => ls !! p
  | ProcessEnd p => ls !! p
  end.

(** How often SIGTERM was sent to [p], and how often the entry of
    [sessionId] was deleted. *)
Definition kills (p : handle) (w : world) : nat :=
  count_occ effect_eq_dec (trace w) (Kill p "SIGTERM").

Definition deletions (sessionId : string) (w : world) : nat :=
  count_occ effect_eq_dec (trace w) (TableDelete sessionId).

(** Truthy and answering [true] to [includes(marker)]: a non-empty string
    that contains the marker, or an array with the marker among its
    elements. *)
Definition decoy_marked (v : value) : bool :=
  Value.truthy v && Value.includes v decoy_marker.





(** What the [finally] makes of the outcome of the [try]. *)
Definition closing (pg : page) (r : outcome value) : outcome value :=
  match close_fails pg with
  | Some e => Throw e
  | None => r
  end.

(** What [streamUrl] holds at line 811, when it held [v] at line 801: the
    callbacks that complete during the two awaits in between have assigned
    it. *)
Definition after_diagnostics (pg : page) (listening : bool) (v : value) : value :=
  arrive listening (late_responses pg AtScreenshot)
    (arrive listening (late_responses pg AtContent) v).

(** What a discovery attempt can do: drive the browser and write the
    diagnostics. *)
Definition browsing (ef : effect) : Prop :=
  match ef with
  | Launch | Goto _ | Fetch _ | WriteFile _ _ | Screenshot _ | Close => True
  | _ => False
  end.

(** The two debugging artefacts of lines 803-808. *)
Definition is_diagnostic (ef : effect) : bool :=
  match ef with
  | WriteFile _ _ => true
  | Screenshot _ => true
  | _ => false
  end.

Definition diagnosed (t : list effect) : Prop := Exists (λ ef, is_diagnostic ef = true) t.

Definition undiagnosed (ef : effect) : Prop := is_diagnostic ef = false.

(** The placeholder the site serves, as the in-page script builds it from
    the artwork of the media session (lines 720-731). *)
Definition decoy_url : string :=
  "https://cdn.example.com/douyin-pc-web/uuu_265/stream.m3u8".


(** A page whose room data, read by DOM extraction, names the placeholder. *)
Definition decoy_in_dom : page := with_dom (inr true) (inr (Str decoy_url)) quiet.

(** The same attempt with other answers from the cookie jar and the backend. *)
Definition with_api (cookies : option exn) (response : exn + option room) (pg : page) : page :=
  {| launch_fails := launch_fails pg; setup_fails := setup_fails pg;
     goto_fails := goto_fails pg; interact_fails := interact_fails pg;
     observed := observed pg;
     has_video := has_video pg; dom_src := dom_src pg;
     cdp_fails := cdp_fails pg; cdp_responses := cdp_responses pg;
     late_responses := late_responses pg;
     script_src := script_src pg; cookies_fail := cookies;
     api_response := response;
     content := content pg; write_fails := write_fails pg;
     screenshot_fails := screenshot_fails pg; close_fails := close_fails pg |}.

(** The same attempt with another outcome for the CDP session. *)
Definition with_cdp (fails : option exn) (responses : list (list string)) (pg : page) : page :=
  {| launch_fails := launch_fails pg; setup_fails := setup_fails pg;
     goto_fails := goto_fails pg; interact_fails := interact_fails pg;
     observed := observed pg;
     has_video := has_video pg; dom_src := dom_src pg;
     cdp_fails := fails; cdp_responses := responses;
     late_responses := late_responses pg;
     script_src := script_src pg; cookies_fail := cookies_fail pg;
     api_response := api_response pg;
     content := content pg; write_fails := write_fails pg;
     screenshot_fails := screenshot_fails pg; close_fails := close_fails pg |}.

(** The same attempt with a navigation that fails. *)
Definition with_goto (fails : option exn) (pg : page) : page :=
  {| launch_fails := launch_fails pg; setup_fails := setup_fails pg;
     goto_fails := fails; interact_fails := interact_fails pg;
     observed := observed pg;
     has_video := has_video pg; dom_src := dom_src pg;
     cdp_fails := cdp_fails pg; cdp_responses := cdp_responses pg;
     late_responses := late_responses pg;
     script_src := script_src pg; cookies_fail := cookies_fail pg;
     api_response := api_response pg;
     content := content pg; write_fails := write_fails pg;
     screenshot_fails := screenshot_fails pg; close_fails := close_fails pg |}.




(** The URLs of a response that do not carry the decoy marker, in order. *)
Definition undecoyed (urls : list string) : list string :=
  filter (λ url, is_decoy url = false) urls.

(** Neither [/] nor [?] occurs in [s]. *)
Definition one_segment (s : string) : Prop :=
  Js.includes s "/" = false ∧ Js.includes s "?" = false.

(** A server with two sessions: [1700000000000] run by process [0] and
    [1700000000001] run by process [1]. *)
Definition two_sessions : world :=
  (processLiveStream sound_host (Str "https://pull.example.com/b.flv") "1700000000001"
     one_session).2.

(** Every character of [s] is a decimal digit. *)
Fixpoint digits (s : string) : bool :=
  match s with
  | EmptyString => true
  | String c rest => (Nat.leb 48 (Ascii.nat_of_ascii c) && Nat.leb (Ascii.nat_of_ascii c) 57) && digits rest
  end.

(** The answers of the status handler. *)
Definition streaming : status_response := Streaming "直播转播中".
Definition no_stream : status_response := NoStream 404 "直播会话不存在".

(** The fixed answer of the REST start handler to any failure. *)
Definition cannot_connect : response := Refused 500 "无法连接到抖音直播间".

(** The strings that occur as values anywhere in [v], in enumeration order. *)
Fixpoint string_leaves (v : jsval) : list string :=
  match v with
  | JStr s => [s]
  | JObj fields =>
      (fix each (fs : list (string * jsval)) : list string :=
         match fs with
         | [] => []
         | (_, x) :: rest => string_leaves x ++ each rest
         end) fields
  | _ => []
  end.

(** A non-empty string without the decoy marker. *)
Definition real_url (u : string) : Prop := u ≠ "" ∧ is_decoy u = false.

(** A page with one [video] element that plays the placeholder, and room
    data in [__INIT_PROPS__] that names the placeholder too. *)
Definition placeholder_document : Dom.document :=
  {| Dom.querySelectorAll := λ selector,
       if String.eqb selector "video"
       then [{| Dom.src := Some "https://cdn.example.com/douyin-pc-web/uuu_265.mp4";
                Dom.dataset_src := None; Dom.currentSrc := None |}]
       else [];
     Dom.window :=
       JObj [("__INIT_PROPS__",
              JObj [("roomInfo", JObj [("liveUrl", JStr decoy_url)])])];
     Dom.scripts := [] |}.

(** A page without room data: a player configuration and a global with a
    nested playlist. *)
Definition plain_document : Dom.document :=
  {| Dom.querySelectorAll := λ selector,
       if String.eqb selector ".xgplayer"
       then [{| Dom.src := None; Dom.dataset_src := None; Dom.currentSrc := None |}]
       else [];
     Dom.window :=
       JObj [("__PLAYER_CONFIG__", JObj [("videoInfo", JObj [("url", JStr decoy_url)])]);
             ("LIVE_DATA",
              JObj [("rooms", JObj [("0", JObj [("id", JPrim true);
                                                ("hls", JStr "https://pull.example.com/a.m3u8")])])])];
     Dom.scripts := [] |}.

(** The address of the selected source. *)
Definition selected_url (s : Client.state) : string :=
  match Client.streamSource s with
  | Client.Original => Client.originalStreamUrl s
  | Client.Transcoded => Client.transcodedStreamUrl s
  end.

(** The player and the selector agree: what plays is one of the two
    addresses; it is the selected one whenever that one is known; and
    without FFmpeg it is the original one, with the selector on it. *)
Definition consistent (s : Client.state) : Prop :=
  (Client.activeStreamUrl s = Client.originalStreamUrl s ∨
   Client.activeStreamUrl s = Client.transcodedStreamUrl s) ∧
  (selected_url s = "" ∨ Client.activeStreamUrl s = selected_url s) ∧
  (Client.ffmpegAvailable s = true ∨
   (Client.streamSource s = Client.Original ∧
    Client.activeStreamUrl s = Client.originalStreamUrl s)).

(** A page whose [video] element plays a real stream. *)
Definition flv_page : page :=
  with_dom (inr true) (inr (Str "https://pull.example.com/a.flv")) quiet.

(** A page whose second [video] element has an address in its data
    attribute. *)
Definition video_document : Dom.document :=
  {| Dom.querySelectorAll := λ selector,
       if String.eqb selector "video[autoplay]"
       then [{| Dom.src := Some ""; Dom.dataset_src := None; Dom.currentSrc := None |};
             {| Dom.src := None; Dom.dataset_src := Some "https://pull.example.com/a.flv";
                Dom.currentSrc := None |}]
       else [];
     Dom.window := JNull;
     Dom.scripts := [] |}.

(** * Properties *)

Example includes_ex1 : Js.includes "https://live.douyin.com/123" "douyin.com" = true.
Proof. reflexivity. Qed.

Example includes_ex2 : Js.includes "live/abc" "/live/" = false.
Proof. reflexivity. Qed.

Example is_decoy_ex1 : is_decoy "https://cdn.example.com/douyin-pc-web/uuu_123.mp4" = true.
Proof. reflexivity. Qed.

Example is_decoy_ex2 : is_decoy "https://pull-hls.example.com/stream/abc.m3u8" = false.
Proof. reflexivity. Qed.

Example room_id_ex : room_id "https://live.douyin.com/live/555?from=web" = Some "555".
Proof. reflexivity. Qed.

Example sort_by_score_ex :
  sort_by_score ["a.mp4"; "b.flv"; "c.mp4"; "d.m3u8"] = ["b.flv"; "d.m3u8"; "a.mp4"; "c.mp4"].
Proof. reflexivity. Qed.

Example path_join_ex1 : Path.join ["/srv/app"; "public"; "streams"] = "/srv/app/public/streams".
Proof. reflexivity. Qed.

Example path_join_ex2 :
  Path.join ["/srv/app/"; "../public"; "./streams/"] = "/srv/public/streams/".
Proof. reflexivity. Qed.

Example path_join_ex3 : Path.join ["a"; ".."; ".."; "b"] = "../b".
Proof. reflexivity. Qed.

Example path_join_ex4 : Path.join [""; ""] = ".".
Proof. reflexivity. Qed.

(** Room data that is an object, handed back by DOM extraction, ends the
    attempt at line 571. *)
Example object_from_dom :
  extractLiveStreamUrl (with_dom (inr true) (inr Other) quiet) "https://live.douyin.com/265" =
    (Throw "TypeError: streamUrl.includes is not a function",
     [Launch; Goto "https://live.douyin.com/265"; Close]).
Proof. reflexivity. Qed.

(** Room data that is an array is the result of the attempt. *)
Example array_from_dom :
  extractLiveStreamUrl
    (with_dom (inr true) (inr (Arr [Some "https://pull.example.com/a.flv"])) quiet)
    "https://live.douyin.com/265" =
    (Return (Arr [Some "https://pull.example.com/a.flv"]),
     [Launch; Goto "https://live.douyin.com/265"; Close]).
Proof. reflexivity. Qed.

(** An object in the reply of the backend ends the attempt at line 801. *)
Example object_from_backend :
  extractLiveStreamUrl
    (with_api None (inr (Some {| flv_url := Other; hls_url := Null |})) quiet)
    "https://live.douyin.com/live/265" =
    (Throw "TypeError: streamUrl.includes is not a function",
     [Launch; Goto "https://live.douyin.com/live/265";
      Fetch "https://webcast.amemv.com/webcast/room/reflow/info/?live_id=265&room_id=265";
      Close]).
Proof. reflexivity. Qed.

(** ** Substrings *)

Section Includes.

(** stdpp keeps [simpl] from unfolding string concatenation. *)
Local Ltac push_app := unfold String.append in *; fold String.append in *.

Lemma prefix_app (needle hay : string) :
  String.prefix needle hay = true ↔ ∃ rest, hay = needle +:+ rest.
Proof.
  revert needle. induction hay as [|d hay IH]; intros [|c needle]; simpl.
  - split; [intros _; by exists "" | reflexivity].
  - split; [discriminate | intros [rest Hrest]; discriminate].
  - split; [intros _; by exists (String d hay) | reflexivity].
  - destruct (ascii_dec c d) as [->|Hne].
    + rewrite IH. split; intros [rest Hrest]; exists rest; push_app; congruence.
    + split; [discriminate | intros [rest Hrest]; push_app; congruence].
Qed.

Lemma includes_nil needle : Js.includes "" needle = String.prefix needle "".
Proof. unfold Js.includes. apply orb_false_r. Qed.
Lemma includes_cons c hay needle : Js.includes (String c hay) needle = String.prefix needle (String c hay) || Js.includes hay needle.
Proof. reflexivity. Qed.
Lemma includes_spec (hay needle : string) :
  Js.includes hay needle = true ↔ ∃ before after, hay = before +:+ needle +:+ after.
Proof.
  induction hay as [|c hay IH].
  - rewrite includes_nil, prefix_app. split.
    + intros [rest Hrest]. by exists "", rest.
    + intros (before & after & Heq). destruct before; push_app.
      * by exists after.
      * discriminate.
  - rewrite includes_cons, orb_true_iff, prefix_app, IH. split.
    + intros [[rest Hrest] | (before & after & Heq)].
      * by exists "", rest.
      * exists (String c before), after. push_app. by rewrite Heq.
    + intros (before & after & Heq). destruct before as [|d before]; push_app.
      * left. by exists after.
      * right. exists before, after. congruence.
Qed.

Lemma includes_live_after_scheme (url : string) :
  Js.includes ("https://" +:+ url) "/live/" =
  String.prefix "live/" url || Js.includes url "/live/".
Proof. reflexivity. Qed.
End Includes.

(** ** Address validation *)

Section Validation.

Variable pg : page.

(** An address that mentions a recognised domain is never rejected by the
    check. *)
Lemma validate_recognised (url : string) :
  Js.includes url "douyin.com" = true ∨ Js.includes url "tiktok.com" = true →
  validate url = (Return url, []).
Proof. unfold validate. by intros [-> | ->]; rewrite ?andb_false_r. Qed.

(** What the check answers for an address without a recognised domain. *)
Lemma validate_unrecognised (url : string) :
  Js.includes url "douyin.com" = false →
  Js.includes url "tiktok.com" = false →
  validate url =
    if Js.includes url "http" then
      if Js.includes url "/live/" then (Return url, []) else (Throw invalid_address, [])
    else
      if String.prefix "live/" url || Js.includes url "/live/"
      then (Return ("https://" +:+ url), [])
      else (Throw invalid_address, []).
Proof.
  intros Hd Ht. unfold validate. rewrite Hd, Ht. cbn [negb andb].
  destruct (Js.includes url "http"); cbn [negb].
  - by destruct (Js.includes url "/live/").
  - rewrite includes_live_after_scheme.
    by destruct (String.prefix "live/" url || Js.includes url "/live/").
Qed.

(** A rejected address ends the attempt before anything is launched. *)
Lemma rejected_before_launch (url : string) :
  validate url = (Throw invalid_address, []) →
  extractLiveStreamUrl pg url = (Throw invalid_address, []).
Proof. intros H. unfold extractLiveStreamUrl. by rewrite H. Qed.

End Validation.

(** C4, as stated, fails: the address [live/abc] contains neither a
    recognised domain nor the segment [/live/], yet the scheme prepended by
    the normalisation creates that segment ([https://live/abc]), the check
    passes and a browser is launched. *)
Lemma scheme_prefix_passes_validation :
  ¬ (∀ (pg : page) (url : string),
       Js.includes url "douyin.com" = false →
       Js.includes url "tiktok.com" = false →
       Js.includes url "/live/" = false →
       extractLiveStreamUrl pg url = (Throw invalid_address, [])).
Proof.
  intros H.
  specialize (H quiet "live/abc" eq_refl eq_refl eq_refl).
  vm_compute in H. discriminate H.
Qed.

(** The attempt on [live/abc], step by step. *)
Example live_abc_is_launched :
  (extractLiveStreamUrl quiet "live/abc").2 =
    [Launch; Goto "https://live/abc";
     Fetch "https://webcast.amemv.com/webcast/room/reflow/info/?live_id=abc&room_id=abc";
     WriteFile "debug-page-content.html" "<html></html>";
     Screenshot "debug-screenshot.png"; Close].
Proof. vm_compute. reflexivity. Qed.

(** C4, amended: an address that contains neither a recognised domain nor
    the segment [/live/], the latter judged on the address as normalised
    (an address without [http] gets [https://] prepended, which completes
    the segment for an address that begins with [live/]), is rejected with
    the invalid-address error before any browser is launched: the trace of
    the attempt is empty. *)
Theorem invalid_address_fails_before_launch (pg : page) (url : string) :
  Js.includes url "douyin.com" = false →
  Js.includes url "tiktok.com" = false →
  Js.includes url "/live/" = false →
  String.prefix "live/" url = false ∨ Js.includes url "http" = true →
  extractLiveStreamUrl pg url = (Throw invalid_address, []).
Proof.
  intros Hd Ht Hl Hp. apply rejected_before_launch.
  rewrite validate_unrecognised by done. rewrite Hl.
  destruct Hp as [-> | ->]; [| done].
  by destruct (Js.includes url "http").
Qed.

Lemma invalid_address_fails_before_launch_witness :
  extractLiveStreamUrl quiet "example.com/room/1" = (Throw invalid_address, []).
Proof.
  apply (invalid_address_fails_before_launch quiet "example.com/room/1");
    [reflexivity | reflexivity | reflexivity | left; reflexivity].
Defined.

(** ** What a piece of browser code leaves in the trace *)

Section Traces.

Variable P : effect → Prop.

Lemma leaves_ret {A} (a : A) : leaves P (mret a).
Proof. constructor. Qed.

Lemma leaves_throw {A} (e : exn) : leaves P (@Browser.throw A e).
Proof. constructor. Qed.

Lemma leaves_emit (ef : effect) : P ef → leaves P (Browser.emit ef).
Proof. intros H. by repeat constructor. Qed.

Lemma leaves_await (rejects : option exn) : leaves P (Browser.await rejects).
Proof. destruct rejects; constructor. Qed.

Lemma leaves_await_val {A} (p : exn + A) : leaves P (Browser.await_val p).
Proof. destruct p; constructor. Qed.

Lemma leaves_bind {A B} (m : E A) (f : A → E B) :
  leaves P m → (∀ a, leaves P (f a)) → leaves P (m ≫= f).
Proof.
  unfold leaves, mbind, E_bind. intros Hm Hf.
  destruct m as [[a|e] t]; simpl in *; [|done].
  specialize (Hf a). destruct (f a) as [r t']. simpl in *.
  by apply Forall_app.
Qed.

Lemma leaves_try_catch {A} (body : E A) (handler : exn → E A) :
  leaves P body → (∀ e, leaves P (handler e)) → leaves P (Browser.try_catch body handler).
Proof.
  unfold leaves, Browser.try_catch. intros Hb Hh.
  destruct body as [[a|e] t]; simpl in *; [done|].
  specialize (Hh e). destruct (handler e) as [r t']. simpl in *.
  by apply Forall_app.
Qed.

End Traces.


(** Closes goals of the form [leaves P m] by following the shape of [m]. *)
Ltac follow_trace :=
  repeat first
    [ apply leaves_ret | apply leaves_throw | apply leaves_await
    | apply leaves_await_val
    | apply leaves_emit; done
    | apply leaves_bind; [| intros ?]
    | apply leaves_try_catch; [| intros ?]
    | match goal with
      | |- leaves _ (if ?b then _ else _) => destruct b
      | |- leaves _ (match ?x with _ => _ end) => destruct x
      end ].

Section Browser_lifetime.

Variable pg : page.

Lemma validate_trace (url : string) : (validate url).2 = [].
Proof.
  unfold validate.
  repeat match goal with |- context [if ?b then _ else _] => destruct b end;
    reflexivity.
Qed.

(** The body of the [try] neither launches nor closes a browser. *)
Lemma discover_inside (url : string) : leaves inside (discover pg url).
Proof.
  unfold discover, strategies, later_stages, dom_stage, network_stage, script_stage,
    api_stage, finish, accepted, still_missing, holds_decoy, includes.
  follow_trace.
Qed.

End Browser_lifetime.

(** C5: an attempt either launches nothing (its trace is empty: the address
    was rejected or the launch itself failed) or its trace is [Launch],
    then effects that neither launch nor close a browser, then [Close] as
    the last effect. This holds whatever the page does, so for the normal
    return, the decoy return and every thrown error alike. *)
Theorem browser_closed_on_every_exit (pg : page) (url : string) :
  (extractLiveStreamUrl pg url).2 = [] ∨
  ∃ t, (extractLiveStreamUrl pg url).2 = Launch :: t ++ [Close] ∧ Forall inside t.
Proof.
  unfold extractLiveStreamUrl.
  pose proof (validate_trace url) as Hv.
  destruct (validate url) as [[u|e] tv]; simpl in Hv; subst tv; [|by left].
  unfold mbind, E_bind. destruct (launch_fails pg) as [e|]; simpl; [by left|].
  right.
  pose proof (discover_inside pg u) as Hd.
  assert (Hb : leaves inside (Browser.try_catch (discover pg u) (λ error, Browser.throw error)))
    by (apply leaves_try_catch; [done | intros; apply leaves_throw]).
  unfold leaves in Hb.
  destruct (Browser.try_catch _ _) as [r t]. simpl in Hb.
  exists t. split; [|done].
  unfold Browser.try_finally. by destruct (close_fails pg), r.
Qed.

(** ** The request listener *)

Section Listener.

Lemma on_request_filter (b : buckets) (url : string) :
  on_request b url =
    {| mediaRequests := mediaRequests b ++ filter (λ u, media_request u = true) [url];
       liveStreamRequests := liveStreamRequests b ++ filter (λ u, live_request u = true) [url] |}.
Proof.
  unfold on_request, media_request, live_request, is_decoy.
  rewrite !filter_cons, !filter_nil.
  destruct b as [m l]; simpl.
  destruct (media_like url), (Js.includes url decoy_marker), (stream_ext url);
    simpl; repeat case_decide; try done; by rewrite ?app_nil_r.
Qed.

(** Folding the listener over the requests filters them, in order. *)
Lemma fold_on_request (urls : list string) (b : buckets) :
  fold_left on_request urls b =
    {| mediaRequests := mediaRequests b ++ filter (λ u, media_request u = true) urls;
       liveStreamRequests := liveStreamRequests b ++ filter (λ u, live_request u = true) urls |}.
Proof.
  revert b. induction urls as [|url urls IH]; intros b.
  - destruct b. simpl. by rewrite !app_nil_r.
  - change (fold_left on_request (url :: urls) b)
      with (fold_left on_request urls (on_request b url)).
    rewrite IH, on_request_filter. simpl mediaRequests. simpl liveStreamRequests.
    change (url :: urls) with ([url] ++ urls).
    by rewrite !filter_app, !app_assoc.
Qed.

Lemma observe_live (urls : list string) :
  liveStreamRequests (observe urls) = filter (λ u, live_request u = true) urls.
Proof. unfold observe. by rewrite fold_on_request. Qed.

Lemma observe_media (urls : list string) :
  mediaRequests (observe urls) = filter (λ u, media_request u = true) urls.
Proof. unfold observe. by rewrite fold_on_request. Qed.

Lemma filter_replicate_all (f : string → bool) (url : string) (n : nat) :
  f url = true → filter (λ u, f u = true) (replicate n url) = replicate n url.
Proof.
  intros H. induction n as [|n IH]; [done|].
  simpl. rewrite filter_cons. case_decide; [by rewrite IH | done].
Qed.

End Listener.

(** C8, as stated, fails: no bound [N] holds for both buckets. [N + 1]
    requests for the same playlist leave [N + 1] entries in the
    high-confidence bucket. *)
Lemma buckets_have_no_bound :
  ¬ ∃ N : nat, ∀ urls : list string,
      length (liveStreamRequests (observe urls)) ≤ N ∧
      length (mediaRequests (observe urls)) ≤ N.
Proof.
  intros [N H].
  destruct (H (replicate (S N) "https://pull.example.com/a.m3u8")) as [Hlive _].
  rewrite observe_live, (filter_replicate_all live_request) in Hlive by reflexivity.
  rewrite length_replicate in Hlive. lia.
Qed.

(** C8, amended: nothing is ever evicted. Each bucket is the list of all
    observed requests that match it, in the order they were observed, so
    its length is the number of matching requests; one more observed request
    makes the bucket it matches one entry longer and leaves the other as it
    is. *)
Theorem buckets_keep_every_matching_request (urls : list string) (url : string) :
  liveStreamRequests (observe urls) = filter (λ u, live_request u = true) urls ∧
  mediaRequests (observe urls) = filter (λ u, media_request u = true) urls ∧
  length (liveStreamRequests (observe (urls ++ [url]))) =
    length (liveStreamRequests (observe urls)) + (if live_request url then 1 else 0) ∧
  length (mediaRequests (observe (urls ++ [url]))) =
    length (mediaRequests (observe urls)) + (if media_request url then 1 else 0).
Proof.
  repeat split.
  - apply observe_live.
  - apply observe_media.
  - rewrite !observe_live, filter_app, length_app.
    rewrite filter_cons, filter_nil.
    destruct (live_request url); case_decide; simpl; done.
  - rewrite !observe_media, filter_app, length_app.
    rewrite filter_cons, filter_nil.
    destruct (media_request url); case_decide; simpl; done.
Qed.

(** ** The three tests on [streamUrl] *)

Section Guards.

Lemma bind_return {A B} (a : A) (f : A → E B) : (Return a, []) ≫= f = f a.
Proof. unfold mbind, E_bind. by destruct (f a). Qed.

Lemma bind_mret {A B} (a : A) (f : A → E B) : mret a ≫= f = f a.
Proof. apply bind_return. Qed.

(** A value with the method is tested without an exception. *)
Lemma includes_usable (name : string) (v : value) (needle : string) :
  Value.no_includes name v = None →
  includes name v needle = (Return (Value.includes v needle), []).
Proof. unfold includes. by intros ->. Qed.

Lemma accepted_string (name s : string) :
  accepted name (Str s) = (Return (negb (String.eqb s "") && negb (is_decoy s)), []).
Proof. unfold accepted, is_decoy. simpl. by destruct (String.eqb s ""). Qed.

Lemma still_missing_string (s : string) :
  still_missing (Str s) = (Return (String.eqb s "" || is_decoy s), []).
Proof. unfold still_missing, is_decoy. simpl. by destruct (String.eqb s ""). Qed.

Lemma holds_decoy_string (s : string) :
  holds_decoy (Str s) = (Return (negb (String.eqb s "") && is_decoy s), []).
Proof. unfold holds_decoy, is_decoy. simpl. by destruct (String.eqb s ""). Qed.

Lemma accepted_real (name u : string) :
  u ≠ "" → is_decoy u = false → accepted name (Str u) = (Return true, []).
Proof.
  intros Hne Hd. rewrite accepted_string, Hd. by apply String.eqb_neq in Hne as ->.
Qed.

Lemma real_is_not_missing (u : string) :
  u ≠ "" → is_decoy u = false → still_missing (Str u) = (Return false, []).
Proof.
  intros Hne Hd. rewrite still_missing_string, Hd. by apply String.eqb_neq in Hne as ->.
Qed.

(** The guard of line 801 and the test of line 811 agree on a value the
    guard lets through: it is decoy-marked or falsy. *)
Lemma still_missing_true (v : value) :
  still_missing v = (Return true, []) →
  holds_decoy v = (Return (decoy_marked v), []).
Proof.
  unfold still_missing, holds_decoy, decoy_marked, includes.
  destruct v as [|s|items|]; simpl; try done.
  by destruct (String.eqb s "").
Qed.

End Guards.

(** ** An attempt on which the browser cooperates *)

Section Attempt.

Variable pg : page.

(** DOM extraction never throws and has no effect of its own. *)
Lemma dom_stage_total : ∃ v, dom_stage pg = (Return v, []).
Proof.
  unfold dom_stage.
  destruct (has_video pg) as [e|[|]]; [by exists Null | | by exists Null].
  destruct (dom_src pg) as [e|v]; [by exists Null | by exists v].
Qed.

(** On a cooperative page the attempt is the strategies of lines 570-820
    applied to what DOM extraction left, between [Launch], [Goto] and
    [Close]. *)
Lemma attempt_shape (url0 url : string) (v : value) :
  cooperative pg →
  validate url0 = (Return url, []) →
  dom_stage pg = (Return v, []) →
  extractLiveStreamUrl pg url0 =
    ((strategies pg url v).1, Launch :: Goto url :: (strategies pg url v).2 ++ [Close]).
Proof.
  intros [Hl Hs Hg Hi Hc] Hv Hd.
  unfold extractLiveStreamUrl, discover.
  rewrite Hv, Hl, Hs, Hg, Hi, Hc, Hd.
  cbn -[strategies].
  destruct (strategies pg url v) as [[r|e] t]; cbn; by rewrite ?app_nil_r.
Qed.

(** The three later stages do nothing once the guard is false. *)
Lemma script_stage_skip (listening : bool) (v : value) :
  still_missing v = (Return false, []) → script_stage pg listening v = (Return v, []).
Proof. unfold script_stage. by intros ->. Qed.

Lemma api_stage_skip (listening : bool) (url : string) (v : value) :
  still_missing v = (Return false, []) → api_stage pg listening url v = (Return v, []).
Proof. unfold api_stage. by intros ->. Qed.

Lemma finish_skip (listening : bool) (v : value) :
  still_missing v = (Return false, []) → finish pg listening v = (Return v, []).
Proof. unfold finish. by intros ->. Qed.

Lemma later_stages_skip (listening : bool) (url : string) (v : value) :
  still_missing v = (Return false, []) →
  later_stages pg url listening v = (Return v, []).
Proof.
  intros Hm. unfold later_stages.
  rewrite script_stage_skip, bind_return by done.
  rewrite api_stage_skip, bind_return by done.
  by apply finish_skip.
Qed.

(** A real URL in [streamUrl] passes every later guard untouched. *)
Lemma strategies_accept (url u : string) :
  u ≠ "" → is_decoy u = false →
  strategies pg url (Str u) = (Return (Str u), []).
Proof.
  intros Hne Hd. unfold strategies.
  rewrite accepted_real, bind_return by done. cbn match. rewrite bind_mret.
  apply later_stages_skip. by apply real_is_not_missing.
Qed.

(** Once the network stage has put a real URL in [streamUrl]. *)
Lemma strategies_from_network (url u : string) (v : value) (listening : bool) :
  accepted "streamUrl" v = (Return false, []) →
  network_stage pg (observe (observed pg)) v = (Return (Str u, listening), []) →
  u ≠ "" → is_decoy u = false →
  strategies pg url v = (Return (Str u), []).
Proof.
  intros Hv Hn Hne Hd. unfold strategies.
  rewrite Hv, bind_return. cbn match. rewrite Hn, bind_return.
  apply later_stages_skip. by apply real_is_not_missing.
Qed.

Lemma live_request_real (u : string) :
  live_request u = true → u ≠ "" ∧ is_decoy u = false.
Proof.
  unfold live_request. intros H.
  apply andb_true_iff in H as [H Hs]. apply andb_true_iff in H as [_ Hd].
  split; [by intros -> | by destruct (is_decoy u)].
Qed.

Lemma media_request_real (u : string) :
  media_request u = true → u ≠ "" ∧ is_decoy u = false.
Proof.
  unfold media_request. intros H.
  apply andb_true_iff in H as [H _]. apply andb_true_iff in H as [Hm Hd].
  split; [by intros -> | by destruct (is_decoy u)].
Qed.

Lemma last_filter_holds (f : string → bool) (l : list string) (u : string) :
  last (filter (λ x, f x = true) l) = Some u → f u = true.
Proof.
  intros H. apply last_Some_elem_of in H.
  by apply list_elem_of_filter in H as [H _].
Qed.

Lemma last_is_Some_length {A} (l : list A) (x : A) :
  last l = Some x → (0 <? length l) = true.
Proof. destruct l; [done | intros _; reflexivity]. Qed.

(** With nothing real from the DOM and a non-empty high-confidence bucket,
    the strategies end at once with its most recent entry. *)
Lemma strategies_live (url u : string) (v : value) :
  accepted "streamUrl" v = (Return false, []) →
  last (liveStreamRequests (observe (observed pg))) = Some u →
  strategies pg url v = (Return (Str u), []).
Proof.
  intros Hv Hlast.
  assert (Hu : u ≠ "" ∧ is_decoy u = false).
  { apply live_request_real. rewrite observe_live in Hlast.
    by apply (last_filter_holds live_request) in Hlast. }
  destruct Hu as [Hne Hd].
  apply (strategies_from_network url u v false); try done.
  unfold network_stage, Value.last_of.
  by rewrite (last_is_Some_length _ _ Hlast), Hlast.
Qed.

(** With nothing real from the DOM, an empty high-confidence bucket and a
    non-empty low-confidence one, they end with the latter's most recent
    entry. *)
Lemma strategies_media (url u : string) (v : value) :
  accepted "streamUrl" v = (Return false, []) →
  liveStreamRequests (observe (observed pg)) = [] →
  last (mediaRequests (observe (observed pg))) = Some u →
  strategies pg url v = (Return (Str u), []).
Proof.
  intros Hv Hnil Hlast.
  assert (Hu : u ≠ "" ∧ is_decoy u = false).
  { apply media_request_real. rewrite observe_media in Hlast.
    by apply (last_filter_holds media_request) in Hlast. }
  destruct Hu as [Hne Hd].
  apply (strategies_from_network url u v false); try done.
  unfold network_stage, Value.last_of.
  by rewrite Hnil, (last_is_Some_length _ _ Hlast), Hlast.
Qed.

End Attempt.

(** C3: on a cooperative page and for an address that passes validation,
    (1) a non-decoy URL from DOM extraction is the result, whatever requests
    were observed, and the attempt does nothing between navigating and
    closing; (2) when DOM extraction produces nothing, the result is the most
    recent entry of the high-confidence bucket if it has one; (3) otherwise
    it is the most recent entry of the low-confidence bucket if it has one. *)
Theorem fallback_order (pg : page) (url0 url : string) :
  cooperative pg →
  validate url0 = (Return url, []) →
  (∀ u, dom_stage pg = (Return (Str u), []) → u ≠ "" → is_decoy u = false →
     ∀ urls, extractLiveStreamUrl (with_observed urls pg) url0 =
             (Return (Str u), [Launch; Goto url; Close])) ∧
  (∀ u, dom_stage pg = (Return Null, []) →
     last (liveStreamRequests (observe (observed pg))) = Some u →
     extractLiveStreamUrl pg url0 = (Return (Str u), [Launch; Goto url; Close])) ∧
  (∀ u, dom_stage pg = (Return Null, []) →
     liveStreamRequests (observe (observed pg)) = [] →
     last (mediaRequests (observe (observed pg))) = Some u →
     extractLiveStreamUrl pg url0 = (Return (Str u), [Launch; Goto url; Close])).
Proof.
  intros Hc Hv. repeat split.
  - intros u Hd Hne Hdec urls.
    assert (Hc' : cooperative (with_observed urls pg)) by by destruct Hc.
    rewrite (attempt_shape _ url0 url (Str u) Hc' Hv Hd).
    by rewrite strategies_accept.
  - intros u Hd Hlast.
    rewrite (attempt_shape _ url0 url Null Hc Hv Hd).
    by rewrite (strategies_live pg url u Null).
  - intros u Hd Hnil Hlast.
    rewrite (attempt_shape _ url0 url Null Hc Hv Hd).
    by rewrite (strategies_media pg url u Null).
Qed.

Lemma fallback_order_witness :
  extractLiveStreamUrl
    (with_observed ["https://cdn.example.com/play/b.mp4"]
       (with_dom (inr true) (inr (Str "https://a.example.com/555/play.m3u8")) quiet))
    "live.example.com/live/555" =
    (Return (Str "https://a.example.com/555/play.m3u8"),
     [Launch; Goto "https://live.example.com/live/555"; Close]) ∧
  extractLiveStreamUrl
    (with_observed ["https://cdn.example.com/play/b.mp4";
                    "https://pull.example.com/stream/a.flv";
                    "https://pull.example.com/stream/c.m3u8";
                    "https://cdn.example.com/play/d.mp4"] quiet)
    "https://live.douyin.com/555" =
    (Return (Str "https://pull.example.com/stream/c.m3u8"),
     [Launch; Goto "https://live.douyin.com/555"; Close]) ∧
  extractLiveStreamUrl
    (with_observed ["https://cdn.example.com/play/b.mp4";
                    "https://cdn.example.com/play/d.mp4"] quiet)
    "https://live.douyin.com/555" =
    (Return (Str "https://cdn.example.com/play/d.mp4"),
     [Launch; Goto "https://live.douyin.com/555"; Close]).
Proof.
  split; [|split].
  - apply (proj1 (fallback_order
                    (with_dom (inr true) (inr (Str "https://a.example.com/555/play.m3u8")) quiet)
                    "live.example.com/live/555" "https://live.example.com/live/555"
                    ltac:(by split) eq_refl));
      [reflexivity | discriminate | reflexivity].
  - apply (proj1 (proj2 (fallback_order
                    (with_observed ["https://cdn.example.com/play/b.mp4";
                                    "https://pull.example.com/stream/a.flv";
                                    "https://pull.example.com/stream/c.m3u8";
                                    "https://cdn.example.com/play/d.mp4"] quiet)
                    "https://live.douyin.com/555" "https://live.douyin.com/555"
                    ltac:(by split) eq_refl)));
      reflexivity.
  - apply (proj2 (proj2 (fallback_order
                    (with_observed ["https://cdn.example.com/play/b.mp4";
                                    "https://cdn.example.com/play/d.mp4"] quiet)
                    "https://live.douyin.com/555" "https://live.douyin.com/555"
                    ltac:(by split) eq_refl)));
      reflexivity.
Defined.

(** ** The transcode session manager *)

Section Line_837.

(** [processLiveStream] as the test of line 837 followed by the rest. *)
Lemma processLiveStream_unfold (h : host) (streamUrl : value) (sessionId : string)
    (w : world) :
  processLiveStream h streamUrl sessionId w =
    match Value.no_includes "streamUrl" streamUrl with
    | Some e => (Throw e, w)
    | None =>
        if negb (ffmpegAvailable h) then (Return (passthrough streamUrl), w)
        else Server.try_catch (transcode h streamUrl sessionId)
               (λ error, mret (failed streamUrl error)) w
    end.
Proof.
  unfold processLiveStream, mbind, M_bind, raise_if.
  destruct (Value.no_includes "streamUrl" streamUrl); [done|].
  by destruct (ffmpegAvailable h).
Qed.

(** [processLiveStream] returns, hands the address back, and touches the
    table only by the entry it reports. *)
Lemma processLiveStream_stores (h : host) (streamUrl : value) (sessionId : string)
    (w : world) :
  Value.no_includes "streamUrl" streamUrl = None →
  ∃ r w',
    processLiveStream h streamUrl sessionId w = (Return r, w') ∧
    Result.originalUrl r = streamUrl ∧
    activeLiveStreams w' =
      (if Result.ffmpegAvailable r
       then <[sessionId := next_handle w]> (activeLiveStreams w)
       else activeLiveStreams w).
Proof.
  intros Hu. rewrite processLiveStream_unfold, Hu. unfold Server.try_catch.
  destruct (ffmpegAvailable h); cbn [negb].
  2: { eexists _, _. by split. }
  unfold transcode, mbind, M_bind, existsSync, mkdirSync, ffmpeg, run, raise_if,
    Server.emit, Server.throw, table_set, log, mret, M_ret.
  destruct w as [tbl ls n dir t]. simpl.
  destruct dir, (mkdir_fails h), (ffmpeg_fails h), (run_fails h); simpl;
    eexists _, _; by split.
Qed.

(** A value without the method ends the call at line 837, before the
    [try]. *)
Lemma processLiveStream_needs_includes (h : host) (streamUrl : value) (sessionId : string)
    (w : world) (e : exn) :
  Value.no_includes "streamUrl" streamUrl = Some e →
  processLiveStream h streamUrl sessionId w = (Throw e, w).
Proof. intros H. by rewrite processLiveStream_unfold, H. Qed.

End Line_837.

(** C7: when the engine is unavailable, [processLiveStream] returns the
    passthrough result (the input URL, a string, as [originalUrl];
    [transcodedUrl] is [null]) and leaves the server state exactly as it
    was: no directory created, no process spawned, no entry added to the
    session table, no effect in the trace. *)
Theorem passthrough_when_unavailable (h : host) (streamUrl sessionId : string) (w : world) :
  ffmpegAvailable h = false →
  processLiveStream h (Str streamUrl) sessionId w =
    (Return (passthrough (Str streamUrl)), w).
Proof. intros H. rewrite processLiveStream_unfold. simpl. by rewrite H. Qed.

Lemma passthrough_when_unavailable_witness :
  processLiveStream bare_host (Str "https://pull.example.com/a.flv") "1700000000000"
    fresh_world =
    (Return (passthrough (Str "https://pull.example.com/a.flv")), fresh_world).
Proof.
  apply (passthrough_when_unavailable bare_host "https://pull.example.com/a.flv"
           "1700000000000" fresh_world).
  reflexivity.
Defined.

(** C10: [processLiveStream] always returns, and an exception raised inside
    its [try] comes back as a result with the input URL as [originalUrl],
    [transcodedUrl] [null], [ffmpegAvailable] [false] although the global
    flag is [true], and the message in [error]. The URL is a string, as the
    function documents its parameter (line 830). More generally the call
    returns, with its input as [originalUrl], for every value that has the
    method [includes], which line 837 calls before the [try]: a discovery
    attempt returns no other value. *)
Theorem processLiveStream_never_throws (h : host) (streamUrl sessionId : string) (w : world) :
  (∃ r w', processLiveStream h (Str streamUrl) sessionId w = (Return r, w')) ∧
  (∀ e w', ffmpegAvailable h = true →
     transcode h (Str streamUrl) sessionId w = (Throw e, w') →
     processLiveStream h (Str streamUrl) sessionId w =
       (Return (failed (Str streamUrl) e), w')) ∧
  (∀ v, Value.no_includes "streamUrl" v = None →
     ∃ r w', processLiveStream h v sessionId w = (Return r, w') ∧
             Result.originalUrl r = v).
Proof.
  split; [|split].
  - rewrite processLiveStream_unfold. unfold Server.try_catch. simpl.
    destruct (ffmpegAvailable h); simpl; [|by eauto].
    destruct (transcode h (Str streamUrl) sessionId w) as [[r|e] w']; by eauto.
  - rewrite processLiveStream_unfold. unfold Server.try_catch. simpl.
    intros e w' -> Ht. simpl. by rewrite Ht.
  - intros v Hv.
    destruct (processLiveStream_stores h v sessionId w Hv) as (r & w' & Hp & Ho & _).
    by exists r, w'.
Qed.

Lemma processLiveStream_never_throws_witness :
  processLiveStream readonly_host (Str "https://pull.example.com/a.flv") "1700000000000"
    fresh_world =
    (Return (failed (Str "https://pull.example.com/a.flv")
               "EACCES: permission denied, mkdir '/srv/app/public/streams'"),
     fresh_world) ∧
  ∃ r w',
    processLiveStream readonly_host (Arr [Some "https://pull.example.com/a.flv"])
      "1700000000000" fresh_world = (Return r, w') ∧
    Result.originalUrl r = Arr [Some "https://pull.example.com/a.flv"].
Proof.
  split.
  - apply (proj1 (proj2 (processLiveStream_never_throws readonly_host
                    "https://pull.example.com/a.flv" "1700000000000" fresh_world)));
      reflexivity.
  - apply (proj2 (proj2 (processLiveStream_never_throws readonly_host
                    "https://pull.example.com/a.flv" "1700000000000" fresh_world))
             (Arr [Some "https://pull.example.com/a.flv"])).
    reflexivity.
Defined.

(** ** Cleanup *)

Section Cleanup.

Variables (sessionId : string) (w : world).

Lemma cleanupStream_present (p : handle) :
  activeLiveStreams w !! sessionId = Some p →
  cleanupStream sessionId w = (Return (), cleaned sessionId p w).
Proof.
  intros H. unfold cleanupStream, mbind, M_bind, table_has, table_get.
  rewrite H. rewrite bool_decide_eq_true_2 by eauto.
  unfold Server.emit, table_delete, cleaned, log. simpl.
  rewrite H. simpl. by rewrite <- app_assoc.
Qed.

Lemma cleanupStream_absent :
  activeLiveStreams w !! sessionId = None →
  cleanupStream sessionId w = (Return (), w).
Proof.
  intros H. unfold cleanupStream, mbind, M_bind, table_has.
  rewrite H. rewrite bool_decide_eq_false_2; [done|].
  by intros [? ?].
Qed.

Lemma stop_stream_present (p : handle) :
  activeLiveStreams w !! sessionId = Some p →
  stop_stream sessionId w = (Return stopped, cleaned sessionId p w).
Proof.
  intros H. unfold stop_stream, mbind, M_bind at 1. unfold table_has.
  rewrite bool_decide_eq_true_2 by (rewrite H; eauto).
  unfold M_bind. by rewrite (cleanupStream_present p H).
Qed.

Lemma stop_stream_absent :
  activeLiveStreams w !! sessionId = None →
  stop_stream sessionId w = (Return no_session, w).
Proof.
  intros H. unfold stop_stream, mbind, M_bind, table_has.
  rewrite H. rewrite bool_decide_eq_false_2; [done|].
  by intros [? ?].
Qed.

End Cleanup.

(** C6: with the session registered, the first [stop] answers success,
    sends SIGTERM to the registered process and deletes the entry; the second
    answers 404 (absent) and changes neither the table nor the trace.
    Neither call throws. *)
Theorem stop_is_idempotent (sessionId : string) (p : handle) (w : world) :
  activeLiveStreams w !! sessionId = Some p →
  ∃ w1,
    stop_stream sessionId w = (Return stopped, w1) ∧
    trace w1 = trace w ++ [Kill p "SIGTERM"; TableDelete sessionId] ∧
    activeLiveStreams w1 = delete sessionId (activeLiveStreams w) ∧
    stop_stream sessionId w1 = (Return no_session, w1).
Proof.
  intros H. exists (cleaned sessionId p w). repeat split.
  - by apply stop_stream_present.
  - apply stop_stream_absent. simpl. apply lookup_delete_eq.
Qed.

Lemma stop_is_idempotent_witness :
  ∃ w1,
    stop_stream "1700000000000" one_session = (Return stopped, w1) ∧
    trace w1 = trace one_session ++ [Kill 0 "SIGTERM"; TableDelete "1700000000000"] ∧
    activeLiveStreams w1 = delete "1700000000000" (activeLiveStreams one_session) ∧
    stop_stream "1700000000000" w1 = (Return no_session, w1).
Proof.
  apply (stop_is_idempotent "1700000000000" 0 one_session).
  vm_compute. reflexivity.
Defined.

(** ** Any interleaving of stop requests and process callbacks *)

Section Events.

(** What an event does to the state: [cleanupStream] on its target. *)
Lemma handle_event_world (ev : event) (w : world) :
  (handle_event ev w).2 =
    match cleanup_target (listeners w) ev with
    | Some sessionId =>
        match activeLiveStreams w !! sessionId with
        | Some p => cleaned sessionId p w
        | None => w
        end
    | None => w
    end.
Proof.
  destruct ev as [sessionId | p | p]; simpl.
  - destruct (activeLiveStreams w !! sessionId) as [p|] eqn:H.
    + unfold mbind, M_bind. by rewrite (stop_stream_present _ _ p H).
    + unfold mbind, M_bind. by rewrite (stop_stream_absent _ _ H).
  - unfold on_process_event. destruct (listeners w !! p) as [sessionId|]; [|done].
    destruct (activeLiveStreams w !! sessionId) as [q|] eqn:H.
    + by rewrite (cleanupStream_present _ _ q H).
    + by rewrite (cleanupStream_absent _ _ H).
  - unfold on_process_event. destruct (listeners w !! p) as [sessionId|]; [|done].
    destruct (activeLiveStreams w !! sessionId) as [q|] eqn:H.
    + by rewrite (cleanupStream_present _ _ q H).
    + by rewrite (cleanupStream_absent _ _ H).
Qed.

Lemma kills_cleaned (p q : handle) (sessionId : string) (w : world) :
  kills p (cleaned sessionId q w) = kills p w + (if decide (q = p) then 1 else 0).
Proof.
  unfold kills, cleaned. cbn [trace]. rewrite count_occ_app. f_equal.
  case_decide as Hqp.
  - subst. rewrite count_occ_cons_eq by done.
    by rewrite count_occ_cons_neq by done.
  - by rewrite !count_occ_cons_neq by congruence.
Qed.

Lemma deletions_cleaned (sid sessionId : string) (q : handle) (w : world) :
  deletions sid (cleaned sessionId q w) =
  deletions sid w + (if decide (sessionId = sid) then 1 else 0).
Proof.
  unfold deletions, cleaned. cbn [trace]. rewrite count_occ_app. f_equal.
  rewrite count_occ_cons_neq by done.
  case_decide as Hs.
  - subst. by rewrite count_occ_cons_eq by done.
  - by rewrite count_occ_cons_neq by congruence.
Qed.

Variables (sid : string) (p : handle).

(** Once the entry is gone and [p] is registered nowhere, no event sends
    [p] another signal or deletes the entry again. *)
Lemma run_events_absent (evs : list event) (w : world) :
  activeLiveStreams w !! sid = None →
  (∀ sid', activeLiveStreams w !! sid' ≠ Some p) →
  activeLiveStreams (run_events evs w) !! sid = None ∧
  kills p (run_events evs w) = kills p w ∧
  deletions sid (run_events evs w) = deletions sid w.
Proof.
  revert w. induction evs as [|ev evs IH]; intros w Hnone Hfree; [done|].
  simpl. rewrite handle_event_world.
  destruct (cleanup_target (listeners w) ev) as [sid'|]; [|by apply IH].
  destruct (activeLiveStreams w !! sid') as [q|] eqn:Hq; [|by apply IH].
  assert (sid' ≠ sid) by congruence.
  assert (q ≠ p) by (intros ->; by apply (Hfree sid')).
  destruct (IH (cleaned sid' q w)) as (H1 & H2 & H3).
  - simpl. by rewrite lookup_delete_ne.
  - intros s. simpl. rewrite lookup_delete. case_decide; [done | apply Hfree].
  - rewrite H1, H2, H3, kills_cleaned, deletions_cleaned.
    rewrite !decide_False by done. by rewrite !Nat.add_0_r.
Qed.

(** While the entry is there, the first event that targets it sends the
    one signal and deletes it once. *)
Lemma run_events_present (evs : list event) (w : world) :
  activeLiveStreams w !! sid = Some p →
  (∀ sid', activeLiveStreams w !! sid' = Some p → sid' = sid) →
  Exists (λ ev, cleanup_target (listeners w) ev = Some sid) evs →
  activeLiveStreams (run_events evs w) !! sid = None ∧
  kills p (run_events evs w) = S (kills p w) ∧
  deletions sid (run_events evs w) = S (deletions sid w).
Proof.
  revert w. induction evs as [|ev evs IH]; intros w Hp Hown Hex.
  { by apply Exists_nil in Hex. }
  simpl. rewrite handle_event_world.
  destruct (cleanup_target (listeners w) ev) as [sid'|] eqn:Ht.
  - destruct (activeLiveStreams w !! sid') as [q|] eqn:Hq.
    + destruct (decide (sid' = sid)) as [->|Hne].
      * assert (q = p) as -> by congruence.
        destruct (run_events_absent evs (cleaned sid p w)) as (H1 & H2 & H3).
        { simpl. apply lookup_delete_eq. }
        { intros s. simpl. rewrite lookup_delete. case_decide; [done|].
          intros Hs. by apply Hown in Hs. }
        rewrite H1, H2, H3, kills_cleaned, deletions_cleaned.
        rewrite !decide_True by done. repeat split; lia.
      * assert (q ≠ p) by (intros ->; by apply Hown in Hq).
        destruct (IH (cleaned sid' q w)) as (H1 & H2 & H3).
        { simpl. by rewrite lookup_delete_ne. }
        { intros s. simpl. rewrite lookup_delete. case_decide; [done | apply Hown]. }
        { apply Exists_cons in Hex as [Hex|Hex]; [congruence | done]. }
        rewrite H1, H2, H3, kills_cleaned, deletions_cleaned.
        rewrite !decide_False by done. by rewrite !Nat.add_0_r.
    + apply IH; try done.
      apply Exists_cons in Hex as [Hex|Hex]; [congruence | done].
  - apply IH; try done.
    apply Exists_cons in Hex as [Hex|Hex]; [congruence | done].
Qed.

End Events.

(** ** The invariant of the session table *)

Section Invariant.

Lemma fresh_world_well_formed : well_formed fresh_world.
Proof.
  intros sessionId p H.
  change ((∅ : gmap string handle) !! sessionId = Some p) in H.
  by rewrite lookup_empty in H.
Qed.

Lemma cleaned_well_formed (sessionId : string) (p : handle) (w : world) :
  well_formed w → well_formed (cleaned sessionId p w).
Proof.
  intros Hw sid q. simpl. rewrite lookup_delete. case_decide; [done|]. apply Hw.
Qed.

Lemma handle_event_well_formed (ev : event) (w : world) :
  well_formed w → well_formed (handle_event ev w).2.
Proof.
  intros Hw. rewrite handle_event_world.
  destruct (cleanup_target (listeners w) ev) as [sid|]; [|done].
  destruct (activeLiveStreams w !! sid) as [q|]; [|done].
  by apply cleaned_well_formed.
Qed.

Lemma run_events_well_formed (evs : list event) (w : world) :
  well_formed w → well_formed (run_events evs w).
Proof.
  revert w. induction evs as [|ev evs IH]; intros w Hw; [done|].
  simpl. by apply IH, handle_event_well_formed.
Qed.

(** Starting a session keeps the invariant, whether the start succeeds or
    fails on the way. *)
Lemma processLiveStream_well_formed (h : host) (streamUrl : value) (sessionId : string)
    (w : world) :
  well_formed w → well_formed (processLiveStream h streamUrl sessionId w).2.
Proof.
  intros Hw. rewrite processLiveStream_unfold. unfold Server.try_catch.
  destruct (Value.no_includes "streamUrl" streamUrl); [done|].
  destruct (ffmpegAvailable h); [|done]. simpl.
  unfold transcode, mbind, M_bind, existsSync, mkdirSync, ffmpeg, run, raise_if,
    Server.emit, Server.throw, table_set, log, mret, M_ret.
  destruct w as [tbl ls n dir t]. unfold well_formed in *. simpl in *.
  destruct dir, (mkdir_fails h), (ffmpeg_fails h), (run_fails h); simpl;
    intros sid q Hq; try (by apply Hw);
    try (destruct (Hw sid q Hq) as [Hl Hlt]; split; [|lia];
         rewrite lookup_insert_ne by lia; done);
    (apply lookup_insert_Some in Hq as [[<- <-] | [Hne Hq]];
     [split; [apply lookup_insert_eq | lia]
     |destruct (Hw sid q Hq) as [Hl Hlt]; split; [|lia];
      rewrite lookup_insert_ne by lia; done]).
Qed.

(** So does the start handler as a whole: the discovery attempt only adds
    to the trace. *)
Lemma start_stream_well_formed (h : host) (pg : page) (now : N) (url : option string)
    (w : world) :
  well_formed w → well_formed (start_stream h pg now url w).2.
Proof.
  intros Hw. unfold start_stream, Server.try_catch.
  destruct (Js.truthy url); cbn -[pretty processLiveStream extractLiveStreamUrl];
    [|done].
  unfold mbind, M_bind, lift.
  destruct (extractLiveStreamUrl pg (default "" url)) as [[v|e] t];
    cbn -[pretty processLiveStream]; try done.
  pose proof (processLiveStream_well_formed h v (pretty now) (log t w)) as Hp.
  destruct (processLiveStream h v (pretty now) (log t w)) as [[r|e] w'];
    cbn -[pretty] in *; by apply Hp.
Qed.

(** In a well-formed state a process is stored under one id only, and its
    own events ask for that id. *)
Lemma well_formed_owner (w : world) (sessionId : string) (p : handle) :
  well_formed w → activeLiveStreams w !! sessionId = Some p →
  ∀ sid', activeLiveStreams w !! sid' = Some p → sid' = sessionId.
Proof.
  intros Hw Hp sid' Hp'.
  destruct (Hw _ _ Hp) as [H1 _], (Hw _ _ Hp') as [H2 _]. congruence.
Qed.

Lemma own_event_target (w : world) (sessionId : string) (p : handle) (ev : event) :
  well_formed w → activeLiveStreams w !! sessionId = Some p →
  own_event sessionId p ev → cleanup_target (listeners w) ev = Some sessionId.
Proof.
  intros Hw Hp [-> | [-> | ->]]; simpl; [done | |]; by destruct (Hw _ _ Hp).
Qed.

End Invariant.

(** C1: in a well-formed server state let [sessionId] be registered with
    process [p]. Then any sequence of events (stop requests and process
    callbacks, of this session or of others) that contains at least one stop
    request for [sessionId] or one callback of [p] sends SIGTERM to [p]
    exactly once, deletes the entry of [sessionId] exactly once, and leaves
    the table without an entry for [sessionId]. *)
Theorem cleanup_exactly_once (sessionId : string) (p : handle) (evs : list event) (w : world) :
  well_formed w →
  activeLiveStreams w !! sessionId = Some p →
  Exists (own_event sessionId p) evs →
  kills p (run_events evs w) = S (kills p w) ∧
  deletions sessionId (run_events evs w) = S (deletions sessionId w) ∧
  activeLiveStreams (run_events evs w) !! sessionId = None.
Proof.
  intros Hw Hp Hex.
  destruct (run_events_present sessionId p evs w Hp) as (? & ? & ?); [| |done].
  - by apply well_formed_owner.
  - eapply Exists_impl; [exact Hex|]. intros ev. by apply own_event_target.
Qed.

Lemma one_session_well_formed : well_formed one_session.
Proof. apply processLiveStream_well_formed, fresh_world_well_formed. Qed.

Lemma cleanup_exactly_once_witness :
  kills 0 (run_events two_stops_then_callbacks one_session) = S (kills 0 one_session) ∧
  deletions "1700000000000" (run_events two_stops_then_callbacks one_session) =
    S (deletions "1700000000000" one_session) ∧
  activeLiveStreams (run_events two_stops_then_callbacks one_session) !! "1700000000000" = None.
Proof.
  apply (cleanup_exactly_once "1700000000000" 0 two_stops_then_callbacks one_session).
  - apply one_session_well_formed.
  - vm_compute. reflexivity.
  - apply Exists_cons_hd. left. reflexivity.
Defined.

(** ** Decoy-marked candidates *)

Section Overrides.

Variable pg : page.








Lemma insert_by_score_elem (y u : string) (l : list string) :
  u ∈ insert_by_score y l → u = y ∨ u ∈ l.
Proof.
  induction l as [|z l IH]; simpl.
  - intros H. apply list_elem_of_singleton in H. by left.
  - destruct (score y <? score z).
    + intros H. apply elem_of_cons in H as [->|H]; [right; left|].
      destruct (IH H) as [->|H']; [by left | right; by right].
    + intros H. apply elem_of_cons in H as [->|H]; [by left | by right].
Qed.

Lemma sort_by_score_elem (u : string) (l : list string) :
  u ∈ sort_by_score l → u ∈ l.
Proof.
  induction l as [|x l IH]; [done|].
  change (sort_by_score (x :: l)) with (insert_by_score x (sort_by_score l)).
  intros H. destruct (insert_by_score_elem _ _ _ H) as [->|H']; [left | right; by apply IH].
Qed.

(** What a callback leaves is what was there or a string it assigned, which
    does not carry the marker. *)
Lemma on_response_cases (v : value) (mediaUrls : list string) :
  on_response v mediaUrls = v ∨
  ∃ u, on_response v mediaUrls = Str u ∧ is_decoy u = false.
Proof.
  unfold on_response. destruct (0 <? length mediaUrls); [|by left].
  destruct (sort_by_score _) as [|u l] eqn:Hs; [by left|]. right. exists u. split; [done|].
  assert (u ∈ sort_by_score (filter (λ url, is_decoy url = false) mediaUrls)) as Hin
    by (rewrite Hs; left).
  apply sort_by_score_elem in Hin. by apply list_elem_of_filter in Hin as [Hd _].
Qed.

Lemma fold_on_response_cases (rs : list (list string)) (v : value) :
  fold_left on_response rs v = v ∨
  ∃ u, fold_left on_response rs v = Str u ∧ is_decoy u = false.
Proof.
  revert v. induction rs as [|r rs IH]; intros v; [by left|].
  simpl. destruct (on_response_cases v r) as [-> | (u & -> & Hu)]; [apply IH|].
  destruct (IH (Str u)) as [-> | H]; right; [by exists u | done].
Qed.

Lemma arrive_cases (listening : bool) (rs : list (list string)) (v : value) :
  arrive listening rs v = v ∨
  ∃ u, arrive listening rs v = Str u ∧ is_decoy u = false.
Proof. unfold arrive. destruct listening; [apply fold_on_response_cases | by left]. Qed.




End Overrides.

Section Held.

Variables (pg : page) (d : string).
Hypothesis d_truthy : d ≠ "".
Hypothesis d_decoy : is_decoy d = true.








End Held.

Section Outcome.

Variable pg : page.

(** The attempt once the browser is up to DOM extraction. *)
Lemma attempt_outcome (url0 url : string) (v : value) :
  validate url0 = (Return url, []) →
  launch_fails pg = None → setup_fails pg = None →
  goto_fails pg = None → interact_fails pg = None →
  dom_stage pg = (Return v, []) →
  extractLiveStreamUrl pg url0 =
    (closing pg (strategies pg url v).1,
     Launch :: Goto url :: (strategies pg url v).2 ++ [Close]).
Proof.
  intros Hv Hl Hs Hg Hi Hd.
  unfold extractLiveStreamUrl, discover, closing.
  rewrite Hv, Hl, Hs, Hg, Hi, Hd.
  cbn -[strategies].
  destruct (strategies pg url v) as [[r|e] t], (close_fails pg);
    cbn; by rewrite ?app_nil_r.
Qed.


End Outcome.

Section Decoy_policy.

Variable pg : page.






End Decoy_policy.

(** ** How an attempt ends *)

Section Returned.

Variable pg : page.

Lemma bind_returns {A B} (m : E A) (f : A → E B) (b : B) (t : list effect) :
  m ≫= f = (Return b, t) →
  ∃ a t1 t2, m = (Return a, t1) ∧ f a = (Return b, t2) ∧ t = t1 ++ t2.
Proof.
  unfold mbind, E_bind. destruct m as [[a|e] t1]; [|discriminate].
  destruct (f a) as [r t2] eqn:Hf. intros [= -> <-]. by exists a, t1, t2.
Qed.

Lemma undiagnosed_not_diagnosed (t : list effect) :
  Forall undiagnosed t → ¬ diagnosed t.
Proof.
  unfold diagnosed, undiagnosed. intros Hall Hex.
  apply Exists_exists in Hex as (ef & Hin & Hd).
  rewrite Forall_forall in Hall. specialize (Hall ef Hin). congruence.
Qed.

Lemma accepted_undiagnosed (name : string) (v : value) :
  leaves undiagnosed (accepted name v).
Proof. unfold accepted, includes. follow_trace. Qed.

Lemma network_stage_undiagnosed (b : buckets) (v : value) :
  leaves undiagnosed (network_stage pg b v).
Proof. unfold network_stage. follow_trace. Qed.

Lemma script_stage_undiagnosed (listening : bool) (v : value) :
  leaves undiagnosed (script_stage pg listening v).
Proof. unfold script_stage, still_missing, accepted, includes. follow_trace. Qed.

Lemma api_stage_undiagnosed (listening : bool) (url : string) (v : value) :
  leaves undiagnosed (api_stage pg listening url v).
Proof. unfold api_stage, still_missing, includes. follow_trace. Qed.

(** The guard of lines 678, 747 and 801 answers [true], or it answers
    [false] on a truthy value with the method and without the marker, or it
    throws; it never has an effect. *)
Lemma still_missing_cases (v : value) :
  still_missing v = (Return true, []) ∨
  (still_missing v = (Return false, []) ∧ Value.truthy v = true ∧
   Value.no_includes "streamUrl" v = None ∧ decoy_marked v = false) ∨
  ∃ e, still_missing v = (Throw e, []).
Proof.
  unfold still_missing, decoy_marked, includes.
  destruct v as [|s|items|]; simpl.
  - by left.
  - destruct (String.eqb s ""); simpl; [by left|].
    destruct (Js.includes s decoy_marker); [by left | right; by left].
  - destruct (existsb _ items); [by left | right; by left].
  - right. right. by eexists.
Qed.

Lemma decoy_marked_usable (v : value) :
  decoy_marked v = true → Value.truthy v = true ∧ Value.no_includes "streamUrl" v = None.
Proof.
  unfold decoy_marked. destruct v as [|s|items|]; simpl; try done.
  by destruct (String.eqb s "").
Qed.

(** At line 811 [streamUrl] holds what passed the guard of line 801, or a
    string that a callback has assigned since: the test does not throw. *)
Lemma holds_decoy_after (listening : bool) (v : value) :
  still_missing v = (Return true, []) →
  holds_decoy (after_diagnostics pg listening v) =
    (Return (decoy_marked (after_diagnostics pg listening v)), []).
Proof.
  intros Hm. unfold after_diagnostics.
  destruct (arrive_cases listening (late_responses pg AtContent) v) as [-> | (u & -> & _)].
  - destruct (arrive_cases listening (late_responses pg AtScreenshot) v)
      as [-> | (u & -> & _)].
    + by apply still_missing_true.
    + rewrite holds_decoy_string. reflexivity.
  - destruct (arrive_cases listening (late_responses pg AtScreenshot) (Str u))
      as [-> | (u' & -> & _)]; rewrite holds_decoy_string; reflexivity.
Qed.


(** [finish] returns a truthy value with the method; it has written the
    diagnostics exactly when that value is decoy-marked. *)
Lemma finish_returns (listening : bool) (v v' : value) (t : list effect) :
  finish pg listening v = (Return v', t) →
  Value.truthy v' = true ∧ Value.no_includes "streamUrl" v' = None ∧
  (decoy_marked v' = true ↔ diagnosed t).
Proof.
  destruct (still_missing_cases v) as [Hm | [(Hm & Ht & Hu & Hd) | [e Hm]]].
  - unfold finish. rewrite Hm, bind_return. cbn zeta.
    destruct (content pg) as [e|html]; [discriminate|].
    destruct (write_fails pg) as [e|]; [discriminate|].
    destruct (screenshot_fails pg) as [e|]; [discriminate|].
    fold (after_diagnostics pg listening v).
    cbn -[holds_decoy after_diagnostics].
    rewrite (holds_decoy_after listening v Hm).
    destruct (decoy_marked (after_diagnostics pg listening v)) eqn:Hk; [|discriminate].
    cbn. intros [= <- <-].
    destruct (decoy_marked_usable _ Hk) as [Ht Hu].
    do 2 (split; [done|]). split; [|done]. intros _. by apply Exists_cons_hd.
  - unfold finish. rewrite Hm, bind_return. intros [= <- <-].
    do 2 (split; [done|]). rewrite Hd. split; [done|].
    intros H. by apply Exists_nil in H.
  - unfold finish. by rewrite Hm.
Qed.

Lemma later_stages_returns (url : string) (listening : bool) (v v' : value)
    (t : list effect) :
  later_stages pg url listening v = (Return v', t) →
  Value.truthy v' = true ∧ Value.no_includes "streamUrl" v' = None ∧
  (decoy_marked v' = true ↔ diagnosed t).
Proof.
  unfold later_stages. intros H.
  apply bind_returns in H as (v2 & t2 & t' & H2 & H & ->).
  apply bind_returns in H as (v3 & t3 & t4 & H3 & H & ->).
  apply finish_returns in H as (Ht & Hu & Hiff).
  do 2 (split; [done|]). rewrite Hiff. unfold diagnosed. rewrite !Exists_app.
  split; [by auto|]. intros [Hx | [Hx | Hx]]; [| |done]; exfalso; revert Hx;
    apply undiagnosed_not_diagnosed.
  - pose proof (script_stage_undiagnosed listening v) as Hn.
    unfold leaves in Hn. by rewrite H2 in Hn.
  - pose proof (api_stage_undiagnosed listening url v2) as Hn.
    unfold leaves in Hn. by rewrite H3 in Hn.
Qed.

Lemma strategies_returns (url : string) (v v' : value) (t : list effect) :
  strategies pg url v = (Return v', t) →
  Value.truthy v' = true ∧ Value.no_includes "streamUrl" v' = None ∧
  (decoy_marked v' = true ↔ diagnosed t).
Proof.
  unfold strategies. intros H.
  apply bind_returns in H as (found & t1 & t' & H1 & H & ->).
  apply bind_returns in H as (after & t2 & t3 & H2 & H & ->).
  apply later_stages_returns in H as (Ht & Hu & Hiff).
  do 2 (split; [done|]). rewrite Hiff. unfold diagnosed. rewrite !Exists_app.
  split; [by auto|]. intros [Hx | [Hx | Hx]]; [| |done]; exfalso; revert Hx;
    apply undiagnosed_not_diagnosed.
  - pose proof (accepted_undiagnosed "streamUrl" v) as Hn.
    unfold leaves in Hn. by rewrite H1 in Hn.
  - destruct found.
    + injection H2 as _ <-. constructor.
    + pose proof (network_stage_undiagnosed (observe (observed pg)) v) as Hn.
      unfold leaves in Hn. by rewrite H2 in Hn.
Qed.

(** Whatever the attempt returns is truthy and has the method (a non-empty
    string or an array), and it is decoy-marked exactly when the diagnostics
    were written first. *)
Lemma attempt_returns (url0 : string) (v : value) (t : list effect) :
  extractLiveStreamUrl pg url0 = (Return v, t) →
  Value.truthy v = true ∧ Value.no_includes "streamUrl" v = None ∧
  (decoy_marked v = true ↔ diagnosed t).
Proof.
  intros H.
  pose proof (validate_trace url0) as Htv.
  destruct (validate url0) as [[url|e] tv] eqn:Hv; simpl in Htv; subst tv.
  2: { unfold extractLiveStreamUrl in H. by rewrite Hv in H. }
  destruct dom_stage_total with (pg := pg) as [v0 Hd].
  destruct (launch_fails pg) as [e|] eqn:Hl.
  { unfold extractLiveStreamUrl in H. rewrite Hv, Hl in H. discriminate H. }
  destruct (setup_fails pg) as [e|] eqn:Hs.
  { unfold extractLiveStreamUrl, discover in H. rewrite Hv, Hl, Hs in H.
    cbn in H. destruct (close_fails pg); discriminate H. }
  destruct (goto_fails pg) as [e|] eqn:Hg.
  { unfold extractLiveStreamUrl, discover in H. rewrite Hv, Hl, Hs, Hg in H.
    cbn in H. destruct (close_fails pg); discriminate H. }
  destruct (interact_fails pg) as [e|] eqn:Hi.
  { unfold extractLiveStreamUrl, discover in H. rewrite Hv, Hl, Hs, Hg, Hi in H.
    cbn in H. destruct (close_fails pg); discriminate H. }
  rewrite (attempt_outcome pg url0 url v0) in H by done.
  unfold closing in H.
  destruct (strategies pg url v0) as [[r|e] ts] eqn:Hstr;
    destruct (close_fails pg); cbn in H; try discriminate H.
  injection H as -> <-.
  apply strategies_returns in Hstr as (Ht & Hu & Hiff).
  do 2 (split; [done|]). split.
  - intros Hdec. unfold diagnosed. do 2 apply Exists_cons_tl.
    apply Exists_app. left. by apply Hiff.
  - unfold diagnosed. intros Hx.
    apply Exists_cons in Hx as [Hx | Hx]; [discriminate|].
    apply Exists_cons in Hx as [Hx | Hx]; [discriminate|].
    apply Exists_app in Hx as [Hx | Hx]; [by apply Hiff|].
    apply Exists_cons in Hx as [Hx | Hx]; [discriminate|].
    by apply Exists_nil in Hx.
Qed.

(** The same for a string. *)
Lemma attempt_returns_string (url0 s : string) (t : list effect) :
  extractLiveStreamUrl pg url0 = (Return (Str s), t) →
  s ≠ "" ∧ (is_decoy s = true ↔ diagnosed t).
Proof.
  intros H. apply attempt_returns in H as (Ht & _ & Hiff).
  simpl in Ht. apply negb_true_iff, String.eqb_neq in Ht.
  split; [done|]. rewrite <- Hiff. unfold decoy_marked, is_decoy. simpl.
  apply String.eqb_neq in Ht. by rewrite Ht.
Qed.


End Returned.




(** ** Session identifiers *)

Section Start.

Variable h : host.

(** A started session always carries the decimal form of the clock reading
    as its id, whatever the address, the page and the server state. *)
Lemma start_stream_session_id (pg : page) (now : N) (url : option string) (w : world)
    (sessionId : string) (r : Result.t) :
  (start_stream h pg now url w).1 = Return (Started sessionId r) →
  sessionId = pretty now.
Proof.
  unfold start_stream, Server.try_catch.
  destruct (Js.truthy url); cbn -[pretty processLiveStream extractLiveStreamUrl];
    [|discriminate].
  unfold mbind, M_bind, lift.
  destruct (extractLiveStreamUrl pg (default "" url)) as [[v|e] t];
    cbn -[pretty processLiveStream]; try discriminate.
  destruct (processLiveStream h v (pretty now) _) as [[r'|e] w'];
    cbn -[pretty]; [|discriminate].
  by intros [= <- _].
Qed.

(** What the handler answers once the discovery attempt has returned. *)
Lemma start_stream_after_discovery (pg : page) (now : N) (url : option string) (w : world)
    (v : value) (t : list effect) :
  Js.truthy url = true →
  extractLiveStreamUrl pg (default "" url) = (Return v, t) →
  start_stream h pg now url w =
    match processLiveStream h v (pretty now) (log t w) with
    | (Return r, w') => (Return (Started (pretty now) r), w')
    | (Throw _, w') => (Return (Refused 500 "无法连接到抖音直播间"), w')
    end.
Proof.
  intros Hu He. unfold start_stream, Server.try_catch, mbind, M_bind, lift.
  rewrite Hu, He. cbn -[pretty processLiveStream].
  by destruct (processLiveStream h v (pretty now) (log t w)) as [[r|e] w'].
Qed.

(** [transcode] when nothing fails: a new command is built, started and
    stored under [sessionId], whatever was stored there. *)
Lemma transcode_sound (streamUrl : value) (sessionId : string) (w : world) :
  (streams_dir w = false → mkdir_fails h = None) →
  ffmpeg_fails h = None → run_fails h = None →
  transcode h streamUrl sessionId w =
    (Return {| Result.originalUrl := streamUrl;
               Result.transcodedUrl :=
                 Some ("http://localhost:" +:+ PORT h +:+ "/streams/" +:+ sessionId +:+ ".mp4");
               Result.ffmpegAvailable := true;
               Result.error := None |},
     {| activeLiveStreams := <[sessionId := next_handle w]> (activeLiveStreams w);
        listeners := <[next_handle w := sessionId]> (listeners w);
        next_handle := S (next_handle w);
        streams_dir := true;
        trace := trace w ++
                 (if streams_dir w then [] else [MkdirSync (outputDir h)]) ++
                 [Spawn (next_handle w) streamUrl
                    (path_join h [outputDir h; sessionId +:+ ".mp4"]);
                  TableSet sessionId (next_handle w)] |}).
Proof.
  intros Hm Hf Hr.
  unfold transcode, mbind, M_bind, existsSync, mkdirSync, ffmpeg, run, raise_if,
    Server.emit, table_set, log, mret, M_ret.
  rewrite Hf, Hr.
  destruct w as [tbl ls n dir t]. simpl in *.
  destruct dir; simpl.
  - by rewrite <- !app_assoc.
  - rewrite Hm by done. simpl. by rewrite <- !app_assoc.
Qed.

(** [processLiveStream] when nothing fails and the address has the method
    that line 837 calls. *)
Lemma processLiveStream_sound (streamUrl : value) (sessionId : string) (w : world) :
  Value.no_includes "streamUrl" streamUrl = None →
  ffmpegAvailable h = true →
  (streams_dir w = false → mkdir_fails h = None) →
  ffmpeg_fails h = None → run_fails h = None →
  processLiveStream h streamUrl sessionId w = transcode h streamUrl sessionId w.
Proof.
  intros Hu Ha Hm Hf Hr. rewrite processLiveStream_unfold, Hu, Ha.
  unfold Server.try_catch. cbn [negb].
  by rewrite (transcode_sound streamUrl sessionId w Hm Hf Hr).
Qed.

Lemma leaves_try_finally {A} (P : effect → Prop) (body : E A) (fin : E unit) :
  leaves P body → leaves P fin → leaves P (Browser.try_finally body fin).
Proof.
  unfold leaves, Browser.try_finally. destruct body as [r t], fin as [[[]|e] t'].
  - simpl. intros. by apply Forall_app.
  - simpl. intros. by apply Forall_app.
Qed.

(** A discovery attempt only drives the browser and writes the diagnostics. *)
Lemma attempt_browsing (pg : page) (url : string) :
  leaves browsing (extractLiveStreamUrl pg url).
Proof.
  unfold extractLiveStreamUrl.
  apply leaves_bind; [unfold leaves; by rewrite validate_trace|]. intros u.
  apply leaves_bind; [apply leaves_await|]. intros _.
  apply leaves_bind; [apply leaves_emit; exact I|]. intros _.
  apply leaves_try_finally.
  - apply leaves_try_catch; [|intros; apply leaves_throw].
    unfold discover, strategies, later_stages, dom_stage, network_stage, script_stage,
      api_stage, finish, accepted, still_missing, holds_decoy, includes.
    repeat first
      [ apply leaves_ret | apply leaves_throw | apply leaves_await
      | apply leaves_await_val
      | apply leaves_emit; exact I
      | apply leaves_bind; [| intros ?]
      | apply leaves_try_catch; [| intros ?]
      | match goal with
        | |- leaves _ (if ?b then _ else _) => destruct b
        | |- leaves _ (match ?x with _ => _ end) => destruct x
        end ].
  - apply leaves_bind; [apply leaves_emit; exact I | intros; apply leaves_await].
Qed.

(** So it sends no signal to any process. *)
Lemma discovery_kills_nothing (pg : page) (url : string) (p : handle) (w : world) :
  kills p (log (extractLiveStreamUrl pg url).2 w) = kills p w.
Proof.
  unfold kills, log. cbn [trace]. rewrite count_occ_app.
  assert (count_occ effect_eq_dec (extractLiveStreamUrl pg url).2 (Kill p "SIGTERM") = 0)
    as ->; [|lia].
  apply count_occ_not_In. intros Hin. apply list_elem_of_In in Hin.
  pose proof (attempt_browsing pg url) as Hb. unfold leaves in Hb.
  rewrite Forall_forall in Hb. exact (Hb _ Hin).
Qed.

End Start.

(** C9: (1) the id of a started session is the decimal form of the clock
    reading and nothing else, so two requests that read the same
    millisecond get the same id; (2) the handler does start a session under
    that id whenever the discovery attempt returns: its answer is the result
    of [processLiveStream] called with that id; (3) in a well-formed server
    state, when [processLiveStream] stores a session under an id that is
    already in the table, the entry now holds the new process, which is not
    the old one, and the effects of the call are the optional [mkdir], the
    [Spawn] and the [TableSet]: no signal is sent to the old process;
    (4) so two start requests handled one after the other in the same
    millisecond, on a host where nothing fails, both answer with the same
    id; after the second the table holds the second process under it, and
    the first process, which was spawned, has received no signal. *)
Theorem same_millisecond_replaces_session (h : host) :
  (∀ pg1 pg2 now url1 url2 w1 w2 sid1 sid2 r1 r2,
     (start_stream h pg1 now url1 w1).1 = Return (Started sid1 r1) →
     (start_stream h pg2 now url2 w2).1 = Return (Started sid2 r2) →
     sid1 = sid2 ∧ sid1 = pretty now) ∧
  (∀ pg now url w v t,
     Js.truthy url = true →
     extractLiveStreamUrl pg (default "" url) = (Return v, t) →
     ∃ r w',
       processLiveStream h v (pretty now) (log t w) = (Return r, w') ∧
       start_stream h pg now url w = (Return (Started (pretty now) r), w')) ∧
  (∀ streamUrl sessionId old w,
     ffmpegAvailable h = true →
     (streams_dir w = false → mkdir_fails h = None) →
     ffmpeg_fails h = None → run_fails h = None →
     well_formed w →
     activeLiveStreams w !! sessionId = Some old →
     ∃ r w',
       processLiveStream h (Str streamUrl) sessionId w = (Return r, w') ∧
       Result.error r = None ∧
       activeLiveStreams w' !! sessionId = Some (next_handle w) ∧
       next_handle w ≠ old ∧
       kills old w' = kills old w ∧
       trace w' = trace w ++
                  (if streams_dir w then [] else [MkdirSync (outputDir h)]) ++
                  [Spawn (next_handle w) (Str streamUrl)
                     (path_join h [outputDir h; sessionId +:+ ".mp4"]);
                   TableSet sessionId (next_handle w)]) ∧
  (∀ pg1 pg2 now url1 url2 w v1 v2 t1 t2,
     ffmpegAvailable h = true →
     mkdir_fails h = None → ffmpeg_fails h = None → run_fails h = None →
     Js.truthy url1 = true → Js.truthy url2 = true →
     extractLiveStreamUrl pg1 (default "" url1) = (Return v1, t1) →
     extractLiveStreamUrl pg2 (default "" url2) = (Return v2, t2) →
     ∃ r1 r2 w1 w2,
       start_stream h pg1 now url1 w = (Return (Started (pretty now) r1), w1) ∧
       start_stream h pg2 now url2 w1 = (Return (Started (pretty now) r2), w2) ∧
       Result.ffmpegAvailable r1 = true ∧ Result.ffmpegAvailable r2 = true ∧
       activeLiveStreams w1 !! pretty now = Some (next_handle w) ∧
       activeLiveStreams w2 !! pretty now = Some (S (next_handle w)) ∧
       kills (next_handle w) w2 = kills (next_handle w) w ∧
       trace w2 =
         trace w ++ t1 ++
         (if streams_dir w then [] else [MkdirSync (outputDir h)]) ++
         [Spawn (next_handle w) v1 (path_join h [outputDir h; pretty now +:+ ".mp4"]);
          TableSet (pretty now) (next_handle w)] ++
         t2 ++
         [Spawn (S (next_handle w)) v2 (path_join h [outputDir h; pretty now +:+ ".mp4"]);
          TableSet (pretty now) (S (next_handle w))]).
Proof.
  split; [|split; [|split]].
  - intros pg1 pg2 now url1 url2 w1 w2 sid1 sid2 r1 r2 H1 H2.
    apply start_stream_session_id in H1, H2. by subst.
  - intros pg now url w v t Hu He.
    rewrite (start_stream_after_discovery h pg now url w v t Hu He).
    apply attempt_returns in He as (_ & Hi & _).
    rewrite processLiveStream_unfold, Hi. unfold Server.try_catch.
    destruct (ffmpegAvailable h); cbn [negb]; [|by eexists _, _].
    destruct (transcode h v (pretty now) (log t w)) as [[r|e] w']; by eexists _, _.
  - intros streamUrl sessionId old w Ha Hm Hf Hr Hw Hold.
    destruct (Hw _ _ Hold) as [_ Hlt].
    eexists _, _. split.
    { rewrite (processLiveStream_sound h (Str streamUrl) sessionId w) by done.
      by rewrite (transcode_sound h (Str streamUrl) sessionId w Hm Hf Hr). }
    simpl. repeat split.
    + apply lookup_insert_eq.
    + lia.
    + unfold kills. simpl. rewrite !count_occ_app.
      destruct (streams_dir w); simpl;
        repeat (rewrite count_occ_cons_neq by done); simpl; lia.
  - intros pg1 pg2 now url1 url2 w v1 v2 t1 t2 Ha Hm Hf Hr Hu1 Hu2 He1 He2.
    pose proof (start_stream_after_discovery h pg1 now url1 w v1 t1 Hu1 He1) as S1.
    pose proof (discovery_kills_nothing pg1 (default "" url1) (next_handle w) w) as Hk1.
    rewrite He1 in Hk1. cbn [snd] in Hk1.
    pose proof (attempt_returns pg1 _ _ _ He1) as (_ & Hi1 & _).
    rewrite (processLiveStream_sound h v1 (pretty now) (log t1 w)) in S1 by done.
    rewrite (transcode_sound h v1 (pretty now) (log t1 w)) in S1 by done.
    match type of S1 with _ = (_, ?w1') => set (w1 := w1') in * end.
    pose proof (start_stream_after_discovery h pg2 now url2 w1 v2 t2 Hu2 He2) as S2.
    pose proof (discovery_kills_nothing pg2 (default "" url2) (next_handle w) w1) as Hk2.
    rewrite He2 in Hk2. cbn [snd] in Hk2.
    pose proof (attempt_returns pg2 _ _ _ He2) as (_ & Hi2 & _).
    rewrite (processLiveStream_sound h v2 (pretty now) (log t2 w1)) in S2 by done.
    rewrite (transcode_sound h v2 (pretty now) (log t2 w1)) in S2 by done.
    match type of S2 with _ = (_, ?w2') => set (w2 := w2') in * end.
    eexists _, _, w1, w2. split; [exact S1|]. split; [exact S2|].
    split; [done|]. split; [done|].
    split; [apply lookup_insert_eq|]. split; [apply lookup_insert_eq|].
    split.
    + unfold kills in *. subst w2 w1. cbn [trace log streams_dir next_handle] in *.
      rewrite (count_occ_app _ (_ ++ t2)), Hk2.
      rewrite (count_occ_app _ (trace w ++ t1)), Hk1.
      destruct (streams_dir w); cbn [app];
        repeat (rewrite count_occ_cons_neq by done); rewrite ?count_occ_nil; lia.
    + subst w2 w1. cbn [trace log streams_dir]. by rewrite <- !app_assoc.
Qed.

Lemma same_millisecond_replaces_session_witness :
  ("1700000000000" = "1700000000000" ∧ "1700000000000" = pretty 1700000000000%N) ∧
  (∃ r w',
     processLiveStream bare_host (Str "https://pull.example.com/a.flv")
       (pretty 1700000000000%N)
       (log [Launch; Goto "https://live.douyin.com/live/555"; Close] fresh_world) =
       (Return r, w') ∧
     start_stream bare_host flv_page 1700000000000
       (Some "https://live.douyin.com/live/555") fresh_world =
       (Return (Started (pretty 1700000000000%N) r), w')) ∧
  (∃ r1 r2 w1 w2,
     start_stream sound_host (with_observed ["https://pull.example.com/stream/a.flv"] quiet)
       1700000000000 (Some "https://live.douyin.com/1") fresh_world =
       (Return (Started "1700000000000" r1), w1) ∧
     start_stream sound_host (with_observed ["https://pull.example.com/stream/b.flv"] quiet)
       1700000000000 (Some "https://live.douyin.com/2") w1 =
       (Return (Started "1700000000000" r2), w2) ∧
     Result.ffmpegAvailable r1 = true ∧ Result.ffmpegAvailable r2 = true ∧
     activeLiveStreams w1 !! "1700000000000" = Some 0 ∧
     activeLiveStreams w2 !! "1700000000000" = Some 1 ∧
     kills 0 w2 = kills 0 fresh_world ∧
     trace w2 =
       [Launch; Goto "https://live.douyin.com/1"; Close;
        MkdirSync "/srv/app/public/streams";
        Spawn 0 (Str "https://pull.example.com/stream/a.flv")
          "/srv/app/public/streams/1700000000000.mp4";
        TableSet "1700000000000" 0;
        Launch; Goto "https://live.douyin.com/2"; Close;
        Spawn 1 (Str "https://pull.example.com/stream/b.flv")
          "/srv/app/public/streams/1700000000000.mp4";
        TableSet "1700000000000" 1]) ∧
  (∃ r w',
     processLiveStream sound_host (Str "https://pull.example.com/b.flv") "1700000000000"
       one_session = (Return r, w') ∧
     Result.error r = None ∧
     activeLiveStreams w' !! "1700000000000" = Some (next_handle one_session) ∧
     next_handle one_session ≠ 0 ∧
     kills 0 w' = kills 0 one_session ∧
     trace w' = trace one_session ++
                (if streams_dir one_session then [] else [MkdirSync (outputDir sound_host)]) ++
                [Spawn (next_handle one_session) (Str "https://pull.example.com/b.flv")
                   (path_join sound_host [outputDir sound_host; "1700000000000" +:+ ".mp4"]);
                 TableSet "1700000000000" (next_handle one_session)]).
Proof.
  split; [|split; [|split]].
  - apply (proj1 (same_millisecond_replaces_session bare_host)
             flv_page decoy_in_dom 1700000000000%N
             (Some "https://live.douyin.com/live/555") (Some "https://live.douyin.com/265")
             fresh_world one_session "1700000000000" "1700000000000"
             (passthrough (Str "https://pull.example.com/a.flv"))
             (passthrough (Str decoy_url)));
      reflexivity.
  - apply (proj1 (proj2 (same_millisecond_replaces_session bare_host))
             flv_page 1700000000000%N (Some "https://live.douyin.com/live/555")
             fresh_world (Str "https://pull.example.com/a.flv")
             [Launch; Goto "https://live.douyin.com/live/555"; Close]);
      reflexivity.
  - apply (proj2 (proj2 (proj2 (same_millisecond_replaces_session sound_host)))
             (with_observed ["https://pull.example.com/stream/a.flv"] quiet)
             (with_observed ["https://pull.example.com/stream/b.flv"] quiet)
             1700000000000%N (Some "https://live.douyin.com/1")
             (Some "https://live.douyin.com/2") fresh_world
             (Str "https://pull.example.com/stream/a.flv")
             (Str "https://pull.example.com/stream/b.flv")
             [Launch; Goto "https://live.douyin.com/1"; Close]
             [Launch; Goto "https://live.douyin.com/2"; Close]);
      reflexivity.
  - apply (proj1 (proj2 (proj2 (same_millisecond_replaces_session sound_host)))
             "https://pull.example.com/b.flv" "1700000000000" 0 one_session).
    + reflexivity.
    + reflexivity.
    + reflexivity.
    + reflexivity.
    + apply one_session_well_formed.
    + vm_compute. reflexivity.
Defined.

(** Two start requests handled in the same millisecond, from start-up: both
    answers carry the id [1700000000000]; process [0] is spawned and never
    signalled, and the table ends with process [1] alone. *)
Example two_starts_in_one_millisecond :
  let pg := with_observed ["https://pull.example.com/stream/a.flv"] quiet in
  let w1 := (start_stream sound_host pg 1700000000000 (Some "https://live.douyin.com/1")
               fresh_world).2 in
  let w2 := (start_stream sound_host pg 1700000000000 (Some "https://live.douyin.com/2")
               w1).2 in
  activeLiveStreams w2 !! "1700000000000" = Some 1 ∧
  trace w2 =
    [Launch; Goto "https://live.douyin.com/1"; Close;
     MkdirSync "/srv/app/public/streams";
     Spawn 0 (Str "https://pull.example.com/stream/a.flv")
       "/srv/app/public/streams/1700000000000.mp4";
     TableSet "1700000000000" 0;
     Launch; Goto "https://live.douyin.com/2"; Close;
     Spawn 1 (Str "https://pull.example.com/stream/a.flv")
       "/srv/app/public/streams/1700000000000.mp4";
     TableSet "1700000000000" 1].
Proof. vm_compute. split; reflexivity. Qed.

(** * Further properties of the discovery attempt *)

Section Client_and_server.

Lemma scheme_keeps_douyin (url : string) :
  Js.includes ("https://" +:+ url) "douyin.com" = Js.includes url "douyin.com".
Proof. reflexivity. Qed.

Lemma scheme_keeps_tiktok (url : string) :
  Js.includes ("https://" +:+ url) "tiktok.com" = Js.includes url "tiktok.com".
Proof. reflexivity. Qed.

Lemma scheme_has_http (url : string) : Js.includes ("https://" +:+ url) "http" = true.
Proof. reflexivity. Qed.

(** The check of the server accepts what it has normalised. *)
Lemma validate_idempotent (url u : string) :
  validate url = (Return u, []) → validate u = (Return u, []).
Proof.
  destruct (Js.includes url "douyin.com") eqn:Hd.
  { rewrite validate_recognised by auto. intros [= <-]. apply validate_recognised. auto. }
  destruct (Js.includes url "tiktok.com") eqn:Ht.
  { rewrite validate_recognised by auto. intros [= <-]. apply validate_recognised. auto. }
  rewrite validate_unrecognised by done.
  destruct (Js.includes url "http") eqn:Hh.
  - destruct (Js.includes url "/live/") eqn:Hl; [|discriminate].
    intros [= <-]. by rewrite validate_unrecognised, Hh, Hl.
  - destruct (String.prefix "live/" url || Js.includes url "/live/") eqn:Hl; [|discriminate].
    intros [= <-].
    rewrite validate_unrecognised by (by rewrite ?scheme_keeps_douyin, ?scheme_keeps_tiktok).
    by rewrite scheme_has_http, includes_live_after_scheme, Hl.
Qed.

Lemma client_agrees (url u : string) :
  Client.request_url url = Some u → validate url = (Return u, []).
Proof.
  unfold Client.request_url, validate.
  destruct (String.eqb url ""); [discriminate|].
  destruct (negb (Js.includes url "douyin.com") && negb (Js.includes url "tiktok.com"));
    [|by intros [= <-]].
  destruct (negb (Js.includes url "http")); cbn zeta;
    match goal with |- context [negb ?b] => destruct b end; cbn [negb];
    (discriminate || by intros [= <-]).
Qed.

End Client_and_server.

(** X1: whatever address the client sends is the address the server's own
    check computes from the input, and the server accepts it unchanged: the
    address passes the check of lines 93-101 as it is, with nothing
    prepended a second time. *)
Theorem client_request_passes_server (url u : string) :
  Client.request_url url = Some u →
  validate url = (Return u, []) ∧ validate u = (Return u, []).
Proof.
  intros H. apply client_agrees in H. split; [done|]. by apply (validate_idempotent url).
Qed.

Lemma client_request_passes_server_witness :
  validate "live.example.com/live/555" = (Return "https://live.example.com/live/555", []) ∧
  validate "https://live.example.com/live/555" =
    (Return "https://live.example.com/live/555", []).
Proof.
  apply (client_request_passes_server "live.example.com/live/555"
           "https://live.example.com/live/555").
  reflexivity.
Defined.

Section Room_id.

Lemma prefix_cons (a c : ascii) (needle s : string) :
  String.prefix (String a needle) (String c s) =
  if ascii_dec a c then String.prefix needle s else false.
Proof. reflexivity. Qed.

Lemma includes_cons_char (a c : ascii) (s : string) :
  a ≠ c → Js.includes (String c s) (String a "") = Js.includes s (String a "").
Proof.
  intros Hne.
  change (Js.includes (String c s) (String a ""))
    with (String.prefix (String a "") (String c s) || Js.includes s (String a "")).
  rewrite prefix_cons. by destruct (ascii_dec a c).
Qed.

Lemma take_segment_one_segment (s : string) : one_segment (take_segment s).
Proof.
  unfold one_segment. induction s as [|c s [IH1 IH2]]; [done|]. simpl take_segment.
  destruct (Ascii.eqb c "/") eqn:H1; [done|].
  destruct (Ascii.eqb c "?") eqn:H2; [done|]. cbn [orb].
  apply Ascii.eqb_neq in H1, H2.
  split; rewrite includes_cons_char by congruence; done.
Qed.

Lemma take_segment_prefix (s : string) : String.prefix (take_segment s) s = true.
Proof.
  induction s as [|c s IH]; [done|]. simpl take_segment.
  destruct (Ascii.eqb c "/" || Ascii.eqb c "?"); [done|].
  rewrite prefix_cons. by destruct (ascii_dec c c).
Qed.

Lemma substring_all (s : string) : String.substring 0 (String.length s) s = s.
Proof. induction s as [|c s IH]; [done|]. simpl. by rewrite IH. Qed.

Lemma prefix_append (a b s : string) :
  String.prefix b s = true → String.prefix (a +:+ b) (a +:+ s) = true.
Proof.
  intros H. induction a as [|c a IH]; [done|].
  change (String.prefix (String c (a +:+ b)) (String c (a +:+ s)) = true).
  rewrite prefix_cons. by destruct (ascii_dec c c).
Qed.

Lemma includes_prefix (s needle : string) :
  String.prefix needle s = true → Js.includes s needle = true.
Proof. intros H. destruct s; [by rewrite includes_nil | by rewrite includes_cons, H]. Qed.

Lemma includes_tail (c : ascii) (s needle : string) :
  Js.includes s needle = true → Js.includes (String c s) needle = true.
Proof. intros H. rewrite includes_cons, H. apply orb_true_r. Qed.

Lemma room_id_here_sound (url id : string) :
  room_id_here url = Some id →
  id ≠ "" ∧ one_segment id ∧ String.prefix ("/live/" +:+ id) url = true.
Proof.
  unfold room_id_here.
  destruct (String.prefix "/live/" url) eqn:Hp; [|discriminate].
  apply prefix_app in Hp as [rest ->].
  change (String.length ("/live/" +:+ rest) - 6) with (String.length rest - 0).
  rewrite Nat.sub_0_r.
  change (String.substring 6 (String.length rest) ("/live/" +:+ rest))
    with (String.substring 0 (String.length rest) rest).
  rewrite substring_all.
  destruct (String.eqb (take_segment rest) "") eqn:He; [discriminate|].
  intros [= <-]. apply String.eqb_neq in He.
  split; [done|]. split; [apply take_segment_one_segment|].
  apply prefix_append, take_segment_prefix.
Qed.

End Room_id.

(** X2: the room id read from the address (line 752) is never empty,
    contains neither [/] nor [?], and is what follows an occurrence of
    [/live/] in the address. *)
Theorem room_id_sound (url id : string) :
  room_id url = Some id →
  id ≠ "" ∧ one_segment id ∧ Js.includes url ("/live/" +:+ id) = true.
Proof.
  induction url as [|c url IH]; [discriminate|].
  change (room_id (String c url))
    with (match room_id_here (String c url) with
          | Some id => Some id
          | None => room_id url
          end).
  destruct (room_id_here (String c url)) eqn:H.
  - intros [= <-]. apply room_id_here_sound in H as (Hne & Hseg & Hp).
    split; [done|]. split; [done|]. by apply includes_prefix.
  - intros Hr. destruct (IH Hr) as (Hne & Hseg & Hi).
    split; [done|]. split; [done|]. by apply includes_tail.
Qed.

Lemma room_id_sound_witness :
  "555" ≠ "" ∧ one_segment "555" ∧
  Js.includes "https://live.douyin.com/live/555?from=web" ("/live/" +:+ "555") = true.
Proof.
  apply (room_id_sound "https://live.douyin.com/live/555?from=web" "555").
  reflexivity.
Defined.

(** X3: an exception thrown by DOM extraction, by the in-page script or by
    the backend query never leaves the attempt: the attempt has the outcome
    and the effects it has when that stage finds nothing. *)
Theorem stage_exceptions_are_swallowed (pg : page) (url0 : string) (e : exn) :
  (∀ src, extractLiveStreamUrl (with_dom (inl e) src pg) url0 =
          extractLiveStreamUrl (with_dom (inr false) src pg) url0) ∧
  extractLiveStreamUrl (with_dom (inr true) (inl e) pg) url0 =
    extractLiveStreamUrl (with_dom (inr true) (inr Null) pg) url0 ∧
  extractLiveStreamUrl (with_script (inl e) pg) url0 =
    extractLiveStreamUrl (with_script (inr Null) pg) url0 ∧
  extractLiveStreamUrl (with_api None (inl e) pg) url0 =
    extractLiveStreamUrl (with_api None (inr None) pg) url0.
Proof.
  split; [|split; [|split]]; [intros src|..]; reflexivity.
Qed.

(** X4: a failure before DOM extraction ends the attempt with that very
    error (unless closing the browser fails in turn). A failed launch leaves
    nothing to close; a failed set-up or navigation closes the browser
    without having navigated; nothing is fetched and no diagnostics are
    written. *)
Theorem early_failures_are_fatal (pg : page) (url0 url : string) (e : exn) :
  validate url0 = (Return url, []) →
  (launch_fails pg = Some e → extractLiveStreamUrl pg url0 = (Throw e, [])) ∧
  (launch_fails pg = None → setup_fails pg = Some e →
     extractLiveStreamUrl pg url0 = (closing pg (Throw e), [Launch; Close])) ∧
  (launch_fails pg = None → setup_fails pg = None → goto_fails pg = Some e →
     extractLiveStreamUrl pg url0 = (closing pg (Throw e), [Launch; Close])) ∧
  (launch_fails pg = None → setup_fails pg = None → goto_fails pg = None →
   interact_fails pg = Some e →
     extractLiveStreamUrl pg url0 = (closing pg (Throw e), [Launch; Goto url; Close])).
Proof.
  intros Hv. unfold extractLiveStreamUrl, discover, closing. rewrite Hv.
  split; [|split; [|split]].
  - by intros ->.
  - intros -> ->. cbn. by destruct (close_fails pg).
  - intros -> -> ->. cbn. by destruct (close_fails pg).
  - intros -> -> -> ->. cbn. by destruct (close_fails pg).
Qed.

Lemma early_failures_are_fatal_witness :
  extractLiveStreamUrl
    (with_goto (Some "Navigation timeout of 60000 ms exceeded") quiet)
    "https://live.douyin.com/555" =
    (Throw "Navigation timeout of 60000 ms exceeded", [Launch; Close]).
Proof.
  apply (proj1 (proj2 (proj2 (early_failures_are_fatal
           (with_goto (Some "Navigation timeout of 60000 ms exceeded") quiet)
           "https://live.douyin.com/555" "https://live.douyin.com/555"
           "Navigation timeout of 60000 ms exceeded" eq_refl))));
    reflexivity.
Defined.

(** X5: unlike the exceptions of the other stages, a failure while the CDP
    session is opened or awaited is fatal. When DOM extraction left nothing
    real and both buckets are empty, the attempt ends with that error: the
    in-page script and the backend query are not tried and no diagnostics
    are written. *)
Theorem cdp_failure_is_fatal (pg : page) (url0 url : string) (v : value) (e : exn) :
  cooperative pg →
  validate url0 = (Return url, []) →
  dom_stage pg = (Return v, []) →
  accepted "streamUrl" v = (Return false, []) →
  liveStreamRequests (observe (observed pg)) = [] →
  mediaRequests (observe (observed pg)) = [] →
  cdp_fails pg = Some e →
  extractLiveStreamUrl pg url0 = (Throw e, [Launch; Goto url; Close]).
Proof.
  intros Hc Hv Hd Hacc Hl Hm He.
  rewrite (attempt_shape pg url0 url v Hc Hv Hd).
  unfold strategies, network_stage. rewrite Hacc, bind_return. cbn match.
  by rewrite Hl, Hm, He.
Qed.

Lemma cdp_failure_is_fatal_witness :
  extractLiveStreamUrl (with_cdp (Some "Target closed") [] quiet) "https://live.douyin.com/live/555" =
    (Throw "Target closed", [Launch; Goto "https://live.douyin.com/live/555"; Close]).
Proof.
  apply (cdp_failure_is_fatal (with_cdp (Some "Target closed") [] quiet)
           "https://live.douyin.com/live/555" "https://live.douyin.com/live/555" Null
           "Target closed");
    try reflexivity. by split.
Defined.

Section Response_choice.

Lemma score_lt (x y : string) :
  (score x <? score y) = negb (stream_ext x) && stream_ext y.
Proof. unfold score. by destruct (stream_ext x), (stream_ext y). Qed.

Lemma head_insert_by_score (x : string) (l : list string) :
  head (insert_by_score x l) =
    match head l with
    | Some y => if negb (stream_ext x) && stream_ext y then Some y else Some x
    | None => Some x
    end.
Proof. destruct l as [|y l]; [done|]. simpl. rewrite score_lt. by destruct (_ && _). Qed.

(** The head of the sorted list: the first URL with a streaming extension,
    or else the first URL. *)
Lemma head_sort_by_score (l : list string) :
  head (sort_by_score l) =
    match head (filter (λ u, stream_ext u = true) l) with
    | Some u => Some u
    | None => head l
    end.
Proof.
  induction l as [|x l IH]; [done|].
  change (sort_by_score (x :: l)) with (insert_by_score x (sort_by_score l)).
  rewrite head_insert_by_score, IH, filter_cons.
  destruct (stream_ext x) eqn:Hx; case_decide; try congruence; cbn [negb andb head].
  - by destruct (head (filter _ l)), (head l).
  - destruct (head (filter (λ u, stream_ext u = true) l)) as [y|] eqn:Hy.
    + apply head_Some_elem_of, list_elem_of_filter in Hy as [-> _]. done.
    + destruct l as [|z l]; [done|]. cbn [head].
      rewrite filter_cons in Hy. case_decide as Hz; [done|].
      by destruct (stream_ext z).
Qed.

End Response_choice.

(** X6: what one JSON response does to [streamUrl] (lines 645-660): among
    its media URLs without the decoy marker, the first with a streaming
    extension (.m3u8 or .flv) is taken, or else the first of them; with
    none, [streamUrl] stays as it was. *)
Theorem response_choice (streamUrl : value) (mediaUrls : list string) :
  on_response streamUrl mediaUrls =
    match head (filter (λ u, stream_ext u = true) (undecoyed mediaUrls)) with
    | Some u => Str u
    | None =>
        match head (undecoyed mediaUrls) with
        | Some u => Str u
        | None => streamUrl
        end
    end.
Proof.
  unfold on_response, undecoyed.
  destruct mediaUrls as [|x l]; [done|]. cbn [length Nat.ltb Nat.leb].
  set (nd := filter (λ url, is_decoy url = false) (x :: l)).
  pose proof (head_sort_by_score nd) as H.
  destruct (sort_by_score nd) as [|y s]; cbn [length Nat.ltb Nat.leb head] in *.
  - destruct (head (filter _ nd)); [done|]. by rewrite <- H.
  - destruct (head (filter _ nd)); [congruence|]. by rewrite <- H.
Qed.

(** * Further properties of the session manager *)

(** X7: [processLiveStream], given a string, stores a session exactly when
    its result reports [ffmpegAvailable]: the table then holds the new
    process under the given id and the result carries a transcoded URL;
    otherwise (passthrough, or any failure inside the [try]) the table is
    what it was and [transcodedUrl] is [null]. *)
Theorem session_stored_iff_transcoding (h : host) (streamUrl sessionId : string) (w : world) :
  ∃ r w',
    processLiveStream h (Str streamUrl) sessionId w = (Return r, w') ∧
    Result.originalUrl r = Str streamUrl ∧
    activeLiveStreams w' =
      (if Result.ffmpegAvailable r
       then <[sessionId := next_handle w]> (activeLiveStreams w)
       else activeLiveStreams w) ∧
    (Result.ffmpegAvailable r = true ↔ is_Some (Result.transcodedUrl r)) ∧
    (Result.ffmpegAvailable r = true → Result.error r = None).
Proof.
  rewrite processLiveStream_unfold. cbn [Value.no_includes]. unfold Server.try_catch.
  destruct (ffmpegAvailable h); cbn [negb].
  2: { eexists _, _. split; [done|]. simpl.
       repeat split; try done; try (intros [? ?]; done). }
  unfold transcode, mbind, M_bind, existsSync, mkdirSync, ffmpeg, run, raise_if,
    Server.emit, Server.throw, table_set, log, mret, M_ret.
  destruct w as [tbl ls n dir t]. simpl.
  destruct dir, (mkdir_fails h), (ffmpeg_fails h), (run_fails h); simpl;
    eexists _, _; (split; [done|]); simpl; repeat split; try done;
    try (intros [? ?]; done); eauto.
Qed.

Section Frame.

Lemma handle_event_listeners (ev : event) (w : world) :
  listeners (handle_event ev w).2 = listeners w.
Proof.
  rewrite handle_event_world.
  destruct (cleanup_target (listeners w) ev) as [sid|]; [|done].
  by destruct (activeLiveStreams w !! sid).
Qed.

(** An entry that is gone stays gone. *)
Lemma run_events_stays_absent (sid : string) (evs : list event) (w : world) :
  activeLiveStreams w !! sid = None →
  activeLiveStreams (run_events evs w) !! sid = None.
Proof.
  revert w. induction evs as [|ev evs IH]; intros w H; [done|].
  simpl. apply IH. rewrite handle_event_world.
  destruct (cleanup_target (listeners w) ev) as [sid'|]; [|done].
  destruct (activeLiveStreams w !! sid') as [q|]; [|done].
  simpl. rewrite lookup_delete. by case_decide.
Qed.

(** An event for a session removes its entry. *)
Lemma run_events_targeted (sid : string) (evs : list event) (w : world) :
  Exists (λ ev, cleanup_target (listeners w) ev = Some sid) evs →
  activeLiveStreams (run_events evs w) !! sid = None.
Proof.
  revert w. induction evs as [|ev evs IH]; intros w Hex.
  { by apply Exists_nil in Hex. }
  simpl. apply Exists_cons in Hex as [Hex | Hex].
  - apply run_events_stays_absent. rewrite handle_event_world, Hex.
    destruct (activeLiveStreams w !! sid) as [q|] eqn:Hq; [|done].
    simpl. apply lookup_delete_eq.
  - apply IH. by rewrite handle_event_listeners.
Qed.

Lemma run_events_untargeted (sid : string) (evs : list event) (w : world) :
  Forall (λ ev, cleanup_target (listeners w) ev ≠ Some sid) evs →
  activeLiveStreams (run_events evs w) !! sid = activeLiveStreams w !! sid.
Proof.
  revert w. induction evs as [|ev evs IH]; intros w Hall; [done|].
  apply Forall_cons in Hall as [Hev Hall]. simpl.
  rewrite IH by (by rewrite handle_event_listeners).
  rewrite handle_event_world.
  destruct (cleanup_target (listeners w) ev) as [sid'|]; [|done].
  destruct (activeLiveStreams w !! sid') as [q|]; [|done].
  simpl. apply lookup_delete_ne. congruence.
Qed.

Lemma run_events_untargeted_kills (sid : string) (p : handle) (evs : list event) (w : world) :
  well_formed w →
  activeLiveStreams w !! sid = Some p →
  Forall (λ ev, cleanup_target (listeners w) ev ≠ Some sid) evs →
  kills p (run_events evs w) = kills p w.
Proof.
  revert w. induction evs as [|ev evs IH]; intros w Hw Hp Hall; [done|].
  apply Forall_cons in Hall as [Hev Hall]. simpl.
  pose proof (handle_event_well_formed ev w Hw) as Hw'.
  pose proof (handle_event_listeners ev w) as Hl.
  rewrite handle_event_world in *.
  destruct (cleanup_target (listeners w) ev) as [sid'|]; [|by apply IH].
  destruct (activeLiveStreams w !! sid') as [q|] eqn:Hq; [|by apply IH].
  assert (sid' ≠ sid) by congruence.
  assert (q ≠ p).
  { intros ->. by apply (well_formed_owner w sid p Hw Hp) in Hq. }
  rewrite IH; [| done | simpl; by rewrite lookup_delete_ne | by rewrite Hl].
  rewrite kills_cleaned, decide_False by done. lia.
Qed.

End Frame.

(** X8: events that are not for a session leave it alone. In a well-formed
    state, after any sequence of stop requests and callbacks none of which
    targets [sessionId], the entry of [sessionId] is what it was and its
    process has received no further signal. *)
Theorem other_sessions_are_untouched (sessionId : string) (p : handle) (evs : list event)
    (w : world) :
  well_formed w →
  activeLiveStreams w !! sessionId = Some p →
  Forall (λ ev, cleanup_target (listeners w) ev ≠ Some sessionId) evs →
  activeLiveStreams (run_events evs w) !! sessionId = Some p ∧
  kills p (run_events evs w) = kills p w.
Proof.
  intros Hw Hp Hall. split.
  - by rewrite run_events_untargeted.
  - by apply (run_events_untargeted_kills sessionId).
Qed.

Lemma two_sessions_well_formed : well_formed two_sessions.
Proof. apply processLiveStream_well_formed, one_session_well_formed. Qed.

Lemma other_sessions_are_untouched_witness :
  activeLiveStreams
    (run_events [StopRequest "1700000000001"; ProcessEnd 1; StopRequest "nobody"] two_sessions)
    !! "1700000000000" = Some 0 ∧
  kills 0 (run_events [StopRequest "1700000000001"; ProcessEnd 1; StopRequest "nobody"]
             two_sessions) = kills 0 two_sessions.
Proof.
  apply (other_sessions_are_untouched "1700000000000" 0 _ two_sessions).
  - apply two_sessions_well_formed.
  - vm_compute. reflexivity.
  - repeat constructor; vm_compute; discriminate.
Defined.

Section Shutdown.

Lemma cleanupStream_returns (sid : string) (w : world) :
  cleanupStream sid w = (Return (), (handle_event (StopRequest sid) w).2).
Proof.
  rewrite handle_event_world. cbn [cleanup_target].
  destruct (activeLiveStreams w !! sid) as [p|] eqn:H.
  - by apply cleanupStream_present.
  - by apply cleanupStream_absent.
Qed.

(** The loop of the shutdown handler is a stop request for every key. *)
Lemma cleanup_all_events (order : list string) (w : world) :
  cleanup_all order w = (Return (), run_events (map StopRequest order) w).
Proof.
  revert w. induction order as [|sid order IH]; intros w; [done|].
  cbn [cleanup_all map run_events]. unfold mbind, M_bind.
  by rewrite cleanupStream_returns, IH.
Qed.

End Shutdown.

(** X9: the loop of the SIGTERM handler (lines 1067-1069), run over the
    keys of the table of a well-formed state, returns, leaves the table
    empty, and has sent SIGTERM exactly once to every process that was
    registered. *)
Theorem shutdown_cleans_every_session (order : list string) (w : world) :
  well_formed w →
  (∀ sid, sid ∈ order ↔ is_Some (activeLiveStreams w !! sid)) →
  ∃ w',
    cleanup_all order w = (Return (), w') ∧
    activeLiveStreams w' = ∅ ∧
    ∀ sid p, activeLiveStreams w !! sid = Some p → kills p w' = S (kills p w).
Proof.
  intros Hw Hkeys. eexists. split; [apply cleanup_all_events|]. split.
  - apply map_eq. intros sid. rewrite lookup_empty.
    destruct (activeLiveStreams w !! sid) as [p|] eqn:Hp.
    + apply run_events_targeted. apply Exists_exists.
      exists (StopRequest sid). split; [|done].
      apply list_elem_of_fmap. exists sid. split; [done|]. apply Hkeys. by rewrite Hp.
    + by apply run_events_stays_absent.
  - intros sid p Hp.
    destruct (run_events_present sid p (map StopRequest order) w Hp) as (_ & Hk & _);
      [by apply well_formed_owner | | done].
    apply Exists_exists. exists (StopRequest sid). split; [|done].
    apply list_elem_of_fmap. exists sid. split; [done|]. apply Hkeys. by rewrite Hp.
Qed.

Lemma shutdown_cleans_every_session_witness :
  ∃ w',
    cleanup_all ["1700000000000"; "1700000000001"] two_sessions = (Return (), w') ∧
    activeLiveStreams w' = ∅ ∧
    ∀ sid p, activeLiveStreams two_sessions !! sid = Some p →
             kills p w' = S (kills p two_sessions).
Proof.
  apply (shutdown_cleans_every_session ["1700000000000"; "1700000000001"] two_sessions).
  - apply two_sessions_well_formed.
  - intros sid.
    change (activeLiveStreams two_sessions)
      with (<["1700000000001" := 1]> (<["1700000000000" := 0]> (∅ : gmap string handle))).
    rewrite !elem_of_cons, elem_of_nil.
    rewrite !lookup_insert_is_Some', lookup_empty. split.
    + intros [-> | [-> | []]]; auto.
    + intros [<- | [<- | [x Hx]]]; [auto | auto | discriminate].
Defined.

Section Status.

Lemma stream_status_present (sid : string) (p : handle) (w : world) :
  activeLiveStreams w !! sid = Some p → stream_status sid w = (Return streaming, w).
Proof.
  intros H. unfold stream_status, mbind, M_bind, table_has.
  by rewrite bool_decide_eq_true_2 by (rewrite H; eauto).
Qed.

Lemma stream_status_absent (sid : string) (w : world) :
  activeLiveStreams w !! sid = None → stream_status sid w = (Return no_stream, w).
Proof.
  intros H. unfold stream_status, mbind, M_bind, table_has.
  rewrite bool_decide_eq_false_2; [done|]. rewrite H. by intros [? ?].
Qed.

End Status.

(** X10: start, ask, stop, ask. After [processLiveStream] has reported
    [ffmpegAvailable], the status handler answers that the session is
    streaming; the stop handler then answers success, sends SIGTERM to the
    very process that was started, and the status handler answers 404. If
    the id was not in the table before the start, the table is back to what
    it was. The status handler never changes the state. *)
Theorem start_status_stop (h : host) (streamUrl : value) (sessionId : string)
    (w w1 : world) (r : Result.t) :
  processLiveStream h streamUrl sessionId w = (Return r, w1) →
  Result.ffmpegAvailable r = true →
  stream_status sessionId w1 = (Return streaming, w1) ∧
  ∃ w2,
    stop_stream sessionId w1 = (Return stopped, w2) ∧
    trace w2 = trace w1 ++ [Kill (next_handle w) "SIGTERM"; TableDelete sessionId] ∧
    stream_status sessionId w2 = (Return no_stream, w2) ∧
    (activeLiveStreams w !! sessionId = None → activeLiveStreams w2 = activeLiveStreams w).
Proof.
  intros Hp Hav.
  assert (Hu : Value.no_includes "streamUrl" streamUrl = None).
  { rewrite processLiveStream_unfold in Hp.
    by destruct (Value.no_includes "streamUrl" streamUrl). }
  destruct (processLiveStream_stores h streamUrl sessionId w Hu)
    as (r' & w' & Hp' & _ & Htbl).
  rewrite Hp in Hp'. injection Hp' as <- <-. rewrite Hav in Htbl.
  assert (Hl : activeLiveStreams w1 !! sessionId = Some (next_handle w)).
  { rewrite Htbl. apply lookup_insert_eq. }
  split; [by apply (stream_status_present _ (next_handle w))|].
  exists (cleaned sessionId (next_handle w) w1).
  split; [by apply stop_stream_present|]. split; [done|]. split.
  - apply stream_status_absent. simpl. apply lookup_delete_eq.
  - intros Hnone. simpl. rewrite Htbl. by apply delete_insert_id.
Qed.

Lemma start_status_stop_witness :
  stream_status "1700000000000" one_session = (Return streaming, one_session) ∧
  ∃ w2,
    stop_stream "1700000000000" one_session = (Return stopped, w2) ∧
    trace w2 = trace one_session ++
               [Kill (next_handle fresh_world) "SIGTERM"; TableDelete "1700000000000"] ∧
    stream_status "1700000000000" w2 = (Return no_stream, w2) ∧
    (activeLiveStreams fresh_world !! "1700000000000" = None →
     activeLiveStreams w2 = activeLiveStreams fresh_world).
Proof.
  eapply (start_status_stop sound_host (Str "https://pull.example.com/a.flv")
            "1700000000000" fresh_world one_session); reflexivity.
Defined.

(** X11: the REST start handler always answers. When it refuses, no session
    has been stored and no command object created: the table, the callbacks
    and the next handle are what they were, and the trace has grown by the
    effects of the discovery attempt only (by nothing when the address is
    missing, which is the only case answered with 400). *)
Theorem refused_start_stores_nothing (h : host) (pg : page) (now : N) (url : option string)
    (w : world) :
  ∃ answer w',
    start_stream h pg now url w = (Return answer, w') ∧
    ∀ status message, answer = Refused status message →
      activeLiveStreams w' = activeLiveStreams w ∧
      listeners w' = listeners w ∧
      next_handle w' = next_handle w ∧
      trace w' = trace w ++
                 (if Js.truthy url then (extractLiveStreamUrl pg (default "" url)).2 else []) ∧
      (status = 400 ↔ Js.truthy url = false).
Proof.
  unfold start_stream, Server.try_catch.
  destruct (Js.truthy url); cbn -[pretty processLiveStream extractLiveStreamUrl].
  2: { eexists _, _. split; [done|]. intros status message [= <- <-].
       by rewrite app_nil_r. }
  unfold mbind, M_bind, lift.
  destruct (extractLiveStreamUrl pg (default "" url)) as [[v|e] t];
    cbn -[pretty processLiveStream].
  - destruct (Value.no_includes "streamUrl" v) as [e|] eqn:Hu.
    + rewrite processLiveStream_unfold, Hu.
      eexists _, _. split; [done|]. intros status message [= <- <-]. by simpl.
    + destruct (processLiveStream_stores h v (pretty now) (log t w) Hu)
        as (r & w' & -> & _).
      eexists _, _. split; [done|]. discriminate.
  - eexists _, _. split; [done|]. intros status message [= <- <-]. by simpl.
Qed.

Section Socket_ids.

Lemma pretty_N_char_digit (x : N) : digits (String (pretty_N_char x) "") = true.
Proof. unfold pretty_N_char. by repeat case_match. Qed.

Lemma pretty_N_go_digits (x : N) (s : string) :
  digits s = true → digits (pretty_N_go x s) = true.
Proof.
  revert s. induction (N.lt_wf_0 x) as [x _ IH]; intros s Hs.
  assert (x = 0 ∨ 0 < x)%N as [->|?] by lia.
  - by rewrite pretty_N_go_0.
  - rewrite pretty_N_go_step by done. apply IH.
    { by apply N.div_lt. }
    pose proof (pretty_N_char_digit (x `mod` 10)) as Hc.
    cbn [digits] in *. rewrite andb_true_r in Hc. by rewrite Hc, Hs.
Qed.

(** The decimal form of a clock reading has digits only. *)
Lemma pretty_digits (n : N) : digits (pretty n) = true.
Proof.
  unfold pretty, pretty_N. case_decide; [done|]. by apply pretty_N_go_digits.
Qed.

(** Digits up to the first dash determine both sides of the dash. *)
Lemma dash_splits (a b s t : string) :
  digits a = true → digits b = true →
  a +:+ "-" +:+ s = b +:+ "-" +:+ t → a = b ∧ s = t.
Proof.
  revert b. induction a as [|c a IH]; intros [|d b] Ha Hb Heq;
    unfold String.append in Heq; fold String.append in Heq.
  - by injection Heq as ->.
  - exfalso. injection Heq as <- _. by vm_compute in Hb.
  - exfalso. injection Heq as -> _. by vm_compute in Ha.
  - injection Heq as -> Heq.
    cbn [digits] in Ha, Hb. apply andb_true_iff in Ha as [_ Ha], Hb as [_ Hb].
    destruct (IH b Ha Hb Heq) as [-> ->]. done.
Qed.

Lemma digits_no_dash (a s : string) : digits (a +:+ "-" +:+ s) = false.
Proof.
  induction a as [|c a IH]; [done|].
  change (digits (String c (a +:+ "-" +:+ s)) = false).
  cbn [digits]. rewrite IH. apply andb_false_r.
Qed.

End Socket_ids.

(** X12: the session id of the [join-stream] handler (line 1035)
    determines both the clock reading and the socket: two joins get the same
    id only from the same socket in the same millisecond, although the socket
    id may itself contain dashes. Such an id is never the id the REST handler
    gives (line 968), whatever the clock reads. *)
Theorem socket_session_ids_are_distinct (now1 now2 : N) (socket1 socket2 : string) :
  (socket_session_id now1 socket1 = socket_session_id now2 socket2 →
   now1 = now2 ∧ socket1 = socket2) ∧
  socket_session_id now1 socket1 ≠ pretty now2.
Proof.
  unfold socket_session_id. split.
  - intros H. apply dash_splits in H as [H ->]; try apply pretty_digits.
    split; [|done]. by apply (inj pretty).
  - intros H. pose proof (pretty_digits now2) as Hd.
    rewrite <- H, digits_no_dash in Hd. discriminate.
Qed.

(** X13: when the discovery attempt throws, the socket handler passes the
    message of that error on to the client, whereas the REST handler answers
    500 with one fixed message; neither stores a session, and both leave the
    effects of the attempt in the trace. *)
Theorem discovery_error_reporting (h : host) (pg : page) (now : N) (socket_id : string)
    (url : option string) (e : exn) (t : list effect) (w : world) :
  Js.truthy url = true →
  extractLiveStreamUrl pg (default "" url) = (Throw e, t) →
  join_stream h pg now socket_id url w = (Return (SocketError e), log t w) ∧
  start_stream h pg now url w = (Return cannot_connect, log t w).
Proof.
  intros Hu He. unfold join_stream, start_stream, Server.try_catch, mbind, M_bind, lift.
  rewrite Hu, He. done.
Qed.

Lemma discovery_error_reporting_witness :
  join_stream sound_host quiet 1700000000000 "Zx-3_q" (Some "example.com/room/1") fresh_world =
    (Return (SocketError invalid_address), log [] fresh_world) ∧
  start_stream sound_host quiet 1700000000000 (Some "example.com/room/1") fresh_world =
    (Return cannot_connect, log [] fresh_world).
Proof.
  apply (discovery_error_reporting sound_host quiet 1700000000000 "Zx-3_q"
           (Some "example.com/room/1") invalid_address [] fresh_world);
    reflexivity.
Defined.

(** * Properties of the evaluation inside the page *)

Section Page_values.

(** Induction on a value with the hypothesis for every field of an object. *)
Lemma jsval_fields_ind (P : jsval → Prop) :
  P JNull → (∀ b, P (JPrim b)) → (∀ s, P (JStr s)) →
  (∀ fields, Forall (λ kv, P kv.2) fields → P (JObj fields)) →
  ∀ v, P v.
Proof.
  intros HN HP HS HO. fix IH 1. intros [| b | s | fields]; [done.. |].
  apply HO. revert fields. fix IHf 1. intros [|[k v] fields]; constructor.
  - apply IH.
  - apply IHf.
Qed.

Lemma first_of_Some {A B} (f : A → option B) (l : list A) (b : B) :
  Dom.first_of f l = Some b → ∃ a, a ∈ l ∧ f a = Some b.
Proof.
  induction l as [|a l IH]; [done|]. simpl.
  destruct (f a) as [b'|] eqn:Hf.
  - intros [= <-]. exists a. split; [left | done].
  - intros H. destruct (IH H) as (a' & Hin & Ha'). exists a'. split; [by right | done].
Qed.

Lemma usable_real (u : string) : Dom.usable (Some u) = true → real_url u.
Proof.
  unfold Dom.usable, real_url, is_decoy. simpl.
  destruct (String.eqb u "") eqn:He; [done|]. apply String.eqb_neq in He.
  simpl. by destruct (Js.includes u decoy_marker).
Qed.

Lemma element_url_real (el : Dom.element) (u : string) :
  Dom.element_url el = Some u → real_url u.
Proof.
  unfold Dom.element_url.
  destruct (Dom.usable (Dom.src el)) eqn:H1.
  { intros H. rewrite H in H1. by apply usable_real. }
  destruct (Dom.usable (Dom.dataset_src el)) eqn:H2.
  { intros H. rewrite H in H2. by apply usable_real. }
  destruct (Dom.usable (Dom.currentSrc el)) eqn:H3; [|done].
  intros H. rewrite H in H3. by apply usable_real.
Qed.

Lemma scan_elements_real (doc : Dom.document) (u : string) :
  Dom.scan_elements doc = Some u → real_url u.
Proof.
  unfold Dom.scan_elements. intros H.
  apply first_of_Some in H as (selector & _ & H).
  apply first_of_Some in H as (el & _ & H). by apply element_url_real in H.
Qed.

Lemma config_path_url_real (config : jsval) (path u : string) :
  Dom.config_path_url config path = Some u → real_url u.
Proof.
  unfold Dom.config_path_url, real_url, is_decoy.
  destruct (Dom.getDeepProperty config path) as [| |url|]; try done.
  destruct (String.eqb url "") eqn:He; [done|]. apply String.eqb_neq in He.
  cbn [negb andb]. destruct (_ || _); [|done].
  destruct (Js.includes url decoy_marker) eqn:Hd; [done|].
  intros [= <-]. by rewrite Hd.
Qed.

Lemma config_url_real (doc : Dom.document) (u : string) :
  Dom.config_url doc = Some u → real_url u.
Proof.
  unfold Dom.config_url. cbv zeta.
  match goal with |- context [Dom.truthy ?c] =>
    match c with (if _ then _ else _) => destruct (Dom.truthy c); [|done] end end.
  intros H. apply first_of_Some in H as (path & _ & H).
  by apply config_path_url_real in H.
Qed.

Lemma live_key_url_real (obj : jsval) (key u : string) :
  Dom.live_key_url obj key = Some u → real_url u.
Proof.
  unfold Dom.live_key_url. destruct (Dom.get obj key) as [| |v|]; try done.
  destruct (String.eqb v "") eqn:He; [done|]. apply String.eqb_neq in He.
  destruct (Js.includes v decoy_marker) eqn:Hd; [done|]. by intros [= <-].
Qed.

(** [findMediaUrl] returns a string that occurs in the object and does not
    carry the decoy marker. *)
Lemma findMediaUrl_sound (object : jsval) :
  ∀ path u, Dom.findMediaUrl object path = Some u →
            u ∈ string_leaves object ∧ is_decoy u = false.
Proof.
  induction object as [| b | s | fields IH] using jsval_fields_ind; try done.
  intros path u. simpl.
  induction fields as [|[key value] fields IHf]; [done|].
  apply Forall_cons in IH as [IHv IH]. specialize (IHf IH). cbn [snd] in IHv.
  destruct value as [| b | v | fs].
  - intros H. destruct (IHf H) as [Hin Hd]. split; [|done]. by apply elem_of_app; right.
  - intros H. destruct (IHf H) as [Hin Hd]. split; [|done]. by apply elem_of_app; right.
  - destruct ((_ || _ || _) && negb (Js.includes v decoy_marker)) eqn:Hc.
    + intros [= <-]. apply andb_true_iff in Hc as [_ Hc].
      split; [apply elem_of_app; left; by left|].
      unfold is_decoy. by destruct (Js.includes v decoy_marker).
    + intros H. destruct (IHf H) as [Hin Hd]. split; [|done]. by apply elem_of_app; right.
  - destruct (Dom.findMediaUrl (JObj fs) (path ++ [key])) as [result|] eqn:Hr.
    + destruct (negb (String.eqb result "")).
      * intros [= <-]. destruct (IHv _ _ Hr) as [Hin Hd].
        split; [|done]. by apply elem_of_app; left.
      * intros H. destruct (IHf H) as [Hin Hd]. split; [|done]. by apply elem_of_app; right.
    + intros H. destruct (IHf H) as [Hin Hd]. split; [|done]. by apply elem_of_app; right.
Qed.

End Page_values.

(** X14: when none of the five globals carries room data, the value the
    page evaluation hands back (lines 428-564) is [null] or a non-empty
    string without the decoy marker: every other source inside the page is
    filtered. *)
Theorem page_value_without_room_info (literal : string → option string) (doc : Dom.document) :
  Forall (λ varName, Dom.room_info_url (Dom.resolve (Dom.window doc) varName) = None)
         Dom.globalVars →
  Dom.evaluate literal doc = JNull ∨
  ∃ u, Dom.evaluate literal doc = JStr u ∧ real_url u.
Proof.
  intros Hroom. unfold Dom.evaluate.
  destruct (Dom.scan_elements doc) as [u|] eqn:Hs.
  { right. exists u. split; [done|]. by apply scan_elements_real in Hs. }
  destruct (Dom.config_url doc) as [u|] eqn:Hc.
  { right. exists u. split; [done|]. by apply config_url_real in Hc. }
  destruct (Dom.first_of (Dom.global_url (Dom.window doc)) Dom.globalVars) as [v|] eqn:Hg.
  { apply first_of_Some in Hg as (varName & Hin & Hg).
    rewrite Forall_forall in Hroom. specialize (Hroom varName Hin).
    unfold Dom.global_url in Hg.
    destruct (Dom.resolve (Dom.window doc) varName) as [| | |fields]; try done.
    rewrite Hroom in Hg.
    destruct (Dom.first_of (Dom.live_key_url (JObj fields)) Dom.liveKeys) as [k|] eqn:Hk.
    { injection Hg as <-. right. exists k. split; [done|].
      apply first_of_Some in Hk as (key & _ & Hk). by apply live_key_url_real in Hk. }
    destruct (Dom.findMediaUrl (JObj fields) []) as [m|] eqn:Hm; [|done].
    destruct (String.eqb m "") eqn:He; [done|]. apply String.eqb_neq in He.
    injection Hg as <-. right. exists m. split; [done|].
    apply findMediaUrl_sound in Hm as [_ Hd]. by split. }
  destruct (Dom.first_of (Dom.script_url literal) (Dom.scripts doc)) as [u|] eqn:Hsc;
    [|by left].
  right. exists u. split; [done|].
  apply first_of_Some in Hsc as (content & _ & Hsc). unfold Dom.script_url in Hsc.
  destruct (_ && _); [|done]. destruct (literal content) as [m|]; [|done].
  destruct (Dom.usable (Some m)) eqn:Hu; [|done]. injection Hsc as <-.
  by apply usable_real.
Qed.

Lemma page_value_without_room_info_witness :
  Dom.evaluate (λ _, None) plain_document = JNull ∨
  ∃ u, Dom.evaluate (λ _, None) plain_document = JStr u ∧ real_url u.
Proof.
  apply (page_value_without_room_info (λ _, None) plain_document).
  repeat constructor.
Defined.

(** X15: room data is handed back as it is found (lines 504-510). When no
    element and no player configuration gives a URL and [__INIT_PROPS__] is
    an object with room data [v], the evaluation returns [v], whatever it
    is: a string with the decoy marker, or a value that is no string. *)
Theorem room_info_is_returned_as_found
    (literal : string → option string) (doc : Dom.document)
    (fields : list (string * jsval)) (v : jsval) :
  Dom.scan_elements doc = None →
  Dom.config_url doc = None →
  Dom.get (Dom.window doc) "__INIT_PROPS__" = JObj fields →
  Dom.room_info_url (JObj fields) = Some v →
  Dom.evaluate literal doc = v.
Proof.
  intros Hs Hc Hw Hr. unfold Dom.evaluate. rewrite Hs, Hc.
  change Dom.globalVars with ("__INIT_PROPS__" :: tail Dom.globalVars).
  cbn [Dom.first_of]. unfold Dom.global_url.
  change (Dom.resolve (Dom.window doc) "__INIT_PROPS__")
    with (Dom.get (Dom.window doc) "__INIT_PROPS__").
  by rewrite Hw, Hr.
Qed.

Lemma room_info_is_returned_as_found_witness :
  Dom.evaluate (λ _, None) placeholder_document = JStr decoy_url ∧
  is_decoy decoy_url = true.
Proof.
  split; [|reflexivity].
  apply (room_info_is_returned_as_found (λ _, None) placeholder_document
           [("roomInfo", JObj [("liveUrl", JStr decoy_url)])]); reflexivity.
Defined.

Section Json_candidates.

Lemma url_shaped_real (v : string) : Dom.url_shaped v = true → real_url v.
Proof.
  unfold Dom.url_shaped, real_url, is_decoy. intros H.
  apply andb_true_iff in H as [H1 H2]. split.
  - intros ->. by vm_compute in H1.
  - by destruct (Js.includes v decoy_marker).
Qed.

Lemma scheme_keeps_decoy (v : string) : is_decoy ("https:" +:+ v) = is_decoy v.
Proof. reflexivity. Qed.

Lemma findMediaUrls_real (toLowerCase : string → string) (obj : jsval) :
  Forall real_url (Dom.findMediaUrls toLowerCase obj).
Proof.
  induction obj as [| b | s | fields IH] using jsval_fields_ind; try by constructor.
  simpl. induction fields as [|[key value] fields IHf]; [constructor|].
  apply Forall_cons in IH as [IHv IH]. specialize (IHf IH). cbn [snd] in IHv.
  destruct value as [| b | v | fs]; try done.
  - apply Forall_app. split; [|done].
    destruct (_ && Dom.url_shaped v) eqn:Hc; [|constructor].
    apply andb_true_iff in Hc as [_ Hc]. apply url_shaped_real in Hc as [Hne Hd].
    constructor; [|constructor].
    destruct (String.prefix "//" v); [|by split].
    split; [done | by rewrite scheme_keeps_decoy].
  - apply Forall_app. by split.
Qed.

Lemma undecoyed_real (urls : list string) : Forall real_url urls → undecoyed urls = urls.
Proof.
  unfold undecoyed. induction 1 as [|u urls [_ Hd] _ IH]; [done|].
  rewrite filter_cons. case_decide; [by rewrite IH | done].
Qed.

End Json_candidates.

(** X16: every address [findMediaUrls] collects from a JSON body (lines
    610-643) is non-empty and free of the decoy marker, so the filter of
    line 649 removes nothing: the callback takes the first collected
    address with a streaming extension, or else the first collected
    address, and leaves [streamUrl] alone only when nothing was collected. *)
Theorem json_candidates_are_real
    (toLowerCase : string → string) (obj : jsval) (streamUrl : value) :
  let urls := Dom.findMediaUrls toLowerCase obj in
  Forall real_url urls ∧
  undecoyed urls = urls ∧
  on_response streamUrl urls =
    match head (filter (λ u, stream_ext u = true) urls) with
    | Some u => Str u
    | None =>
        match head urls with
        | Some u => Str u
        | None => streamUrl
        end
    end.
Proof.
  intros urls. pose proof (findMediaUrls_real toLowerCase obj) as Hreal.
  fold urls in Hreal. pose proof (undecoyed_real urls Hreal) as Hu.
  split; [done|]. split; [done|].
  unfold on_response. unfold undecoyed in Hu. rewrite Hu.
  pose proof (head_sort_by_score urls) as H.
  destruct urls as [|x l]; [done|]. cbn [length Nat.ltb Nat.leb].
  destruct (sort_by_score (x :: l)) as [|y s]; cbn [length Nat.ltb Nat.leb head] in *.
  - destruct (head (filter _ (x :: l))); done.
  - destruct (head (filter _ (x :: l))); congruence.
Qed.

Section Deep_property.

Lemma split_dots_cons (s : string) : ∃ part parts, Dom.split_dots s = part :: parts.
Proof.
  induction s as [|c s (part & parts & IH)]; [by eexists _, _|].
  simpl. rewrite IH. destruct (Ascii.eqb c "."); by eexists _, _.
Qed.

Lemma split_dots_app (a b : string) :
  Dom.split_dots (a +:+ "." +:+ b) = Dom.split_dots a ++ Dom.split_dots b.
Proof.
  induction a as [|c a IH].
  - reflexivity.
  - change (String c a +:+ "." +:+ b) with (String c (a +:+ "." +:+ b)).
    cbn [Dom.split_dots]. rewrite IH.
    destruct (Ascii.eqb c "."); [done|].
    by destruct (split_dots_cons a) as (part & parts & ->).
Qed.

Lemma walk_null (parts : list string) : Dom.walk JNull parts = JNull.
Proof. by destruct parts. Qed.

Lemma walk_app (obj : jsval) (p q : list string) :
  q ≠ [] → Dom.walk obj (p ++ q) = Dom.walk (Dom.walk obj p) q.
Proof.
  intros Hq. revert obj. induction p as [|part p IH]; intros obj; [done|].
  cbn [app Dom.walk].
  destruct obj as [| | |fields]; try (destruct q; done).
  destruct (Dom.own part fields); [apply IH|]. by destruct q.
Qed.

End Deep_property.

(** X17: [getDeepProperty] (lines 430-441) follows a dotted path one step
    at a time: reading [a.b] is reading [b] in what reading [a] gave, and
    reading any path in [null] gives [null], so a step that fails fails the
    whole path. *)
Theorem getDeepProperty_composes (obj : jsval) (a b : string) :
  Dom.getDeepProperty obj (a +:+ "." +:+ b) =
    Dom.getDeepProperty (Dom.getDeepProperty obj a) b ∧
  Dom.getDeepProperty JNull b = JNull.
Proof.
  split; [|apply walk_null].
  unfold Dom.getDeepProperty. rewrite split_dots_app. apply walk_app.
  by destruct (split_dots_cons b) as (part & parts & ->).
Qed.

(** X18: the check for a video element (lines 415-423) never hides an
    address that an element carries: when the scan of lines 444-459 finds
    one, some selector matches an element, so the check answers [true]; and
    the address is non-empty and free of the decoy marker. *)
Theorem element_address_passes_the_check (doc : Dom.document) (u : string) :
  Dom.scan_elements doc = Some u → Dom.hasVideo doc = true ∧ real_url u.
Proof.
  intros H. split; [|by apply scan_elements_real in H].
  unfold Dom.scan_elements in H. apply first_of_Some in H as (selector & Hin & H).
  unfold Dom.hasVideo. apply existsb_exists. exists selector.
  split; [by apply list_elem_of_In|].
  by destruct (Dom.querySelectorAll doc selector).
Qed.

Lemma element_address_passes_the_check_witness :
  Dom.hasVideo video_document = true ∧ real_url "https://pull.example.com/a.flv".
Proof.
  apply (element_address_passes_the_check video_document "https://pull.example.com/a.flv").
  reflexivity.
Defined.

(** * Properties of the component *)

Section Component.

Ltac eqb_cases :=
  repeat match goal with
  | |- context [String.eqb ?x ""] =>
      let H := fresh "He" in
      destruct (String.eqb x "") eqn:H;
      [apply String.eqb_eq in H | apply String.eqb_neq in H]
  end.

Lemma initial_consistent : consistent Client.initial.
Proof. unfold consistent, selected_url. simpl. auto. Qed.

Lemma step_consistent (s : Client.state) (ev : Client.event) :
  consistent s → consistent (Client.step s ev).
Proof.
  destruct s as [ld o tr a sid src pe ff fh se tv].
  unfold consistent, selected_url. cbn. intros (H1 & H2 & H3).
  destruct ev as [url|data|data| |[]| |stopped|]; cbn;
    unfold Client.handlePlayerError, Client.stopStream; cbn;
    try (destruct (Client.data_ffmpegAvailable data); by auto);
    try done.
  all: eqb_cases; cbn.
  all: try (destruct ff; cbn).
  all: try (destruct src; cbn).
  all: try (destruct stopped; cbn).
  all: eqb_cases; cbn.
  all: try (intuition congruence).
  all: subst; intuition congruence.
Qed.

Lemma run_consistent (evs : list Client.event) (s : Client.state) :
  consistent s → consistent (fold_left Client.step evs s).
Proof.
  revert s. induction evs as [|ev evs IH]; intros s H; [done|].
  simpl. by apply IH, step_consistent.
Qed.

End Component.

(** X19: whatever happens to the component (starts, streams arriving over
    the socket or as a REST reply, failures, source changes, player errors,
    stops), the player and the selector agree: the address that plays is the
    original or the transcoded one, it is the selected one whenever that one
    is known, and while FFmpeg is reported unavailable the selector stays on
    the original stream and the original stream plays. *)
Theorem component_stays_consistent (evs : list Client.event) :
  consistent (Client.run evs).
Proof. apply run_consistent, initial_consistent. Qed.

(** X20: [handlePlayerError] (lines 225-239) switches at most once: after
    two player errors in a row the error is shown, a third changes nothing,
    and the selector is on the transcoded stream or where it was. The two
    addresses are never touched. *)
Theorem player_error_switches_once (s : Client.state) :
  let s2 := Client.handlePlayerError (Client.handlePlayerError s) in
  Client.playbackError s2 = true ∧
  Client.handlePlayerError s2 = s2 ∧
  (Client.streamSource s2 = Client.Transcoded ∨
   Client.streamSource s2 = Client.streamSource s) ∧
  Client.originalStreamUrl s2 = Client.originalStreamUrl s ∧
  Client.transcodedStreamUrl s2 = Client.transcodedStreamUrl s.
Proof.
  destruct s as [ld o tr a sid src pe ff fh se tv].
  unfold Client.handlePlayerError. cbn.
  destruct src, (String.eqb tr "") eqn:He, ff; cbn; rewrite ?He; cbn;
    repeat split; auto; by rewrite ?He, ?andb_false_r.
Qed.

(** * The component against the server *)

Section Component_and_server.

Lemma pretty_N_go_nonempty (x : N) (s : string) : s ≠ "" → pretty_N_go x s ≠ "".
Proof.
  revert s. induction (N.lt_wf_0 x) as [x _ IH]; intros s Hs.
  assert (x = 0 ∨ 0 < x)%N as [->|?] by lia.
  - by rewrite pretty_N_go_0.
  - rewrite pretty_N_go_step by done. apply IH; [by apply N.div_lt | done].
Qed.

Lemma pretty_nonempty (n : N) : pretty n ≠ "".
Proof.
  unfold pretty, pretty_N. case_decide; [done|].
  rewrite pretty_N_go_step by lia. by apply pretty_N_go_nonempty.
Qed.

Lemma socket_session_id_nonempty (now : N) (socket_id : string) :
  socket_session_id now socket_id ≠ "".
Proof.
  unfold socket_session_id. intros H.
  destruct (pretty now); unfold String.append in H; fold String.append in H; discriminate.
Qed.

(** What a successful answer of the REST handler went through. *)
Lemma start_stream_started (h : host) (pg : page) (now : N) (url : option string)
    (w w1 : world) (sid : string) (r : Result.t) :
  start_stream h pg now url w = (Return (Started sid r), w1) →
  ∃ v t, extractLiveStreamUrl pg (default "" url) = (Return v, t) ∧
         sid = pretty now ∧
         processLiveStream h v sid (log t w) = (Return r, w1).
Proof.
  unfold start_stream, Server.try_catch.
  destruct (Js.truthy url); cbn -[pretty processLiveStream extractLiveStreamUrl]; [|done].
  unfold mbind, M_bind, lift.
  destruct (extractLiveStreamUrl pg (default "" url)) as [[v|e] t];
    cbn -[pretty processLiveStream]; try done.
  destruct (processLiveStream h v (pretty now) (log t w)) as [[r'|e] w'] eqn:Hp;
    cbn; [|done].
  intros [= <- <- <-]. by eexists _, _.
Qed.

(** What a ['stream-ready'] message of the socket handler went through. *)
Lemma join_stream_ready (h : host) (pg : page) (now : N) (socket_id : string)
    (url : option string) (w w1 : world) (sid : string) (r : Result.t) :
  join_stream h pg now socket_id url w = (Return (StreamReady sid r), w1) →
  ∃ v t, extractLiveStreamUrl pg (default "" url) = (Return v, t) ∧
         sid = socket_session_id now socket_id ∧
         processLiveStream h v sid (log t w) = (Return r, w1).
Proof.
  unfold join_stream, Server.try_catch.
  destruct (Js.truthy url);
    cbn -[socket_session_id processLiveStream extractLiveStreamUrl]; [|done].
  unfold mbind, M_bind, lift.
  destruct (extractLiveStreamUrl pg (default "" url)) as [[v|e] t];
    cbn -[socket_session_id processLiveStream]; try done.
  destruct (processLiveStream h v (socket_session_id now socket_id) (log t w))
    as [[r'|e] w'] eqn:Hp; cbn -[socket_session_id]; [|done].
  intros [= <- <- <-]. by eexists _, _.
Qed.

Lemma isTestUrl_is_decoy (v : string) : v ≠ "" → Client.isTestUrl (Some v) = is_decoy v.
Proof.
  intros Hv. unfold Client.isTestUrl, Js.truthy_includes, is_decoy.
  apply String.eqb_neq in Hv. by rewrite Hv.
Qed.

(** The stop request for a session the table does not hold is refused, and
    the component stays as it is. *)
Lemma client_stop_refused (s : Client.state) (w : world) :
  Client.sessionId s ≠ "" →
  activeLiveStreams w !! Client.sessionId s = None →
  client_stop s w = (Return s, w).
Proof.
  intros Hne Hnone. unfold client_stop. apply String.eqb_neq in Hne. rewrite Hne.
  unfold mbind, M_bind. rewrite stop_stream_absent by done.
  unfold no_session, Client.stopStream. by rewrite Hne.
Qed.

(** A result that reports a string is read by the component as that
    string. *)
Lemma reply_data_string (sid streamUrl : string) (r : Result.t) :
  Result.originalUrl r = Str streamUrl →
  ∃ data, reply_data sid r = Some data ∧
          Client.data_streamUrl data = streamUrl ∧
          Client.data_sessionId data = sid.
Proof. intros H. unfold reply_data. rewrite H. by eexists. Qed.

Lemma reply_data_Some (sid : string) (r : Result.t) (data : Client.stream_data) :
  reply_data sid r = Some data →
  Result.originalUrl r = Str (Client.data_streamUrl data) ∧
  Client.data_sessionId data = sid.
Proof.
  unfold reply_data. destruct (Result.originalUrl r); try done.
  by intros [= <-].
Qed.

End Component_and_server.

(** X21: the component marks a stream as the test video exactly when the
    discovery attempt that found it wrote its diagnostics: for an attempt
    that returns a string, both sides test the same marker on the same
    address, which [processLiveStream] hands through unchanged. This holds
    for the socket message and for the REST reply. *)
Theorem test_video_flag_matches_diagnostics
    (pg : page) (url0 v : string) (t : list effect)
    (h : host) (sid : string) (w w1 : world) (r : Result.t) (s : Client.state) :
  extractLiveStreamUrl pg url0 = (Return (Str v), t) →
  processLiveStream h (Str v) sid w = (Return r, w1) →
  ∃ data,
    reply_data sid r = Some data ∧
    (Client.isTestVideo (Client.stream_ready data s) = true ↔ diagnosed t) ∧
    (Client.isTestVideo (Client.rest_success data s) = true ↔ diagnosed t).
Proof.
  intros He Hp.
  destruct (processLiveStream_stores h (Str v) sid w eq_refl) as (r' & w' & Hp' & Ho & _).
  rewrite Hp in Hp'. injection Hp' as <- <-.
  apply attempt_returns_string in He as (Hne & Hd).
  destruct (reply_data_string sid v r Ho) as (data & Hdata & Hu & _).
  exists data. split; [done|].
  cbn [Client.isTestVideo Client.stream_ready Client.rest_success].
  rewrite Hu, isTestUrl_is_decoy by done. by split.
Qed.

Lemma test_video_flag_matches_diagnostics_witness :
  ∃ data,
    reply_data "1700000000000-Zx-3_q" (passthrough (Str decoy_url)) = Some data ∧
    (Client.isTestVideo (Client.stream_ready data Client.initial) = true ↔
     diagnosed (extractLiveStreamUrl decoy_in_dom "https://live.douyin.com/live/555").2) ∧
    (Client.isTestVideo (Client.rest_success data Client.initial) = true ↔
     diagnosed (extractLiveStreamUrl decoy_in_dom "https://live.douyin.com/live/555").2).
Proof.
  apply (test_video_flag_matches_diagnostics decoy_in_dom "https://live.douyin.com/live/555"
           decoy_url _ bare_host "1700000000000-Zx-3_q" fresh_world fresh_world);
    [vm_compute; reflexivity | reflexivity].
Defined.

(** X22: a stream that is passed through cannot be stopped from the
    component. When the answer to a start (REST reply or socket message,
    carrying a string as its address) reports no FFmpeg, the server holds no
    session under the id it sent, so
    the stop request of the component is refused with 404 and [stopStream]
    changes nothing: the component keeps the session id and goes on playing
    the address. *)
Theorem passthrough_stop_is_refused
    (h : host) (pg : page) (now : N) (socket_id : string) (url : option string)
    (w w1 : world) (sid : string) (r : Result.t) (data : Client.stream_data)
    (s s1 : Client.state) :
  reply_data sid r = Some data →
  (start_stream h pg now url w = (Return (Started sid r), w1) ∧
   s1 = Client.rest_success data s) ∨
  (join_stream h pg now socket_id url w = (Return (StreamReady sid r), w1) ∧
   s1 = Client.stream_ready data s) →
  Result.ffmpegAvailable r = false →
  activeLiveStreams w !! sid = None →
  client_stop s1 w1 = (Return s1, w1) ∧
  Client.sessionId s1 = sid ∧ sid ≠ "" ∧
  Str (Client.activeStreamUrl s1) = Result.originalUrl r ∧
  Client.activeStreamUrl s1 ≠ "".
Proof.
  intros Hdata Hstart Hff Hnone.
  apply reply_data_Some in Hdata as [Hor Hds].
  assert (∃ v t, extractLiveStreamUrl pg (default "" url) = (Return v, t) ∧
                 sid ≠ "" ∧ processLiveStream h v sid (log t w) = (Return r, w1) ∧
                 Client.sessionId s1 = sid ∧
                 Client.activeStreamUrl s1 = Client.data_streamUrl data)
    as (v & t & He & Hsid & Hp & Hs1 & Ha).
  { destruct Hstart as [[H ->]|[H ->]].
    - apply start_stream_started in H as (v & t & He & -> & Hp).
      exists v, t. split; [done|]. split; [apply pretty_nonempty|]. by split.
    - apply join_stream_ready in H as (v & t & He & -> & Hp).
      exists v, t. split; [done|]. split; [apply socket_session_id_nonempty|]. by split. }
  assert (Hu : Value.no_includes "streamUrl" v = None).
  { rewrite processLiveStream_unfold in Hp.
    by destruct (Value.no_includes "streamUrl" v). }
  destruct (processLiveStream_stores h v sid (log t w) Hu) as (r' & w' & Hp' & Ho & Htbl).
  rewrite Hp in Hp'. injection Hp' as <- <-. rewrite Hff in Htbl.
  rewrite Hor in Ho. subst v.
  apply attempt_returns_string in He as (Hne & _).
  split.
  { apply client_stop_refused; rewrite Hs1; [done|]. by rewrite Htbl. }
  split; [done|]. split; [done|]. split; [by rewrite Ha, Hor|]. by rewrite Ha.
Qed.

Lemma passthrough_stop_is_refused_witness :
  let w1 := (start_stream bare_host flv_page 1700000000000
               (Some "https://live.douyin.com/live/555") fresh_world).2 in
  let data := {| Client.data_streamUrl := "https://pull.example.com/a.flv";
                 Client.data_transcodedUrl := None;
                 Client.data_sessionId := "1700000000000";
                 Client.data_ffmpegAvailable := false;
                 Client.data_error := None |} in
  let s1 := Client.rest_success data Client.initial in
  reply_data "1700000000000" (passthrough (Str "https://pull.example.com/a.flv")) =
    Some data ∧
  client_stop s1 w1 = (Return s1, w1) ∧
  Client.sessionId s1 = "1700000000000" ∧ "1700000000000" ≠ "" ∧
  Str (Client.activeStreamUrl s1) = Str "https://pull.example.com/a.flv" ∧
  Client.activeStreamUrl s1 ≠ "".
Proof.
  intros w1 data s1. split; [reflexivity|].
  apply (passthrough_stop_is_refused bare_host flv_page 1700000000000 ""
           (Some "https://live.douyin.com/live/555") fresh_world w1
           "1700000000000" (passthrough (Str "https://pull.example.com/a.flv"))
           data Client.initial s1);
    [reflexivity | left; split; reflexivity | reflexivity | reflexivity].
Defined.
